(** * Bi-Level Routing Attention (crat/bra_legacy.py): a shallow embedding

    Tensors are modelled as a shape together with an index function, the
    floating-point scalars of PyTorch are idealised as real numbers, and
    Python exceptions are values of an error monad.  The classes of the
    source file ([TopkRouting], [KVGather], [QKVLinear],
    [BiLevelRoutingAttention]) each become a module with [init] and
    [forward]. *)

From Stdlib Require Import String.
From Stdlib Require Import List Arith Lia ZArith Bool.
From Stdlib Require Import Permutation FinFun Sorted.
From Stdlib Require Import Reals Lra.
Import ListNotations.

Set Implicit Arguments.

(** ** Exceptions and the error monad *)

Inductive exn : Set :=
| AssertionError
| ValueError
| NotImplementedError
| AttributeError
| IndexError
| ZeroDivisionError
| RuntimeError
| EinopsError.

Inductive result (A : Type) : Type :=
| Ok (a : A)
| Raise (e : exn).

Arguments Ok {A} a.
Arguments Raise {A} e.

Definition bind {A B} (m : result A) (k : A -> result B) : result B :=
  match m with
  | Ok a => k a
  | Raise e => Raise e
  end.

Notation "x <- m ;; k" := (bind m (fun x => k))
  (at level 61, m at next level, right associativity).
Notation "' pat <- m ;; k" := (bind m (fun x => match x with pat => k end))
  (at level 61, pat pattern, m at next level, right associativity).

(** [assert c] of Python. *)
Definition assert (c : bool) : result unit :=
  if c then Ok tt else Raise AssertionError.

(** A guard raising [e] when the library rejects its operand. *)
Definition require (c : bool) (e : exn) : result unit :=
  if c then Ok tt else Raise e.

(** Python's [a % b] on non-negative integers. *)
Definition py_mod (a b : nat) : result nat :=
  if b =? 0 then Raise ZeroDivisionError else Ok (a mod b).

(** ** Tensors *)

Record Tensor (A : Type) : Type := mkTensor {
  size : list nat;
  data : list nat -> A
}.

Definition numel (sh : list nat) : nat := fold_right Nat.mul 1 sh.

(** An index is in range for a shape when it has the same rank and every
    coordinate is below the corresponding extent. *)
Definition InRange (idx sh : list nat) : Prop := Forall2 lt idx sh.

(** Two tensors are equal when they have the same shape and agree on
    every in-range index. *)
Definition teq {A} (s t : Tensor A) : Prop :=
  size s = size t /\ forall idx, InRange idx (size s) -> data s idx = data t idx.

(** Row-major linearisation, as used by [view]. *)
Fixpoint ravel (sh idx : list nat) : nat :=
  match sh, idx with
  | _ :: sh', i :: idx' => i * numel sh' + ravel sh' idx'
  | _, _ => 0
  end.

Fixpoint unravel (sh : list nat) (off : nat) : list nat :=
  match sh with
  | [] => []
  | _ :: sh' => off / numel sh' :: unravel sh' (off mod numel sh')
  end.

Fixpoint all_indices (sh : list nat) : list (list nat) :=
  match sh with
  | [] => [[]]
  | d :: sh' => flat_map (fun i => map (cons i) (all_indices sh')) (seq 0 d)
  end.

Definition list_eqb (a b : list nat) : bool :=
  if list_eq_dec Nat.eq_dec a b then true else false.

(** Sums of reals. *)
Definition sumR (l : list R) : R := fold_right Rplus 0%R l.
Definition Rsum (n : nat) (f : nat -> R) : R := sumR (map f (seq 0 n)).

(** The slice of a tensor along its last axis at a fixed prefix. *)
Definition row {A} (t : Tensor A) (pre : list nat) (len : nat) : list A :=
  map (fun j => data t (pre ++ [j])) (seq 0 len).

(** ** Tensor operations of PyTorch used by the module *)

(** [t.view(sh)]: same row-major contents under another shape. *)
Definition view {A} (sh : list nat) (t : Tensor A) : result (Tensor A) :=
  _ <- require (numel sh =? numel (size t)) RuntimeError ;;
  Ok (mkTensor sh (fun idx => data t (unravel (size t) (ravel sh idx)))).

(** [t.expand(sizes)] with [-1] written [None]: singleton axes are
    repeated, other axes must already have the requested extent. *)
Fixpoint expand_shape (sizes : list (option nat)) (sh : list nat) : option (list nat) :=
  match sizes, sh with
  | [], [] => Some []
  | None :: sizes', d :: sh' => option_map (cons d) (expand_shape sizes' sh')
  | Some s :: sizes', d :: sh' =>
      if (d =? 1) || (d =? s) then option_map (cons s) (expand_shape sizes' sh')
      else None
  | _, _ => None
  end.

(** The source index of an expanded (broadcast) axis: coordinate [0] on
    singleton axes. *)
Fixpoint bcast_index (sh idx : list nat) : list nat :=
  match sh, idx with
  | d :: sh', i :: idx' => (if d =? 1 then 0 else i) :: bcast_index sh' idx'
  | _, _ => []
  end.

Definition expand {A} (sizes : list (option nat)) (t : Tensor A) : result (Tensor A) :=
  match expand_shape sizes (size t) with
  | Some sh => Ok (mkTensor sh (fun idx => data t (bcast_index (size t) idx)))
  | None => Raise RuntimeError
  end.

(** Replace coordinate [d] of an index. *)
Fixpoint set_nth (d : nat) (v : nat) (idx : list nat) : list nat :=
  match d, idx with
  | _, [] => []
  | 0, _ :: idx' => v :: idx'
  | S d', i :: idx' => i :: set_nth d' v idx'
  end.

Fixpoint le_all (ish sh : list nat) : bool :=
  match ish, sh with
  | [], [] => true
  | a :: ish', b :: sh' => (a <=? b) && le_all ish' sh'
  | _, _ => false
  end.

(** [index.size(d) <= input.size(d)] on every axis but [dim]. *)
Fixpoint le_except (d : nat) (ish sh : list nat) : bool :=
  match ish, sh with
  | [], [] => true
  | a :: ish', b :: sh' =>
      match d with
      | 0 => le_all ish' sh'
      | S d' => (a <=? b) && le_except d' ish' sh'
      end
  | _, _ => false
  end.

(** [torch.gather(input, dim, index)]: the result has the shape of
    [index]; every index value must address axis [dim] of [input]. *)
Definition gather {A} (input : Tensor A) (dim : nat) (index : Tensor Z)
  : result (Tensor A) :=
  _ <- require (le_except dim (size index) (size input)) RuntimeError ;;
  _ <- require (forallb (fun idx => (0 <=? data index idx)%Z &&
                                    (data index idx <? Z.of_nat (nth dim (size input) 0%nat))%Z)
                        (all_indices (size index))) RuntimeError ;;
  Ok (mkTensor (size index)
        (fun idx => data input (set_nth dim (Z.to_nat (data index idx)) idx))).

(** Swap the last two entries of a shape or of an index. *)
Definition swap_last2 (l : list nat) : list nat :=
  match rev l with
  | y :: x :: r => rev (x :: y :: r)
  | _ => l
  end.

(** [t.transpose(-2, -1)]. *)
Definition transpose_last2 {A} (t : Tensor A) : result (Tensor A) :=
  _ <- require (2 <=? length (size t)) RuntimeError ;;
  Ok (mkTensor (swap_last2 (size t)) (fun idx => data t (swap_last2 idx))).

(** [t * s] for a Python float [s]. *)
Definition mul_scalar (t : Tensor R) (s : R) : Tensor R :=
  mkTensor (size t) (fun idx => (data t idx * s)%R).

(** Broadcasting of two shapes, aligned on the last axis (the lists are
    given reversed). *)
Fixpoint broadcast_rev (a b : list nat) : option (list nat) :=
  match a, b with
  | [], _ => Some b
  | _, [] => Some a
  | x :: a', y :: b' =>
      if x =? y then option_map (cons x) (broadcast_rev a' b')
      else if x =? 1 then option_map (cons y) (broadcast_rev a' b')
      else if y =? 1 then option_map (cons x) (broadcast_rev a' b')
      else None
  end.

Definition bcast_index_r (sh idx : list nat) : list nat :=
  rev (bcast_index (rev sh) (rev idx)).

(** [a * b] on tensors, with broadcasting. *)
Definition mul (a b : Tensor R) : result (Tensor R) :=
  match broadcast_rev (rev (size a)) (rev (size b)) with
  | Some r =>
      Ok (mkTensor (rev r)
            (fun idx => (data a (bcast_index_r (size a) idx) *
                         data b (bcast_index_r (size b) idx))%R))
  | None => Raise RuntimeError
  end.

(** [a @ b] for operands of rank at least two whose batch axes agree
    (the module never relies on broadcasting of batch axes). *)
Definition matmul (a b : Tensor R) : result (Tensor R) :=
  let ra := length (size a) in
  let rb := length (size b) in
  _ <- require ((2 <=? ra) && (ra =? rb)) RuntimeError ;;
  let batch := firstn (ra - 2) (size a) in
  let m := nth (ra - 2) (size a) 0 in
  let k := nth (ra - 1) (size a) 0 in
  let n := nth (rb - 1) (size b) 0 in
  _ <- require (list_eqb batch (firstn (rb - 2) (size b)) &&
                (k =? nth (rb - 2) (size b) 0)) RuntimeError ;;
  Ok (mkTensor (batch ++ [m; n])
        (fun idx =>
           let pre := firstn (ra - 2) idx in
           let i := nth (ra - 2) idx 0 in
           let j := nth (ra - 1) idx 0 in
           Rsum k (fun c => (data a (pre ++ [i; c]) * data b (pre ++ [c; j]))%R))).

(** [nn.Softmax(dim=-1)]: the normalised exponential along the last
    axis. *)
Definition softmax (t : Tensor R) : result (Tensor R) :=
  _ <- require (1 <=? length (size t)) RuntimeError ;;
  let len := last (size t) 0 in
  Ok (mkTensor (size t)
        (fun idx =>
           let pre := removelast idx in
           (exp (data t idx) / Rsum len (fun l => exp (data t (pre ++ [l]))))%R)).

(** [nn.Linear(in_features, out_features)] with its learned weight and
    bias. *)
Record LinearParams : Type := mkLinear {
  weight : nat -> nat -> R;
  bias : nat -> R
}.

Definition linear (in_f out_f : nat) (p : LinearParams) (x : Tensor R)
  : result (Tensor R) :=
  _ <- require ((1 <=? length (size x)) && (last (size x) 0 =? in_f)) RuntimeError ;;
  Ok (mkTensor (removelast (size x) ++ [out_f])
        (fun idx =>
           let pre := removelast idx in
           let o := last idx 0 in
           (Rsum in_f (fun c => data x (pre ++ [c]) * weight p o c) + bias p o)%R)).

(** A window of the last axis: [t[..., start : start + len]]. *)
Definition narrow_last {A} (start len : nat) (t : Tensor A) : Tensor A :=
  mkTensor (removelast (size t) ++ [len])
    (fun idx => data t (removelast idx ++ [start + last idx 0])).

(** [t.split(sizes, dim=-1)]: the section sizes must add up to the last
    extent. *)
Fixpoint split_from {A} (start : nat) (sizes : list nat) (t : Tensor A) : list (Tensor A) :=
  match sizes with
  | [] => []
  | s :: sizes' => narrow_last start s t :: split_from (start + s) sizes' t
  end.

Definition split {A} (sizes : list nat) (t : Tensor A) : result (list (Tensor A)) :=
  _ <- require ((1 <=? length (size t)) && (fold_right Nat.add 0 sizes =? last (size t) 0))
         RuntimeError ;;
  Ok (split_from 0 sizes t).

(** [torch.cat([a, b], dim=-1)]. *)
Definition cat {A} (a b : Tensor A) : result (Tensor A) :=
  _ <- require ((1 <=? length (size a)) &&
                list_eqb (removelast (size a)) (removelast (size b)) &&
                (1 <=? length (size b))) RuntimeError ;;
  let ca := last (size a) 0 in
  Ok (mkTensor (removelast (size a) ++ [ca + last (size b) 0])
        (fun idx =>
           let c := last idx 0 in
           if c <? ca then data a idx else data b (removelast idx ++ [c - ca]))).

(** [t[..., 0:stop]]: Python slices clamp to the extent. *)
Definition slice_last {A} (stop : nat) (t : Tensor A) : result (Tensor A) :=
  _ <- require (1 <=? length (size t)) RuntimeError ;;
  Ok (narrow_last 0 (Nat.min stop (last (size t) 0)) t).

(** [t.mean([2, 3, 4])]: the mean over axes 2, 3 and 4, which are
    removed.  The mean over an empty window (a NaN in floating point) is
    left as the value the real division gives. *)
Definition mean_234 (t : Tensor R) : result (Tensor R) :=
  match size t with
  | a :: b :: d :: h :: w :: rest =>
      Ok (mkTensor (a :: b :: rest)
            (fun idx =>
               match idx with
               | i :: j :: ridx =>
                   let count := d * h * w in
                   (Rsum d (fun x => Rsum h (fun y => Rsum w (fun z =>
                      data t (i :: j :: x :: y :: z :: ridx))))
                    / INR count)%R
               | _ => 0%R
               end))
  | _ => Raise RuntimeError
  end.

(** [F.pad(x, pads)] with constant zero: the pairs [(left, right)] are
    listed from the last axis backwards. *)
Fixpoint pad_shape_rev (pads : list (nat * nat)) (rsh : list nat) : option (list nat) :=
  match pads, rsh with
  | [], _ => Some rsh
  | (l, r) :: pads', d :: rsh' => option_map (cons (l + d + r)) (pad_shape_rev pads' rsh')
  | _ :: _, [] => None
  end.

Fixpoint pad_source_rev (pads : list (nat * nat)) (rsh ridx : list nat) : option (list nat) :=
  match pads, rsh, ridx with
  | [], _, _ => Some ridx
  | (l, r) :: pads', d :: rsh', i :: ridx' =>
      if (l <=? i) && (i <? l + d)
      then option_map (cons (i - l)) (pad_source_rev pads' rsh' ridx')
      else None
  | _, _, _ => None
  end.

Definition F_pad (x : Tensor R) (pads : list (nat * nat)) : result (Tensor R) :=
  match pad_shape_rev pads (rev (size x)) with
  | Some rsh =>
      Ok (mkTensor (rev rsh)
            (fun idx =>
               match pad_source_rev pads (rev (size x)) (rev idx) with
               | Some ridx => data x (rev ridx)
               | None => 0%R
               end))
  | None => Raise RuntimeError
  end.

(** Basic slicing [t[:s0, :s1, ...]] where [None] stands for a bare [:];
    axes past the written ones are kept whole. *)
Fixpoint slice_shape (stops : list (option nat)) (sh : list nat) : option (list nat) :=
  match stops, sh with
  | [], _ => Some sh
  | None :: stops', d :: sh' => option_map (cons d) (slice_shape stops' sh')
  | Some s :: stops', d :: sh' => option_map (cons (Nat.min s d)) (slice_shape stops' sh')
  | _ :: _, [] => None
  end.

Definition getitem_slices {A} (stops : list (option nat)) (t : Tensor A) : result (Tensor A) :=
  match slice_shape stops (size t) with
  | Some sh => Ok (mkTensor sh (data t))
  | None => Raise IndexError
  end.

(** ** [torch.topk]

    The [k] largest entries along the last axis, in decreasing order,
    with their positions.  PyTorch leaves the order of equal entries to
    the backend; here the entry met first (lowest position) comes first.
    The selection is written for any scalar type with a strict
    comparison. *)

Section TopkList.
Variable A : Type.
Variable gtb : A -> A -> bool.

Fixpoint insert_desc (x : nat * A) (l : list (nat * A)) : list (nat * A) :=
    match l with
    | [] => [x]
    | y :: l' => if gtb (snd y) (snd x) then y :: insert_desc x l' else x :: l
    end.

Definition sort_desc (l : list (nat * A)) : list (nat * A) :=
    fold_right insert_desc [] l.

Definition topk_list (k : nat) (l : list A) : list (nat * A) :=
    firstn k (sort_desc (combine (seq 0 (length l)) l)).
End TopkList.

Definition Rgtb (a b : R) : bool := if Rlt_dec b a then true else false.

Definition no_entry : nat * R := (0, 0%R).

Definition torch_topk (t : Tensor R) (k : nat) : result (Tensor R * Tensor Z) :=
  _ <- require ((1 <=? length (size t)) && (k <=? last (size t) 0)) RuntimeError ;;
  let len := last (size t) 0 in
  let sel := fun idx => nth (last idx 0) (topk_list Rgtb k (row t (removelast idx) len)) no_entry in
  Ok (mkTensor (removelast (size t) ++ [k]) (fun idx => snd (sel idx)),
      mkTensor (removelast (size t) ++ [k]) (fun idx => Z.of_nat (fst (sel idx)))).

(** ** The [einops.rearrange] patterns of the module

    Each pattern used by [forward] is written out as the index map it
    denotes; a shape that does not match the pattern raises. *)

Section Rearrange.
Variable A : Type.

(** ["n (q d) (j h) (i w) c -> n (q j i) d h w c"] with
      [q = j = i = n_win] (the window partition). *)
Definition rearrange_partition (n_win : nat) (x : Tensor A) : result (Tensor A) :=
    match size x with
    | [n; D; H; W; c] =>
        _ <- require ((0 <? n_win) && (D mod n_win =? 0) && (H mod n_win =? 0)
                      && (W mod n_win =? 0)) EinopsError ;;
        let d := D / n_win in
        let h := H / n_win in
        let w := W / n_win in
        Ok (mkTensor [n; n_win * n_win * n_win; d; h; w; c]
              (fun idx =>
                 match idx with
                 | [n_; p; d_; h_; w_; c_] =>
                     let q := p / (n_win * n_win) in
                     let j := (p / n_win) mod n_win in
                     let i := p mod n_win in
                     data x [n_; q * d + d_; j * h + h_; i * w + w_; c_]
                 | _ => data x []
                 end))
    | _ => Raise EinopsError
    end.

(** ['n p3 d h w c -> n p3 (d h w) c']. *)
Definition rearrange_flatten_pixels (x : Tensor A) : result (Tensor A) :=
    match size x with
    | [n; p3; d; h; w; c] =>
        Ok (mkTensor [n; p3; d * h * w; c]
              (fun idx =>
                 match idx with
                 | [n_; p; l; c_] =>
                     data x [n_; p; l / (h * w); (l / w) mod h; l mod w; c_]
                 | _ => data x []
                 end))
    | _ => Raise EinopsError
    end.

(** ['n p3 d h w c -> (n p3) c d h w']. *)
Definition rearrange_channel_first (x : Tensor A) : result (Tensor A) :=
    match size x with
    | [n; p3; d; h; w; c] =>
        Ok (mkTensor [n * p3; c; d; h; w]
              (fun idx =>
                 match idx with
                 | [b; c_; d_; h_; w_] => data x [b / p3; b mod p3; d_; h_; w_; c_]
                 | _ => data x []
                 end))
    | _ => Raise EinopsError
    end.

(** ['(n q j i) c d h w -> n (q j i) (d h w) c'] with
      [q = j = i = n_win]. *)
Definition rearrange_kv_pixels (n_win : nat) (x : Tensor A) : result (Tensor A) :=
    match size x with
    | [b; c; d; h; w] =>
        let p3 := n_win * n_win * n_win in
        _ <- require ((0 <? n_win) && (b mod p3 =? 0)) EinopsError ;;
        Ok (mkTensor [b / p3; p3; d * h * w; c]
              (fun idx =>
                 match idx with
                 | [n_; p; l; c_] =>
                     data x [n_ * p3 + p; c_; l / (h * w); (l / w) mod h; l mod w]
                 | _ => data x []
                 end))
    | _ => Raise EinopsError
    end.

(** ['n p3 k w3 (m c) -> (n p3) m c (k w3)'] with [m = num_heads]. *)
Definition rearrange_keys (m : nat) (x : Tensor A) : result (Tensor A) :=
    match size x with
    | [n; p3; k; w3; mc] =>
        _ <- require ((0 <? m) && (mc mod m =? 0)) EinopsError ;;
        let c := mc / m in
        Ok (mkTensor [n * p3; m; c; k * w3]
              (fun idx =>
                 match idx with
                 | [b; m_; c_; l] => data x [b / p3; b mod p3; l / w3; l mod w3; m_ * c + c_]
                 | _ => data x []
                 end))
    | _ => Raise EinopsError
    end.

(** ['n p3 k w3 (m c) -> (n p3) m (k w3) c'] with [m = num_heads]. *)
Definition rearrange_values (m : nat) (x : Tensor A) : result (Tensor A) :=
    match size x with
    | [n; p3; k; w3; mc] =>
        _ <- require ((0 <? m) && (mc mod m =? 0)) EinopsError ;;
        let c := mc / m in
        Ok (mkTensor [n * p3; m; k * w3; c]
              (fun idx =>
                 match idx with
                 | [b; m_; l; c_] => data x [b / p3; b mod p3; l / w3; l mod w3; m_ * c + c_]
                 | _ => data x []
                 end))
    | _ => Raise EinopsError
    end.

(** ['n p3 w3 (m c) -> (n p3) m w3 c'] with [m = num_heads]. *)
Definition rearrange_heads (m : nat) (x : Tensor A) : result (Tensor A) :=
    match size x with
    | [n; p3; w3; mc] =>
        _ <- require ((0 <? m) && (mc mod m =? 0)) EinopsError ;;
        let c := mc / m in
        Ok (mkTensor [n * p3; m; w3; c]
              (fun idx =>
                 match idx with
                 | [b; m_; l; c_] => data x [b / p3; b mod p3; l; m_ * c + c_]
                 | _ => data x []
                 end))
    | _ => Raise EinopsError
    end.

(** ['(n q j i) m (d h w) c -> n (q d) (j h) (i w) (m c)'] with
      [q = j = i = n_win] and [d], [h], [w] given (the reassembly of the
      windows). *)
Definition rearrange_reassemble (n_win d h w : nat) (x : Tensor A) : result (Tensor A) :=
    match size x with
    | [b; m; l; c] =>
        let p3 := n_win * n_win * n_win in
        _ <- require ((0 <? n_win) && (b mod p3 =? 0) && (l =? d * h * w)) EinopsError ;;
        Ok (mkTensor [b / p3; n_win * d; n_win * h; n_win * w; m * c]
              (fun idx =>
                 match idx with
                 | [n_; dd; hh; ww; cc] =>
                     let q := dd / d in
                     let j := hh / h in
                     let i := ww / w in
                     data x [n_ * p3 + ((q * n_win + j) * n_win + i);
                             cc / c;
                             ((dd mod d) * h + hh mod h) * w + ww mod w;
                             cc mod c]
                 | _ => data x []
                 end))
    | _ => Raise EinopsError
    end.
End Rearrange.

(** ** Layers *)

(** The 2-D pooling layers of [torch.nn] that the module may install as
    its key/value down-sampler.  They belong to PyTorch, not to this
    repository, and are taken as given. *)
Record Pooling : Type := mkPooling {
  AdaptiveAvgPool2d : nat -> Tensor R -> result (Tensor R);
  AdaptiveMaxPool2d : nat -> Tensor R -> result (Tensor R);
  MaxPool2d : nat -> Tensor R -> result (Tensor R);
  AvgPool2d : nat -> Tensor R -> result (Tensor R)
}.

Inductive Layer : Type :=
| Identity
| Linear (in_features out_features : nat) (p : LinearParams)
| Pool2d (f : Tensor R -> result (Tensor R)).

Definition call (l : Layer) (x : Tensor R) : result (Tensor R) :=
  match l with
  | Identity => Ok x
  | Linear i o p => linear i o p x
  | Pool2d f => f x
  end.

(** [qk_scale or qk_dim ** -0.5]: a scale that is [None] or zero is
    replaced by the default, and Python refuses to raise zero to a
    negative power. *)
Definition scale_or_default (qk_scale : option R) (qk_dim : nat) : result R :=
  let default :=
    if qk_dim =? 0 then Raise ZeroDivisionError else Ok (/ sqrt (INR qk_dim))%R in
  match qk_scale with
  | Some s => if Req_dec_T s 0%R then default else Ok s
  | None => default
  end.

(** [a or b] on an optional integer. *)
Definition or_default (a : option nat) (b : nat) : nat :=
  match a with
  | Some v => if v =? 0 then b else v
  | None => b
  end.

(** A value of a returned Python tuple. *)
Inductive pyvalue : Type :=
| FloatTensor (t : Tensor R)
| LongTensor (t : Tensor Z).

(** ** class TopkRouting *)

Module TopkRouting.

Record t : Type := mk {
  topk : nat;
  qk_dim : nat;
  scale : R;
  diff_routing : bool;
  emb : Layer
}.

(** [__init__(self, qk_dim, topk, qk_scale=None, param_routing=False,
    diff_routing=False)]; [emb_params] are the weights of the optional
    [nn.Linear(qk_dim, qk_dim)]. *)
Definition init (qk_dim topk : nat) (qk_scale : option R)
    (param_routing diff_routing : bool) (emb_params : LinearParams) : result t :=
  scale <- scale_or_default qk_scale qk_dim ;;
  Ok (mk topk qk_dim scale diff_routing
        (if param_routing then Linear qk_dim qk_dim emb_params else Identity)).

(** [forward(self, query, key)].  [detach] only cuts the gradient and
    leaves the values as they are; [logits] is the part of [forward] that
    computes [attn_logit]. *)
Definition logits (self : t) (query key : Tensor R) : result (Tensor R) :=
  query_hat <- call (emb self) query ;;
  key_hat <- call (emb self) key ;;
  key_t <- transpose_last2 key_hat ;;
  matmul (mul_scalar query_hat (scale self)) key_t.

Definition forward (self : t) (query key : Tensor R) : result (Tensor R * Tensor Z) :=
  attn_logit <- logits self query key ;;
  ' (topk_attn_logit, topk_index) <- torch_topk attn_logit (topk self) ;;
  r_weight <- softmax topk_attn_logit ;;
  Ok (r_weight, topk_index).

End TopkRouting.

(** ** class KVGather *)

Module KVGather.

Record t : Type := mk { mul_weight : string }.

Definition init (mul_weight : string) : result t :=
  _ <- assert (existsb (String.eqb mul_weight) ["none"; "soft"; "hard"]%string) ;;
  Ok (mk mul_weight).

Definition forward (self : t) (r_idx : Tensor Z) (r_weight : Tensor R) (kv : Tensor R)
  : result (Tensor R) :=
  match size kv with
  | [n; p2; w2; c_kv] =>
      topk <- match rev (size r_idx) with
              | k :: _ => Ok k
              | [] => Raise IndexError
              end ;;
      kv_v <- view [n; 1; p2; w2; c_kv] kv ;;
      kv_e <- expand [None; Some p2; None; None; None] kv_v ;;
      idx_v <- view [n; p2; topk; 1; 1] r_idx ;;
      idx_e <- expand [None; None; None; Some w2; Some c_kv] idx_v ;;
      topk_kv <- gather kv_e 2 idx_e ;;
      if String.eqb (mul_weight self) "soft" then
        w_v <- view [n; p2; topk; 1; 1] r_weight ;;
        mul w_v topk_kv
      else if String.eqb (mul_weight self) "hard" then
        Raise NotImplementedError
      else Ok topk_kv
  | _ => Raise ValueError
  end.

End KVGather.

(** ** class QKVLinear *)

Module QKVLinear.

Record t : Type := mk {
  dim : nat;
  qk_dim : nat;
  qkv : LinearParams
}.

Definition init (dim qk_dim : nat) (p : LinearParams) : t := mk dim qk_dim p.

Definition forward (self : t) (x : Tensor R)
  : result (Tensor R * Tensor R * Tensor R * Tensor R) :=
  y <- linear (dim self) (qk_dim self + qk_dim self + dim self) (qkv self) x ;;
  parts <- split [qk_dim self; qk_dim self; dim self] y ;;
  match parts with
  | [q; k; v] => kv <- cat k v ;; Ok (q, kv, k, v)
  | _ => Raise ValueError
  end.

End QKVLinear.

(** ** class BiLevelRoutingAttention *)

Module BiLevelRoutingAttention.

(** The keyword arguments of [__init__]. *)
Module Args.
Record t : Type := mk {
  topk : nat;
  dim : nat;
  num_heads : nat;
  n_win : nat;
  qk_dim : option nat;
  qk_scale : option R;
  kv_per_win : option nat;
  kv_downsample_ratio : option nat;
  kv_downsample_kernel : option nat;
  kv_downsample_mode : string;
  param_attention : string;
  param_routing : bool;
  diff_routing : bool;
  soft_routing : bool;
  side_dwconv : nat;
  auto_pad : bool
}.
End Args.

(** The learned weights of the linear layers the constructor may
    create. *)
Record Weights : Type := mkWeights {
  qkv_weights : LinearParams;
  wo_weights : LinearParams;
  emb_weights : LinearParams
}.

Record t : Type := mk {
  dim : nat;
  n_win : nat;
  num_heads : nat;
  qk_dim : nat;
  scale : R;
  topk : nat;
  param_routing : bool;
  diff_routing : bool;
  soft_routing : bool;
  router : TopkRouting.t;
  kv_gather : KVGather.t;
  param_attention : string;
  qkv : QKVLinear.t;
  wo : Layer;
  kv_downsample_mode : string;
  kv_per_win : option nat;
  kv_downsample_ratio : option nat;
  kv_downsample_kenel : option nat;
  kv_down : Layer;
  auto_pad : bool
}.

Section WithTorch.
Variable nn : Pooling.

(** The [if]/[elif] chain of [__init__] choosing [self.kv_down].  Its
    last branch formats its message with [self.kv_downsaple_mode], an
    attribute that was never set, so evaluating the message raises
    [AttributeError] before the [ValueError] is built. *)
Definition init_kv_down (mode : string) (kv_per_win kv_downsample_ratio : option nat)
  : result Layer :=
  if String.eqb mode "ada_avgpool" then
    match kv_per_win with
    | Some k => Ok (Pool2d (AdaptiveAvgPool2d nn k))
    | None => Raise AssertionError
    end
  else if String.eqb mode "ada_maxpool" then
    match kv_per_win with
    | Some k => Ok (Pool2d (AdaptiveMaxPool2d nn k))
    | None => Raise AssertionError
    end
  else if String.eqb mode "maxpool" then
    match kv_downsample_ratio with
    | Some r => Ok (if 1 <? r then Pool2d (MaxPool2d nn r) else Identity)
    | None => Raise AssertionError
    end
  else if String.eqb mode "avgpool" then
    match kv_downsample_ratio with
    | Some r => Ok (if 1 <? r then Pool2d (AvgPool2d nn r) else Identity)
    | None => Raise AssertionError
    end
  else if String.eqb mode "identity" then Ok Identity
  else if String.eqb mode "fracpool" then Raise NotImplementedError
  else if String.eqb mode "conv" then Raise NotImplementedError
  else Raise AttributeError.

Definition init (a : Args.t) (wts : Weights) : result t :=
  let dim := Args.dim a in
  let qk_dim := or_default (Args.qk_dim a) dim in
  r1 <- py_mod qk_dim (Args.num_heads a) ;;
  r2 <- py_mod dim (Args.num_heads a) ;;
  _ <- assert ((r1 =? 0) && (r2 =? 0)) ;;
  scale <- scale_or_default (Args.qk_scale a) qk_dim ;;
  _ <- assert (negb (Args.param_routing a && negb (Args.diff_routing a))) ;;
  router <- TopkRouting.init qk_dim (Args.topk a) (Some scale)
              (Args.param_routing a) (Args.diff_routing a) (emb_weights wts) ;;
  let mul_weight :=
    if Args.soft_routing a then "soft"%string
    else if Args.diff_routing a then "hard"%string
    else "none"%string in
  kv_gather <- KVGather.init mul_weight ;;
  ' (qkv, wo) <-
    (if String.eqb (Args.param_attention a) "qkvo" then
       Ok (QKVLinear.init dim qk_dim (qkv_weights wts), Linear dim dim (wo_weights wts))
     else if String.eqb (Args.param_attention a) "qkv" then
       Ok (QKVLinear.init dim qk_dim (qkv_weights wts), Identity)
     else Raise ValueError) ;;
  kv_down <- init_kv_down (Args.kv_downsample_mode a) (Args.kv_per_win a)
               (Args.kv_downsample_ratio a) ;;
  Ok (mk dim (Args.n_win a) (Args.num_heads a) qk_dim scale (Args.topk a)
        (Args.param_routing a) (Args.diff_routing a) (Args.soft_routing a)
        router kv_gather (Args.param_attention a) qkv wo
        (Args.kv_downsample_mode a) (Args.kv_per_win a) (Args.kv_downsample_ratio a)
        (Args.kv_downsample_kernel a) kv_down (Args.auto_pad a)).

End WithTorch.

(** [(n_win - extent % n_win) % n_win]. *)
Definition pad_amount (n_win extent : nat) : result nat :=
  r <- py_mod extent n_win ;;
  py_mod (n_win - r) n_win.

(** What the padding step hands to the rest of [forward]: the (padded)
    input, its extents [D], [H], [W], and, under [auto_pad], the values
    [pad_r], [pad_b], [H_in], [W_in] that the crop reads. *)
Record Padded : Type := mkPadded {
  padded_x : Tensor R;
  ext_D : nat;
  ext_H : nat;
  ext_W : nat;
  crop : option (nat * nat * nat * nat)
}.

(** The first statement of [forward]: padding under [auto_pad], the
    divisibility assertion otherwise.  In the call of [F.pad] the pair
    for the last spatial axis receives [pad_d], the middle one [pad_r]
    and the first one [pad_b], as the source writes them. *)
Definition pad_input (self : t) (x : Tensor R) : result Padded :=
  if auto_pad self then
    match size x with
    | [N; D_in; H_in; W_in; C] =>
        pad_d <- pad_amount (n_win self) D_in ;;
        pad_r <- pad_amount (n_win self) W_in ;;
        pad_b <- pad_amount (n_win self) H_in ;;
        x' <- F_pad x [(0, 0); (0, pad_d); (0, pad_r); (0, pad_b)] ;;
        match size x' with
        | [_; D; H; W; _] => Ok (mkPadded x' D H W (Some (pad_r, pad_b, H_in, W_in)))
        | _ => Raise ValueError
        end
    | _ => Raise ValueError
    end
  else
    match size x with
    | [N; D; H; W; C] =>
        rd <- py_mod D (n_win self) ;;
        rh <- py_mod H (n_win self) ;;
        rw <- py_mod W (n_win self) ;;
        _ <- assert ((rd =? 0) && (rh =? 0) && (rw =? 0)) ;;
        Ok (mkPadded x D H W None)
    | _ => Raise ValueError
    end.

(** The routing, gathering and attention statements of [forward]
    (from the call of the router to [out = attn_weight @ v_pix_sel]). *)
Definition routed_attention (self : t) (q_win k_win q_pix kv_pix : Tensor R)
  : result (Tensor R * Tensor R * Tensor Z * Tensor R) :=
  ' (r_weight, r_idx) <- TopkRouting.forward (router self) q_win k_win ;;
  kv_pix_sel <- KVGather.forward (kv_gather self) r_idx r_weight kv_pix ;;
  parts <- split [qk_dim self; dim self] kv_pix_sel ;;
  match parts with
  | [k_pix_sel; v_pix_sel] =>
      k_pix_sel <- rearrange_keys (num_heads self) k_pix_sel ;;
      v_pix_sel <- rearrange_values (num_heads self) v_pix_sel ;;
      q_pix <- rearrange_heads (num_heads self) q_pix ;;
      attn_weight <- matmul (mul_scalar q_pix (scale self)) k_pix_sel ;;
      attn_weight <- softmax attn_weight ;;
      out <- matmul attn_weight v_pix_sel ;;
      Ok (out, r_weight, r_idx, attn_weight)
  | _ => Raise ValueError
  end.

(** The crop at the end of [forward]: [out[:, :H_in, :W_in, :]] when
    [auto_pad] is set and [pad_r > 0 or pad_b > 0]. *)
Definition crop_output (c : option (nat * nat * nat * nat)) (out : Tensor R)
  : result (Tensor R) :=
  match c with
  | Some (pad_r, pad_b, H_in, W_in) =>
      if (0 <? pad_r) || (0 <? pad_b)
      then getitem_slices [None; Some H_in; Some W_in; None] out
      else Ok out
  | None => Ok out
  end.

Definition forward (self : t) (x : Tensor R) (ret_attn_mask : bool)
  : result (list pyvalue) :=
  pd <- pad_input self x ;;
  x <- rearrange_partition (n_win self) (padded_x pd) ;;
  ' (q, kv, k, v) <- QKVLinear.forward (qkv self) x ;;
  q_pix <- rearrange_flatten_pixels q ;;
  kv_cf <- rearrange_channel_first kv ;;
  kv_pix <- call (kv_down self) kv_cf ;;
  kv_pix <- rearrange_kv_pixels (n_win self) kv_pix ;;
  q_win <- mean_234 q ;;
  k_part <- slice_last (qk_dim self) kv ;;
  k_win <- mean_234 k_part ;;
  ' (out, r_weight, r_idx, attn_weight) <- routed_attention self q_win k_win q_pix kv_pix ;;
  out <- rearrange_reassemble (n_win self) (ext_D pd / n_win self) (ext_H pd / n_win self)
           (ext_W pd / n_win self) out ;;
  out <- call (wo self) out ;;
  out <- crop_output (crop pd) out ;;
  if ret_attn_mask then
    Ok [FloatTensor out; FloatTensor r_weight; LongTensor r_idx; FloatTensor attn_weight;
        FloatTensor q; FloatTensor k; FloatTensor v]
  else
    Ok [FloatTensor out; FloatTensor q; FloatTensor k; FloatTensor v].

End BiLevelRoutingAttention.

(** * Reference definitions and example inputs *)

Definition zero_linear : LinearParams := mkLinear (fun _ _ => 0%R) (fun _ => 0%R).

Definition zero_weights : BiLevelRoutingAttention.Weights :=
  BiLevelRoutingAttention.mkWeights zero_linear zero_linear zero_linear.

(** A pooling library whose layers reject their operand (PyTorch's 2-D
    pooling layers accept 3-D and 4-D tensors only). *)
Definition pool_rejects : Pooling :=
  mkPooling (fun _ _ => Raise RuntimeError) (fun _ _ => Raise RuntimeError)
            (fun _ _ => Raise RuntimeError) (fun _ _ => Raise RuntimeError).

(** The configuration of the end-to-end scenario: [topk=4], [dim=32],
    [num_heads=4], [n_win=2], [qk_dim=32], the other arguments at their
    defaults. *)
Definition scenario_args : BiLevelRoutingAttention.Args.t :=
  BiLevelRoutingAttention.Args.mk 4 32 4 2 (Some 32) None (Some 4) (Some 4) None
    "identity" "qkvo" false false false 3 false.

Definition with_routing (param_routing diff_routing soft_routing : bool)
    (a : BiLevelRoutingAttention.Args.t) : BiLevelRoutingAttention.Args.t :=
  let 'BiLevelRoutingAttention.Args.mk tk d nh nw qd qs kpw kdr kdk mode pa _ _ _ sd ap := a in
  BiLevelRoutingAttention.Args.mk tk d nh nw qd qs kpw kdr kdk mode pa
    param_routing diff_routing soft_routing sd ap.

Definition with_kv_downsample_mode (mode : string)
    (a : BiLevelRoutingAttention.Args.t) : BiLevelRoutingAttention.Args.t :=
  let 'BiLevelRoutingAttention.Args.mk tk d nh nw qd qs kpw kdr kdk _ pa pr dr sr sd ap := a in
  BiLevelRoutingAttention.Args.mk tk d nh nw qd qs kpw kdr kdk mode pa pr dr sr sd ap.

Definition with_auto_pad (ap : bool)
    (a : BiLevelRoutingAttention.Args.t) : BiLevelRoutingAttention.Args.t :=
  let 'BiLevelRoutingAttention.Args.mk tk d nh nw qd qs kpw kdr kdk mode pa pr dr sr sd _ := a in
  BiLevelRoutingAttention.Args.mk tk d nh nw qd qs kpw kdr kdk mode pa pr dr sr sd ap.

Definition with_param_attention (pa : string)
    (a : BiLevelRoutingAttention.Args.t) : BiLevelRoutingAttention.Args.t :=
  let 'BiLevelRoutingAttention.Args.mk tk d nh nw qd qs kpw kdr kdk mode _ pr dr sr sd ap := a in
  BiLevelRoutingAttention.Args.mk tk d nh nw qd qs kpw kdr kdk mode pa pr dr sr sd ap.

Definition iota_tensor (sh : list nat) : Tensor nat := mkTensor sh (ravel sh).

(** A router and inputs for three windows of two channels. *)
Definition example_router : TopkRouting.t :=
  TopkRouting.mk 2 2 (/ sqrt (INR 2))%R false Identity.

Definition example_summaries : Tensor R :=
  mkTensor [1; 3; 2] (fun idx => INR (ravel [1; 3; 2] idx)).

Definition example_kv : Tensor R :=
  mkTensor [1; 2; 2; 3] (fun idx => INR (ravel [1; 2; 2; 3] idx)).

Definition example_r_idx : Tensor Z := mkTensor [1; 2; 1] (fun _ => 1%Z).

Definition example_r_weight : Tensor R := mkTensor [1; 2; 1] (fun _ => 1%R).

(** The output of [routed_attention] at position [(b, h, x, c)] as a
    function of the gathered key/value tensor [g] (softmax attention of
    a query pixel over the [k * w3] gathered pixels of its window). *)
Definition gathered_attention (s : R) (m qk dm : nat) (q_pix : Tensor R)
    (g : list nat -> R) (p k w3 : nat) (b h x c : nat) : R :=
  let logit := fun l =>
    Rsum (qk / m) (fun z =>
      (data q_pix [b / p; b mod p; x; h * (qk / m) + z]%nat * s *
       g [b / p; b mod p; l / w3; l mod w3; h * (qk / m) + z]%nat)%R) in
  Rsum (k * w3) (fun l =>
    (exp (logit l) / Rsum (k * w3) (fun l' => exp (logit l')) *
     g [b / p; b mod p; l / w3; l mod w3; qk + (h * (dm / m) + c)]%nat)%R).

(** The reference of the comparison, written after the words of the
    specification: unrestricted windowed attention, in which the pixels
    of every query window attend to all pixels of all [p'] windows of the
    pooled key/value tensor, taken in their natural order. *)
Definition full_attention (s : R) (m qk dm : nat) (q_pix kv_pix : Tensor R) : Tensor R :=
  match size q_pix, size kv_pix with
  | [n; p; w3q; _], [_; p'; w3; _] =>
      mkTensor [n * p; m; w3q; dm / m]
        (fun idx =>
           match idx with
           | [b; h; x; c] =>
               let logit := fun l =>
                 Rsum (qk / m) (fun z =>
                   (data q_pix [b / p; b mod p; x; h * (qk / m) + z]%nat * s *
                    data kv_pix [b / p; l / w3; l mod w3; h * (qk / m) + z]%nat)%R) in
               Rsum (p' * w3) (fun l =>
                 (exp (logit l) / Rsum (p' * w3) (fun l' => exp (logit l')) *
                  data kv_pix [b / p; l / w3; l mod w3; qk + (h * (dm / m) + c)]%nat)%R)
           | _ => 0%R
           end)
  | _, _ => mkTensor [] (fun _ => 0%R)
  end.

Definition unit_scale : R := (/ sqrt (INR 1))%R.

(** The module built by [BiLevelRoutingAttention(topk=8, dim=1,
    num_heads=1, n_win=2, param_attention='qkv')] with [soft_routing]
    as given: one channel, one head and all [2 * 2 * 2] windows
    selected. *)
Definition all_windows_args (soft_routing : bool) : BiLevelRoutingAttention.Args.t :=
  BiLevelRoutingAttention.Args.mk 8 1 1 2 None None (Some 4) (Some 4) None
    "identity" "qkv" false false soft_routing 3 false.

Definition all_windows_module (soft_routing : bool) : BiLevelRoutingAttention.t :=
  BiLevelRoutingAttention.mk 1 2 1 1 unit_scale 8 false false soft_routing
    (TopkRouting.mk 8 1 unit_scale false Identity)
    (KVGather.mk (if soft_routing then "soft" else "none")) "qkv"
    (QKVLinear.init 1 1 zero_linear) Identity "identity" (Some 4) (Some 4) None
    Identity false.

Definition zeros (sh : list nat) : Tensor R := mkTensor sh (fun _ => 0%R).

(** Eight windows of one pixel whose key channel is 0 and whose value
    channel is 1. *)
Definition unit_values : Tensor R :=
  mkTensor [1; 8; 1; 2]
    (fun idx => match idx with
                | [_; _; _; ch] => if ch =? 0 then 0%R else 1%R
                | _ => 0%R
                end).

Definition zero_summaries : Tensor R := zeros [1; 8; 1].

Definition zero_queries : Tensor R := zeros [1; 8; 1; 1].

(** What the constructor guarantees about the module it returns. *)
Definition well_formed (self : BiLevelRoutingAttention.t) : Prop :=
  0 < BiLevelRoutingAttention.num_heads self /\
  BiLevelRoutingAttention.qk_dim self mod BiLevelRoutingAttention.num_heads self = 0 /\
  BiLevelRoutingAttention.dim self mod BiLevelRoutingAttention.num_heads self = 0 /\
  QKVLinear.dim (BiLevelRoutingAttention.qkv self) = BiLevelRoutingAttention.dim self /\
  QKVLinear.qk_dim (BiLevelRoutingAttention.qkv self) = BiLevelRoutingAttention.qk_dim self /\
  TopkRouting.topk (BiLevelRoutingAttention.router self) = BiLevelRoutingAttention.topk self /\
  (TopkRouting.emb (BiLevelRoutingAttention.router self) = Identity \/
   exists th, TopkRouting.emb (BiLevelRoutingAttention.router self)
              = Linear (BiLevelRoutingAttention.qk_dim self)
                       (BiLevelRoutingAttention.qk_dim self) th) /\
  (BiLevelRoutingAttention.wo self = Identity \/
   exists th, BiLevelRoutingAttention.wo self
              = Linear (BiLevelRoutingAttention.dim self)
                       (BiLevelRoutingAttention.dim self) th).

(** The shape of the output after the crop at the end of [forward]. *)
Definition cropped_size (c : option (nat * nat * nat * nat)) (N D H W C : nat) : list nat :=
  match c with
  | Some (pad_r, pad_b, H_in, W_in) =>
      if (0 <? pad_r) || (0 <? pad_b)
      then [N; Nat.min H_in D; Nat.min W_in H; W; C]
      else [N; D; H; W; C]
  | None => [N; D; H; W; C]
  end.

(** The same module with another weighting mode in its gatherer. *)
Definition with_mul_weight (w : string) (self : BiLevelRoutingAttention.t)
  : BiLevelRoutingAttention.t :=
  BiLevelRoutingAttention.mk
    (BiLevelRoutingAttention.dim self) (BiLevelRoutingAttention.n_win self)
    (BiLevelRoutingAttention.num_heads self) (BiLevelRoutingAttention.qk_dim self)
    (BiLevelRoutingAttention.scale self) (BiLevelRoutingAttention.topk self)
    (BiLevelRoutingAttention.param_routing self) (BiLevelRoutingAttention.diff_routing self)
    (BiLevelRoutingAttention.soft_routing self) (BiLevelRoutingAttention.router self)
    (KVGather.mk w)
    (BiLevelRoutingAttention.param_attention self) (BiLevelRoutingAttention.qkv self)
    (BiLevelRoutingAttention.wo self) (BiLevelRoutingAttention.kv_downsample_mode self)
    (BiLevelRoutingAttention.kv_per_win self) (BiLevelRoutingAttention.kv_downsample_ratio self)
    (BiLevelRoutingAttention.kv_downsample_kenel self) (BiLevelRoutingAttention.kv_down self)
    (BiLevelRoutingAttention.auto_pad self).

Definition scenario_scale : R := (/ sqrt (INR 32))%R.

(** The module the constructor returns for [scenario_args] with
    [diff_routing] and [auto_pad] as given. *)
Definition scenario_module (diff_routing auto_pad : bool) : BiLevelRoutingAttention.t :=
  BiLevelRoutingAttention.mk 32 2 4 32 scenario_scale 4 false diff_routing false
    (TopkRouting.mk 4 32 scenario_scale diff_routing Identity)
    (KVGather.mk (if diff_routing then "hard" else "none")) "qkvo"
    (QKVLinear.init 32 32 zero_linear) (Linear 32 32 zero_linear)
    "identity" (Some 4) (Some 4) None Identity auto_pad.

Definition scenario_input : Tensor R := zeros [1; 16; 16; 16; 32].

Definition odd_cube_input : Tensor R := zeros [1; 15; 15; 15; 32].

Definition odd_depth_input : Tensor R := zeros [1; 15; 16; 16; 32].

Definition example_projection : QKVLinear.t := QKVLinear.init 3 2 zero_linear.

Definition example_activation : Tensor R := zeros [2; 3].

(** The arguments [BiLevelRoutingAttention.__init__] accepts, read off
    its assertions and its [if]/[elif] chains. *)
Definition accepted_args (a : BiLevelRoutingAttention.Args.t) : Prop :=
  let qk := or_default (BiLevelRoutingAttention.Args.qk_dim a)
                       (BiLevelRoutingAttention.Args.dim a) in
  let mode := BiLevelRoutingAttention.Args.kv_downsample_mode a in
  BiLevelRoutingAttention.Args.num_heads a <> 0 /\
  qk mod BiLevelRoutingAttention.Args.num_heads a = 0 /\
  BiLevelRoutingAttention.Args.dim a mod BiLevelRoutingAttention.Args.num_heads a = 0 /\
  ((exists s, BiLevelRoutingAttention.Args.qk_scale a = Some s /\ s <> 0%R) \/ qk <> 0) /\
  (BiLevelRoutingAttention.Args.param_routing a = true ->
   BiLevelRoutingAttention.Args.diff_routing a = true) /\
  (BiLevelRoutingAttention.Args.param_attention a = "qkvo"%string \/
   BiLevelRoutingAttention.Args.param_attention a = "qkv"%string) /\
  (((mode = "ada_avgpool"%string \/ mode = "ada_maxpool"%string) /\
    BiLevelRoutingAttention.Args.kv_per_win a <> None) \/
   ((mode = "maxpool"%string \/ mode = "avgpool"%string) /\
    BiLevelRoutingAttention.Args.kv_downsample_ratio a <> None) \/
   mode = "identity"%string).

(** The scenario with [kv_downsample_mode='avgpool'] and
    [kv_downsample_ratio=1], and the module built for it. *)
Definition pool_one_args : BiLevelRoutingAttention.Args.t :=
  BiLevelRoutingAttention.Args.mk 4 32 4 2 (Some 32) None (Some 4) (Some 1) None
    "avgpool" "qkvo" false false false 3 false.

Definition pool_one_module : BiLevelRoutingAttention.t :=
  BiLevelRoutingAttention.mk 32 2 4 32 scenario_scale 4 false false false
    (TopkRouting.mk 4 32 scenario_scale false Identity)
    (KVGather.mk "none") "qkvo"
    (QKVLinear.init 32 32 zero_linear) (Linear 32 32 zero_linear)
    "avgpool" (Some 4) (Some 1) None Identity false.

Definition greedy_router : TopkRouting.t :=
  TopkRouting.mk 4 2 (/ sqrt (INR 2))%R false Identity.

Definition single_router : TopkRouting.t :=
  TopkRouting.mk 1 2 (/ sqrt (INR 2))%R false Identity.

Definition example_window_kv : Tensor R :=
  mkTensor [1; 3; 2; 3] (fun idx => INR (ravel [1; 3; 2; 3] idx)).

(** An entry is not below a later one. *)
Definition ge_value (a b : nat * R) : Prop := (snd b <= snd a)%R.

Definition stray_r_idx : Tensor Z := mkTensor [1; 2; 1] (fun _ => 2%Z).

(** The configuration of the scenario with [topk = 9], one more than
    the eight windows of [n_win = 2]. *)
Definition greedy_args : BiLevelRoutingAttention.Args.t :=
  BiLevelRoutingAttention.Args.mk 9 32 4 2 (Some 32) None (Some 4) (Some 4) None
    "identity" "qkvo" false false false 3 false.

Definition greedy_module : BiLevelRoutingAttention.t :=
  BiLevelRoutingAttention.mk 32 2 4 32 scenario_scale 9 false false false
    (TopkRouting.mk 9 32 scenario_scale false Identity)
    (KVGather.mk "none") "qkvo"
    (QKVLinear.init 32 32 zero_linear) (Linear 32 32 zero_linear)
    "identity" (Some 4) (Some 4) None Identity false.

(** An input with 8 channels, for a module of [dim = 32]. *)
Definition narrow_input : Tensor R := zeros [1; 16; 16; 16; 8].

(** An input of one pixel per window and one channel, for the module
    that attends to all eight windows. *)
Definition unit_cube_input : Tensor R := zeros [1; 2; 2; 2; 1].

(** The module of the scenario with [n_win = 0]: the constructor does
    not check the window-grid size. *)
Definition windowless_module : BiLevelRoutingAttention.t :=
  BiLevelRoutingAttention.mk 32 0 4 32 scenario_scale 4 false false false
    (TopkRouting.mk 4 32 scenario_scale false Identity)
    (KVGather.mk "none") "qkvo"
    (QKVLinear.init 32 32 zero_linear) (Linear 32 32 zero_linear)
    "identity" (Some 4) (Some 4) None Identity false.

(** A module of one head and one channel whose router selects a
    single window. *)
Definition single_window_module : BiLevelRoutingAttention.t :=
  BiLevelRoutingAttention.mk 1 2 1 1 unit_scale 1 false false false
    (TopkRouting.mk 1 1 unit_scale false Identity)
    (KVGather.mk "none") "qkv"
    (QKVLinear.init 1 1 zero_linear) Identity "identity" (Some 4) (Some 4) None
    Identity false.

(** Window summaries for two windows: every query summary is 1, the
    key summary is 1 for window 0 and 0 for window 1, so that every
    query window has its largest logit at window 0. *)
Definition unit_summaries : Tensor R := mkTensor [1; 2; 1] (fun _ => 1%R).

Definition first_window_keys : Tensor R :=
  mkTensor [1; 2; 1]
    (fun idx => match idx with
                | [_; 0; _] => 1%R
                | _ => 0%R
                end).

Definition two_window_queries : Tensor R := zeros [1; 2; 1; 1].

(** Two key/value tensors for two windows of one pixel that differ on
    window 1 only. *)
Definition two_window_kv : Tensor R := zeros [1; 2; 1; 2].

Definition two_window_kv_changed : Tensor R :=
  mkTensor [1; 2; 1; 2]
    (fun idx => match idx with
                | [_; S _; _; _] => 1%R
                | _ => 0%R
                end).

(** * Properties *)

(** ** The error monad *)

Lemma bind_Ok {A B} (m : result A) (k : A -> result B) (b : B) :
  bind m k = Ok b -> exists a, m = Ok a /\ k a = Ok b.
Proof.
  destruct m as [a|e]; simpl; intros H; [eauto | discriminate].
Qed.

Lemma assert_Ok (c : bool) (u : unit) : assert c = Ok u -> c = true.
Proof. destruct c; simpl; [reflexivity | discriminate]. Qed.

(** ** Construction *)

(** The scale handed to the router by the attention module passes the
    router's own [qk_scale or ...] unchanged. *)
Lemma scale_or_default_again (q : option R) (d : nat) (s : R) :
  scale_or_default q d = Ok s -> scale_or_default (Some s) d = Ok s.
Proof.
  unfold scale_or_default. intros H.
  destruct (Req_dec_T s 0) as [Hz|Hz]; [|reflexivity].
  destruct q as [s'|]; [destruct (Req_dec_T s' 0) as [Hz'|Hz']|]; try exact H.
  congruence.
Qed.

Lemma router_init_Ok (q : option R) (d k : nat) (s : R) (pr dr : bool) (p : LinearParams) :
  scale_or_default q d = Ok s ->
  TopkRouting.init d k (Some s) pr dr p =
  Ok (TopkRouting.mk k d s dr (if pr then Linear d d p else Identity)).
Proof.
  intros H. unfold TopkRouting.init.
  rewrite (scale_or_default_again _ _ H). reflexivity.
Qed.

(** Evaluation of the constructor on concrete arguments. *)
Ltac eval_init :=
  unfold BiLevelRoutingAttention.init;
  cbn -[TopkRouting.init INR sqrt Rinv];
  try (rewrite (@router_init_Ok None) by reflexivity);
  cbn -[INR sqrt Rinv];
  try reflexivity.

(** C6, the part that fails: the constructor of the router has no guard
    on its flags, so [TopkRouting(qk_dim=8, topk=2, param_routing=True,
    diff_routing=False)] is built without any error. *)
Lemma C6_router_constructs :
  exists r, TopkRouting.init 8 2 None true false zero_linear = Ok r.
Proof. eexists. reflexivity. Qed.

(** C6, as amended: constructing the attention module
    [BiLevelRoutingAttention] with [param_routing=True] and
    [diff_routing=False] always fails inside the constructor, with the
    [AssertionError] of its guard (or with the [ZeroDivisionError] of an
    earlier statement when [num_heads] or the query/key width is zero). *)
Theorem C6_attention_init_rejects :
  forall (nn : Pooling) (a : BiLevelRoutingAttention.Args.t)
         (wts : BiLevelRoutingAttention.Weights),
    BiLevelRoutingAttention.Args.param_routing a = true ->
    BiLevelRoutingAttention.Args.diff_routing a = false ->
    exists e, BiLevelRoutingAttention.init nn a wts = Raise e /\
              (e = AssertionError \/ e = ZeroDivisionError).
Proof.
  intros nn a wts Hp Hd.
  unfold BiLevelRoutingAttention.init.
  rewrite Hp, Hd.
  unfold py_mod.
  destruct (BiLevelRoutingAttention.Args.num_heads a =? 0); simpl; [eauto|].
  match goal with |- context [assert ?c] => destruct c end; simpl; [|eauto].
  destruct (scale_or_default _ _) as [s|e] eqn:Hs; simpl; [eauto|].
  exists e. split; [reflexivity|].
  unfold scale_or_default in Hs.
  destruct (BiLevelRoutingAttention.Args.qk_scale a) as [s|];
    [destruct (Req_dec_T s 0)|];
    try destruct (_ =? 0); right; congruence.
Qed.

Lemma C6_attention_init_rejects_witness :
  exists e, BiLevelRoutingAttention.init pool_rejects
              (with_routing true false false scenario_args) zero_weights = Raise e /\
            (e = AssertionError \/ e = ZeroDivisionError).
Proof.
  apply C6_attention_init_rejects; reflexivity.
Defined.

(** With the other arguments valid the error is the guard's
    [AssertionError]. *)
Lemma scenario_param_routing_rejected :
  BiLevelRoutingAttention.init pool_rejects
    (with_routing true false false scenario_args) zero_weights = Raise AssertionError.
Proof. reflexivity. Qed.

(** C7 at its failing input: an unrecognised [kv_downsample_mode]
    ("pool") with every other argument valid.  The constructor reaches
    the last [else] of the chain and raises [AttributeError] while
    formatting the message of the intended [ValueError]. *)
Theorem C7_unknown_downsample_mode_error :
  BiLevelRoutingAttention.init pool_rejects
    (with_kv_downsample_mode "pool" scenario_args) zero_weights = Raise AttributeError.
Proof. eval_init. Qed.

(** The other configuration errors of the constructor. *)
Lemma scenario_invalid_param_attention :
  BiLevelRoutingAttention.init pool_rejects
    (with_param_attention "invalid" scenario_args) zero_weights = Raise ValueError.
Proof. eval_init. Qed.

Lemma scenario_unimplemented_downsample_modes :
  BiLevelRoutingAttention.init pool_rejects
    (with_kv_downsample_mode "conv" scenario_args) zero_weights = Raise NotImplementedError /\
  BiLevelRoutingAttention.init pool_rejects
    (with_kv_downsample_mode "fracpool" scenario_args) zero_weights = Raise NotImplementedError.
Proof. split; eval_init. Qed.

(** An unrecognised [kv_downsample_mode] never gives [ValueError]: when
    the constructor gets as far as the down-sampler the error is
    [AttributeError]. *)
Lemma init_kv_down_unknown_mode (nn : Pooling) (mode : string) (kpw kdr : option nat) :
  existsb (String.eqb mode)
    ["ada_avgpool"; "ada_maxpool"; "maxpool"; "avgpool"; "identity"; "fracpool"; "conv"]%string
    = false ->
  BiLevelRoutingAttention.init_kv_down nn mode kpw kdr = Raise AttributeError.
Proof.
  cbn [existsb]. intros H.
  repeat (apply orb_false_elim in H; destruct H as [?E H]).
  unfold BiLevelRoutingAttention.init_kv_down.
  repeat match goal with E : String.eqb _ _ = false |- _ => rewrite E; clear E end.
  reflexivity.
Qed.

(** ** Index arithmetic of merged axes *)

Lemma div_mul_add (a b r : nat) : r < b -> (a * b + r) / b = a.
Proof.
  intros Hr. symmetry. apply Nat.div_unique with r; [exact Hr | lia].
Qed.

Lemma mod_mul_add (a b r : nat) : r < b -> (a * b + r) mod b = r.
Proof.
  intros Hr. symmetry. apply Nat.mod_unique with a; [exact Hr | lia].
Qed.

(** A triple [(k, j, i)] merged into one axis and split again. *)
Lemma merge3_div (k j i h w : nat) :
  j < h -> i < w -> ((k * h + j) * w + i) / (h * w) = k.
Proof.
  intros Hj Hi.
  replace ((k * h + j) * w + i) with (k * (h * w) + (j * w + i)) by lia.
  apply div_mul_add.
  assert (Hle : (j + 1) * w <= h * w) by (apply Nat.mul_le_mono_r; lia).
  lia.
Qed.

Lemma merge3_mid (k j i h w : nat) :
  j < h -> i < w -> (((k * h + j) * w + i) / w) mod h = j.
Proof.
  intros Hj Hi. rewrite div_mul_add by exact Hi. apply mod_mul_add. exact Hj.
Qed.

Lemma merge3_mod (k j i h w : nat) :
  i < w -> ((k * h + j) * w + i) mod w = i.
Proof. intros Hi. apply mod_mul_add. exact Hi. Qed.

Lemma merge3_lt (k j i n h w : nat) :
  k < n -> j < h -> i < w -> (k * h + j) * w + i < n * h * w.
Proof.
  intros Hk Hj Hi.
  assert (H1 : (k * h + j + 1) * w <= n * h * w).
  { apply Nat.mul_le_mono_r.
    assert ((k + 1) * h <= n * h) by (apply Nat.mul_le_mono_r; lia). lia. }
  lia.
Qed.

Lemma div_mod_recompose (a d : nat) : d <> 0 -> a / d * d + a mod d = a.
Proof. intros Hd. pose proof (Nat.div_mod a d Hd). lia. Qed.

Lemma divisible_mul_div (n D : nat) : n <> 0 -> D mod n = 0 -> n * (D / n) = D.
Proof. intros Hn Hm. pose proof (Nat.div_mod D n Hn). lia. Qed.

Lemma InRange_cons_inv (i d : nat) (idx sh : list nat) :
  InRange (i :: idx) (d :: sh) -> i < d /\ InRange idx sh.
Proof. intros H. inversion H; subst. split; assumption. Qed.

(** Destructs an in-range index of a shape of known rank into its
    coordinates. *)
Ltac inrange_inv H :=
  repeat match type of H with
  | InRange ?idx (_ :: _) =>
      let i := fresh "i" in
      let Hi := fresh "Hi" in
      destruct idx as [|i idx]; [inversion H|];
      apply InRange_cons_inv in H; destruct H as [Hi H]
  end;
  match type of H with
  | InRange ?idx [] => destruct idx; [clear H | inversion H]
  end.

(** ** Partition and reassembly of the windows *)

(** C10: for an activation [x] of shape [(n, D, H, W, C)] whose spatial
    extents are divisible by [n_win], the window partition (the first
    [rearrange] of [forward]) followed, with no computation in between,
    by the two pure re-layouts that lead to the attention layout
    (flattening the pixels of a window and splitting the channels into
    [m] heads) and by the reassembling [rearrange] gives back [x]: the
    same shape and the same entry at every position. *)
Theorem C10_partition_reassemble_roundtrip :
  forall (A : Type) (x : Tensor A) (n D H W C n_win m : nat),
    size x = [n; D; H; W; C] ->
    0 < n_win ->
    D mod n_win = 0 -> H mod n_win = 0 -> W mod n_win = 0 ->
    0 < m -> C mod m = 0 ->
    exists xw xf xh y,
      rearrange_partition n_win x = Ok xw /\
      rearrange_flatten_pixels xw = Ok xf /\
      rearrange_heads m xf = Ok xh /\
      rearrange_reassemble n_win (D / n_win) (H / n_win) (W / n_win) xh = Ok y /\
      teq y x.
Proof.
  intros A x n D H W C nw m Hx Hnw HD HH HW Hm HC.
  assert (Hp3 : 0 < nw * nw * nw) by nia.
  assert (Hnwb : (0 <? nw) = true) by (apply Nat.ltb_lt; lia).
  assert (Hmb : (0 <? m) = true) by (apply Nat.ltb_lt; lia).
  do 4 eexists.
  split.
  { unfold rearrange_partition. rewrite Hx, Hnwb, HD, HH, HW. reflexivity. }
  split; [reflexivity|].
  split.
  { unfold rearrange_heads. cbn [size]. rewrite Hmb, HC. reflexivity. }
  split.
  { unfold rearrange_reassemble. cbn [size].
    rewrite Hnwb, Nat.Div0.mod_mul, !Nat.eqb_refl. reflexivity. }
  unfold teq. cbn [size data].
  assert (Hshape : [n * (nw * nw * nw) / (nw * nw * nw); nw * (D / nw); nw * (H / nw);
                    nw * (W / nw); m * (C / m)] = [n; D; H; W; C]).
  { rewrite Nat.div_mul by lia.
    rewrite !divisible_mul_div by (assumption || lia). reflexivity. }
  rewrite Hshape, Hx. split; [reflexivity|].
  intros idx Hidx. inrange_inv Hidx.
  rename i into n_, i0 into dd, i1 into hh, i2 into ww, i3 into cc.
  set (d := D / nw) in *. set (h := H / nw) in *. set (w := W / nw) in *.
  set (c := C / m) in *.
  assert (HDd : D = nw * d) by (symmetry; apply divisible_mul_div; [lia | assumption]).
  assert (HHh : H = nw * h) by (symmetry; apply divisible_mul_div; [lia | assumption]).
  assert (HWw : W = nw * w) by (symmetry; apply divisible_mul_div; [lia | assumption]).
  assert (HCc : C = m * c) by (symmetry; apply divisible_mul_div; [lia | assumption]).
  assert (Hd0 : d <> 0) by (intros E; rewrite E in HDd; lia).
  assert (Hh0 : h <> 0) by (intros E; rewrite E in HHh; lia).
  assert (Hw0 : w <> 0) by (intros E; rewrite E in HWw; lia).
  assert (Hc0 : c <> 0) by (intros E; rewrite E in HCc; lia).
  assert (Hq : dd / d < nw) by (apply Nat.Div0.div_lt_upper_bound; lia).
  assert (Hj : hh / h < nw) by (apply Nat.Div0.div_lt_upper_bound; lia).
  assert (Hi' : ww / w < nw) by (apply Nat.Div0.div_lt_upper_bound; lia).
  assert (Hdm : dd mod d < d) by (apply Nat.mod_upper_bound; exact Hd0).
  assert (Hhm : hh mod h < h) by (apply Nat.mod_upper_bound; exact Hh0).
  assert (Hwm : ww mod w < w) by (apply Nat.mod_upper_bound; exact Hw0).
  assert (HP : (dd / d * nw + hh / h) * nw + ww / w < nw * nw * nw)
    by (apply merge3_lt; assumption).
  rewrite div_mul_add, mod_mul_add by exact HP.
  rewrite merge3_div, merge3_mid, merge3_mod by assumption.
  rewrite merge3_div, merge3_mid, merge3_mod by assumption.
  rewrite !div_mod_recompose by assumption.
  reflexivity.
Qed.

Lemma C10_partition_reassemble_roundtrip_witness :
  exists xw xf xh y,
    rearrange_partition 2 (iota_tensor [1; 4; 2; 6; 4]) = Ok xw /\
    rearrange_flatten_pixels xw = Ok xf /\
    rearrange_heads 2 xf = Ok xh /\
    rearrange_reassemble 2 (4 / 2) (2 / 2) (6 / 2) xh = Ok y /\
    teq y (iota_tensor [1; 4; 2; 6; 4]).
Proof.
  apply (@C10_partition_reassemble_roundtrip nat (iota_tensor [1; 4; 2; 6; 4]) 1 4 2 6 4 2 2);
    solve [reflexivity | lia].
Defined.

(** ** Selection of the largest entries *)

Section TopkListFacts.
Variable A : Type.
Variable gtb : A -> A -> bool.

Lemma insert_desc_perm (x : nat * A) (l : list (nat * A)) :
  Permutation (insert_desc gtb x l) (x :: l).
Proof.
  induction l as [|y l IH]; simpl.
  - apply Permutation_refl.
  - destruct (gtb (snd y) (snd x)).
    + apply Permutation_trans with (y :: x :: l).
      * apply perm_skip. exact IH.
      * apply perm_swap.
    + apply Permutation_refl.
Qed.

Lemma sort_desc_perm (l : list (nat * A)) : Permutation (sort_desc gtb l) l.
Proof.
  induction l as [|x l IH]; simpl.
  - apply perm_nil.
  - apply Permutation_trans with (x :: sort_desc gtb l).
    + apply insert_desc_perm.
    + apply perm_skip. exact IH.
Qed.

Lemma map_fst_combine_seq (l : list A) (s : nat) :
  map fst (combine (seq s (length l)) l) = seq s (length l).
Proof.
  revert s. induction l as [|x l IH]; intros s; simpl; [reflexivity|].
  rewrite IH. reflexivity.
Qed.

Lemma In_combine_seq (l : list A) (s i : nat) (v : A) :
  In (i, v) (combine (seq s (length l)) l) -> s <= i /\ nth_error l (i - s) = Some v.
Proof.
  revert s. induction l as [|x l IH]; intros s; simpl; [tauto|].
  intros [E|Hin].
  - inversion E; subst. rewrite Nat.sub_diag. split; [lia | reflexivity].
  - apply IH in Hin. destruct Hin as [Hle Hn].
    split; [lia|].
    replace (i - s) with (S (i - S s)) by lia. exact Hn.
Qed.

Lemma sorted_indices_perm (l : list A) :
  Permutation (map fst (sort_desc gtb (combine (seq 0 (length l)) l))) (seq 0 (length l)).
Proof.
  rewrite <- (map_fst_combine_seq l 0) at 2.
  apply Permutation_map. apply sort_desc_perm.
Qed.

Lemma topk_list_length (k : nat) (l : list A) :
  k <= length l -> length (topk_list gtb k l) = k.
Proof.
  intros Hk. unfold topk_list. apply firstn_length_le.
  rewrite (Permutation_length (sort_desc_perm _)).
  rewrite length_combine, length_seq. lia.
Qed.

Lemma topk_list_NoDup (k : nat) (l : list A) : NoDup (map fst (topk_list gtb k l)).
Proof.
  unfold topk_list. rewrite <- firstn_map.
  assert (Hnd : NoDup (map fst (sort_desc gtb (combine (seq 0 (length l)) l)))).
  { apply Permutation_NoDup with (seq 0 (length l)).
    - apply Permutation_sym. apply sorted_indices_perm.
    - apply seq_NoDup. }
  rewrite <- (firstn_skipn k (map fst _)) in Hnd.
  apply NoDup_app_remove_r in Hnd. exact Hnd.
Qed.

Lemma topk_list_In (k : nat) (l : list A) (i : nat) (v : A) :
  In (i, v) (topk_list gtb k l) -> nth_error l i = Some v.
Proof.
  unfold topk_list. intros Hin.
  assert (Hin' : In (i, v) (sort_desc gtb (combine (seq 0 (length l)) l))).
  { rewrite <- (firstn_skipn k (sort_desc _ _)). apply in_or_app. left. exact Hin. }
  apply (Permutation_in _ (sort_desc_perm _)) in Hin'.
  apply In_combine_seq in Hin'. destruct Hin' as [_ Hn].
  rewrite Nat.sub_0_r in Hn. exact Hn.
Qed.

Lemma topk_list_all (l : list A) :
  Permutation (map fst (topk_list gtb (length l) l)) (seq 0 (length l)).
Proof.
  unfold topk_list. rewrite firstn_all2.
  - apply sorted_indices_perm.
  - rewrite (Permutation_length (sort_desc_perm _)).
    rewrite length_combine, length_seq. lia.
Qed.

End TopkListFacts.

(** ** The order of the selection *)

Lemma Rgtb_true (a b : R) : Rgtb a b = true -> (b < a)%R.
Proof. unfold Rgtb. destruct (Rlt_dec b a); [auto | discriminate]. Qed.

Lemma Rgtb_false (a b : R) : Rgtb a b = false -> (a <= b)%R.
Proof. unfold Rgtb. destruct (Rlt_dec b a); [discriminate | lra]. Qed.

Lemma insert_desc_sorted (x : nat * R) (l : list (nat * R)) :
  StronglySorted ge_value l -> StronglySorted ge_value (insert_desc Rgtb x l).
Proof.
  intros Hs. induction Hs as [|y l Hs IH Hall]; cbn [insert_desc].
  - constructor; constructor.
  - destruct (Rgtb (snd y) (snd x)) eqn:E.
    + apply Rgtb_true in E. constructor; [exact IH|].
      apply Forall_forall. intros z Hz.
      apply (Permutation_in _ (insert_desc_perm Rgtb x l)) in Hz.
      destruct Hz as [Hz|Hz].
      * subst z. unfold ge_value. lra.
      * rewrite Forall_forall in Hall. apply Hall. exact Hz.
    + apply Rgtb_false in E. constructor.
      * constructor; assumption.
      * constructor; [exact E|].
        apply Forall_forall. intros z Hz.
        rewrite Forall_forall in Hall. specialize (Hall z Hz).
        unfold ge_value in *. lra.
Qed.

Lemma sort_desc_sorted (l : list (nat * R)) : StronglySorted ge_value (sort_desc Rgtb l).
Proof.
  induction l as [|x l IH]; cbn [sort_desc fold_right].
  - constructor.
  - apply insert_desc_sorted. exact IH.
Qed.

Lemma StronglySorted_app_inv {A} (R : A -> A -> Prop) (l1 l2 : list A) :
  StronglySorted R (l1 ++ l2) ->
  StronglySorted R l1 /\ forall a b, In a l1 -> In b l2 -> R a b.
Proof.
  induction l1 as [|x l1 IH]; cbn [app]; intros H.
  - split; [constructor | intros a b []].
  - inversion H as [|? ? Hs Hall]; subst.
    destruct (IH Hs) as [Hs1 Hcross]. split.
    + constructor; [exact Hs1|].
      apply Forall_forall. intros z Hz. rewrite Forall_forall in Hall.
      apply Hall. apply in_or_app. left. exact Hz.
    + intros a b [Ha|Ha] Hb.
      * subst a. rewrite Forall_forall in Hall. apply Hall.
        apply in_or_app. right. exact Hb.
      * apply Hcross; assumption.
Qed.

Lemma StronglySorted_nth {A} (R : A -> A -> Prop) (l : list A) (d : A) (i j : nat) :
  StronglySorted R l -> i < j -> j < length l -> R (nth i l d) (nth j l d).
Proof.
  intros Hs. revert i j. induction Hs as [|x l Hs IH Hall]; intros i j Hij Hj.
  - cbn in Hj. lia.
  - destruct j as [|j]; [lia|]. cbn [length] in Hj. destruct i as [|i]; cbn [nth].
    + rewrite Forall_forall in Hall. apply Hall. apply nth_In. lia.
    + apply IH; lia.
Qed.

(** The selection made by [topk_list]: it is in decreasing order, and
    no position left out holds a larger value than a selected one. *)
Lemma topk_list_largest (k : nat) (l : list R) :
  k <= length l ->
  (forall i j, i < j -> j < k ->
     ge_value (nth i (topk_list Rgtb k l) no_entry) (nth j (topk_list Rgtb k l) no_entry)) /\
  (forall j w v, j < k -> nth_error l w = Some v ->
     ~ In w (map fst (topk_list Rgtb k l)) ->
     (v <= snd (nth j (topk_list Rgtb k l) no_entry))%R).
Proof.
  intros Hk. unfold topk_list.
  set (S := sort_desc Rgtb (combine (seq 0 (length l)) l)).
  pose proof (sort_desc_sorted (combine (seq 0 (length l)) l)) as Hs. fold S in Hs.
  assert (HlenS : length S = length l).
  { unfold S. rewrite (Permutation_length (sort_desc_perm _ _)).
    rewrite length_combine, length_seq. lia. }
  rewrite <- (firstn_skipn k S) in Hs.
  apply StronglySorted_app_inv in Hs. destruct Hs as [Hs1 Hcross].
  assert (Hlen1 : length (firstn k S) = k) by (apply firstn_length_le; lia).
  split.
  - intros i j Hij Hj. apply StronglySorted_nth; [exact Hs1 | exact Hij | lia].
  - intros j w v Hj Hw Hnot.
    assert (HinS : In (w, v) S).
    { unfold S. apply (Permutation_in _ (Permutation_sym (sort_desc_perm _ _))).
      assert (Hwl : w < length l) by (apply nth_error_Some; congruence).
      replace (w, v) with (nth w (combine (seq 0 (length l)) l) (0, v)).
      - apply nth_In. rewrite length_combine, length_seq. lia.
      - rewrite combine_nth by (rewrite length_seq; reflexivity).
        rewrite seq_nth by exact Hwl.
        f_equal. apply nth_error_nth. exact Hw. }
    rewrite <- (firstn_skipn k S) in HinS. apply in_app_or in HinS.
    destruct HinS as [Hin|Hin].
    + exfalso. apply Hnot. apply in_map_iff. exists (w, v). split; [reflexivity | exact Hin].
    + apply (Hcross (nth j (firstn k S) no_entry) (w, v)); [|exact Hin].
      apply nth_In. lia.
Qed.

Lemma exp_le (x y : R) : (x <= y)%R -> (exp x <= exp y)%R.
Proof.
  intros [H|H]; [left; apply exp_increasing; exact H | right; congruence].
Qed.

(** ** The router *)

Lemma list_eqb_refl (l : list nat) : list_eqb l l = true.
Proof. unfold list_eqb. destruct (list_eq_dec Nat.eq_dec l l); congruence. Qed.

Lemma matmul_3d (a b : Tensor R) (n p c q : nat) :
  size a = [n; p; c] -> size b = [n; c; q] ->
  exists t, matmul a b = Ok t /\ size t = [n; p; q] /\
    forall i j l, data t [i; j; l] =
                  Rsum c (fun x => (data a [i; j; x] * data b [i; x; l])%R).
Proof.
  intros Ha Hb. unfold matmul. rewrite Ha, Hb.
  cbn [length Nat.leb Nat.eqb Nat.sub firstn nth andb require bind].
  rewrite list_eqb_refl, Nat.eqb_refl.
  eexists. split; [reflexivity|]. split; reflexivity.
Qed.

Lemma router_logits_Ok (self : TopkRouting.t) (query key : Tensor R) (n p p' c : nat) :
  (TopkRouting.emb self = Identity \/ exists th, TopkRouting.emb self = Linear c c th) ->
  size query = [n; p; c] -> size key = [n; p'; c] ->
  exists L, TopkRouting.logits self query key = Ok L /\ size L = [n; p; p'].
Proof.
  intros Hemb Hq Hk. unfold TopkRouting.logits.
  destruct Hemb as [He | [th He]]; rewrite He; unfold call.
  - cbn [bind]. unfold transpose_last2. rewrite Hk.
    cbn [length Nat.leb require bind swap_last2 rev app].
    destruct (@matmul_3d (mul_scalar query (TopkRouting.scale self))
                {| size := [n; c; p']; data := fun idx => data key (swap_last2 idx) |}
                n p c p' Hq eq_refl) as [t [Ht [Hs _]]].
    exists t. split; assumption.
  - unfold linear. rewrite Hq, Hk.
    cbn [length Nat.leb last andb]. rewrite Nat.eqb_refl.
    cbn [require bind removelast app].
    unfold transpose_last2.
    cbn [size length Nat.leb require bind swap_last2 rev app].
    match goal with |- context [matmul ?a ?b] =>
      destruct (@matmul_3d a b n p c p' eq_refl eq_refl) as [t [Ht [Hs _]]] end.
    exists t. split; assumption.
Qed.

Lemma router_forward_from_logits (self : TopkRouting.t) (query key L : Tensor R)
    (n p p' : nat) :
  TopkRouting.logits self query key = Ok L ->
  size L = [n; p; p'] ->
  TopkRouting.topk self <= p' ->
  exists W I,
    TopkRouting.forward self query key = Ok (W, I) /\
    size W = [n; p; TopkRouting.topk self] /\
    size I = [n; p; TopkRouting.topk self] /\
    forall b i j,
      data I [b; i; j] =
        Z.of_nat (fst (nth j (topk_list Rgtb (TopkRouting.topk self) (row L [b; i] p')) no_entry)) /\
      data W [b; i; j] =
        (exp (snd (nth j (topk_list Rgtb (TopkRouting.topk self) (row L [b; i] p')) no_entry)) /
         Rsum (TopkRouting.topk self)
           (fun l => exp (snd (nth l (topk_list Rgtb (TopkRouting.topk self) (row L [b; i] p'))
                                  no_entry))))%R.
Proof.
  intros HL Hs Hk. unfold TopkRouting.forward. rewrite HL. cbn [bind].
  unfold torch_topk. rewrite Hs. cbn [length Nat.leb last andb].
  apply Nat.leb_le in Hk. rewrite Hk. cbn [require bind removelast app].
  unfold softmax. cbn [size length Nat.leb require bind last].
  do 2 eexists. split; [reflexivity|].
  split; [reflexivity|]. split; [reflexivity|].
  intros b i j. split; reflexivity.
Qed.

Lemma map_nth_seq {A} (l : list A) (d : A) :
  map (fun j => nth j l d) (seq 0 (length l)) = l.
Proof.
  induction l as [|x l IH]; [reflexivity|].
  cbn [length seq map nth]. f_equal.
  rewrite <- seq_shift, map_map. exact IH.
Qed.

Lemma length_row {A} (t : Tensor A) (pre : list nat) (len : nat) :
  length (row t pre len) = len.
Proof. unfold row. rewrite length_map, length_seq. reflexivity. Qed.

Lemma nth_error_row {A} (t : Tensor A) (pre : list nat) (len i : nat) :
  i < len -> nth_error (row t pre len) i = Some (data t (pre ++ [i])).
Proof.
  intros Hi. unfold row. rewrite nth_error_map, nth_error_seq.
  apply Nat.ltb_lt in Hi. rewrite Hi. reflexivity.
Qed.

Lemma Rsum_ext (n : nat) (f g : nat -> R) :
  (forall i, i < n -> f i = g i) -> Rsum n f = Rsum n g.
Proof.
  intros H. unfold Rsum. f_equal. apply map_ext_in.
  intros i Hi. apply in_seq in Hi. apply H. lia.
Qed.

Lemma sumR_app (l1 l2 : list R) : sumR (l1 ++ l2) = (sumR l1 + sumR l2)%R.
Proof.
  induction l1 as [|x l1 IH]; simpl; [lra|]. rewrite IH. lra.
Qed.

Lemma sumR_map_div {A} (f : A -> R) (s : R) (l : list A) :
  sumR (map (fun x => (f x / s)%R) l) = (sumR (map f l) / s)%R.
Proof.
  induction l as [|x l IH]; simpl.
  - unfold Rdiv. lra.
  - rewrite IH. unfold Rdiv. lra.
Qed.

Lemma sumR_exp_pos {A} (f : A -> R) (l : list A) :
  l <> [] -> (0 < sumR (map (fun x => exp (f x)) l))%R.
Proof.
  destruct l as [|x l]; [congruence|]. intros _.
  revert x. induction l as [|y l IH]; intros x; simpl.
  - pose proof (exp_pos (f x)). lra.
  - pose proof (exp_pos (f x)). specialize (IH y). simpl in IH. lra.
Qed.

Lemma Rsum_exp_pos (n : nat) (f : nat -> R) :
  0 < n -> (0 < Rsum n (fun l => exp (f l)))%R.
Proof.
  intros Hn. unfold Rsum. apply sumR_exp_pos.
  destruct n; [lia|]. discriminate.
Qed.

Lemma router_init_inv (qk_dim k : nat) (qk_scale : option R) (pr dr : bool)
    (th : LinearParams) (self : TopkRouting.t) :
  TopkRouting.init qk_dim k qk_scale pr dr th = Ok self ->
  TopkRouting.topk self = k /\
  (TopkRouting.emb self = Identity \/
   exists th', TopkRouting.emb self = Linear qk_dim qk_dim th').
Proof.
  unfold TopkRouting.init. intros H.
  apply bind_Ok in H. destruct H as [s [_ H]]. inversion H; subst; clear H.
  cbn. split; [reflexivity|]. destruct pr; eauto.
Qed.

Lemma selected_index_lt (t : Tensor R) (pre : list nat) (len k j : nat) :
  k <= len -> j < k ->
  fst (nth j (topk_list Rgtb k (row t pre len)) no_entry) < len /\
  snd (nth j (topk_list Rgtb k (row t pre len)) no_entry) =
    data t (pre ++ [fst (nth j (topk_list Rgtb k (row t pre len)) no_entry)]).
Proof.
  intros Hk Hj.
  set (T := topk_list Rgtb k (row t pre len)).
  assert (HlenT : length T = k).
  { apply topk_list_length. rewrite length_row. exact Hk. }
  assert (Hin : In (nth j T no_entry) T) by (apply nth_In; lia).
  destruct (nth j T no_entry) as [i v] eqn:E.
  apply topk_list_In in Hin. cbn [fst snd].
  assert (Hi : i < len).
  { rewrite <- (length_row t pre len). apply nth_error_Some. congruence. }
  split; [exact Hi|].
  rewrite nth_error_row in Hin by exact Hi. congruence.
Qed.

(** The selection of the router, row by row: [topk] distinct windows,
    in the order of their logits, none of them with a logit below that
    of a window left out. *)
Lemma router_forward_largest (self : TopkRouting.t) (query key L : Tensor R) (n p : nat) :
  TopkRouting.logits self query key = Ok L ->
  size L = [n; p; p] ->
  TopkRouting.topk self <= p ->
  exists W I,
    TopkRouting.forward self query key = Ok (W, I) /\
    forall b i,
      NoDup (row I [b; i] (TopkRouting.topk self)) /\
      (forall j, j < TopkRouting.topk self ->
         (0 <= data I [b; i; j] < Z.of_nat p)%Z) /\
      (forall j j', j < j' -> j' < TopkRouting.topk self ->
         (data L [b; i; Z.to_nat (data I [b; i; j'])]
          <= data L [b; i; Z.to_nat (data I [b; i; j])])%R) /\
      (forall j w, j < TopkRouting.topk self -> w < p ->
         (forall j', j' < TopkRouting.topk self -> Z.to_nat (data I [b; i; j']) <> w) ->
         (data L [b; i; w] <= data L [b; i; Z.to_nat (data I [b; i; j])])%R).
Proof.
  intros HL HsL Hkp.
  destruct (router_forward_from_logits self query key HL HsL Hkp)
    as [W [I [Hfw [_ [_ Hdata]]]]].
  set (k := TopkRouting.topk self) in *.
  exists W, I. split; [exact Hfw|].
  intros b i.
  set (T := topk_list Rgtb k (row L [b; i] p)).
  assert (Hkl : k <= length (row L [b; i] p)) by (rewrite length_row; exact Hkp).
  assert (HlenT : length T = k) by (apply topk_list_length; exact Hkl).
  destruct (topk_list_largest (row L [b; i] p) Hkl) as [Hsorted Hdom].
  assert (Hval : forall j, j < k ->
            data L [b; i; Z.to_nat (data I [b; i; j])] = snd (nth j T no_entry)).
  { intros j Hj. rewrite (proj1 (Hdata b i j)), Nat2Z.id.
    symmetry. apply (proj2 (selected_index_lt L [b; i] Hkp Hj)). }
  split; [|split; [|split]].
  - assert (Hrow : row I [b; i] k = map Z.of_nat (map fst T)).
    { unfold row. rewrite map_map.
      rewrite <- (map_nth_seq T no_entry) at 1. rewrite map_map, HlenT.
      apply map_ext. intros j. cbn [app]. apply (proj1 (Hdata b i j)). }
    rewrite Hrow. apply Injective_map_NoDup.
    + intros x y. apply Nat2Z.inj.
    + apply topk_list_NoDup.
  - intros j Hj. rewrite (proj1 (Hdata b i j)).
    pose proof (proj1 (selected_index_lt L [b; i] Hkp Hj)). lia.
  - intros j j' Hjj Hj'.
    assert (Hj : j < k) by lia.
    rewrite (Hval j Hj), (Hval j' Hj'). apply (Hsorted j j' Hjj Hj').
  - intros j w Hj Hw Hnot.
    rewrite (Hval j Hj).
    apply (Hdom j w (data L [b; i; w]) Hj).
    + rewrite nth_error_row by exact Hw. reflexivity.
    + intros Hin. apply in_map_iff in Hin. destruct Hin as [[w' v] [Hw' Hin]].
      cbn in Hw'. subst w'.
      destruct (In_nth _ _ no_entry Hin) as [j' [Hj' Hn]].
      rewrite topk_list_length in Hj' by exact Hkl.
      apply (Hnot j' Hj').
      rewrite (proj1 (Hdata b i j')), Nat2Z.id, Hn. reflexivity.
Qed.

(** C4: for a router whose [topk] does not exceed the number [p] of
    windows, [TopkRouting.forward] returns, and for every batch element
    and query window the [topk] routing indices are pairwise distinct
    and each lies in [0, p). *)
Theorem C4_routing_indices_distinct_in_range :
  forall (qk_dim k : nat) (qk_scale : option R) (param_routing diff_routing : bool)
         (emb_params : LinearParams) (self : TopkRouting.t)
         (query key : Tensor R) (n p : nat),
    TopkRouting.init qk_dim k qk_scale param_routing diff_routing emb_params = Ok self ->
    size query = [n; p; qk_dim] ->
    size key = [n; p; qk_dim] ->
    k <= p ->
    exists r_weight r_idx,
      TopkRouting.forward self query key = Ok (r_weight, r_idx) /\
      size r_idx = [n; p; k] /\
      forall b i, b < n -> i < p ->
        NoDup (row r_idx [b; i] k) /\
        Forall (fun z => (0 <= z < Z.of_nat p)%Z) (row r_idx [b; i] k).
Proof.
  intros qk_dim k qk_scale pr dr th self query key n p Hinit Hq Hk Hkp.
  apply router_init_inv in Hinit. destruct Hinit as [Htopk Hemb].
  destruct (router_logits_Ok self query key Hemb Hq Hk) as [L [HL HsL]].
  rewrite <- Htopk in Hkp.
  destruct (router_forward_from_logits self query key HL HsL Hkp)
    as [W [I [Hfw [_ [HsI Hdata]]]]].
  rewrite Htopk in *.
  exists W, I. split; [exact Hfw|]. split; [exact HsI|].
  intros b i _ _.
  set (T := topk_list Rgtb k (row L [b; i] p)).
  assert (HlenT : length T = k).
  { apply topk_list_length. rewrite length_row. exact Hkp. }
  assert (Hrow : row I [b; i] k = map Z.of_nat (map fst T)).
  { unfold row. rewrite map_map.
    rewrite <- (map_nth_seq T no_entry) at 1. rewrite map_map, HlenT.
    apply map_ext. intros j. cbn [app]. apply (proj1 (Hdata b i j)). }
  rewrite Hrow. split.
  - apply Injective_map_NoDup.
    + intros x y. apply Nat2Z.inj.
    + apply topk_list_NoDup.
  - apply Forall_forall. intros z Hz.
    apply in_map_iff in Hz. destruct Hz as [x [Hx Hin]].
    apply in_map_iff in Hin. destruct Hin as [[x' v] [Hx' Hin]].
    cbn in Hx'. subst x' z.
    apply topk_list_In in Hin.
    assert (x < p).
    { rewrite <- (length_row L [b; i] p). apply nth_error_Some. congruence. }
    lia.
Qed.

(** C3: with [1 <= topk <= p], [TopkRouting.forward] returns routing
    weights that are, for every batch element and query window, the
    softmax of the selected top-k logits only.  The selection is a
    top-k one: the [topk] routing indices are distinct windows in
    [0, p), their logits come in non-increasing order, and no window
    left out has a logit above that of a selected window.  Each weight
    is the exponential of the logit at its routing index, normalised
    over the [topk] selected logits; the weights are non-negative and
    sum to 1.  Scalars are real numbers. *)
Theorem C3_routing_weights_softmax_of_topk :
  forall (qk_dim k : nat) (qk_scale : option R) (param_routing diff_routing : bool)
         (emb_params : LinearParams) (self : TopkRouting.t)
         (query key : Tensor R) (n p : nat),
    TopkRouting.init qk_dim k qk_scale param_routing diff_routing emb_params = Ok self ->
    size query = [n; p; qk_dim] ->
    size key = [n; p; qk_dim] ->
    1 <= k -> k <= p ->
    exists attn_logit r_weight r_idx,
      TopkRouting.logits self query key = Ok attn_logit /\
      TopkRouting.forward self query key = Ok (r_weight, r_idx) /\
      size r_weight = [n; p; k] /\
      forall b i, b < n -> i < p ->
        NoDup (row r_idx [b; i] k) /\
        (forall j, j < k -> (0 <= data r_idx [b; i; j] < Z.of_nat p)%Z) /\
        (forall j j', j < j' -> j' < k ->
           (data attn_logit [b; i; Z.to_nat (data r_idx [b; i; j'])]
            <= data attn_logit [b; i; Z.to_nat (data r_idx [b; i; j])])%R) /\
        (forall j w, j < k -> w < p ->
           (forall j', j' < k -> Z.to_nat (data r_idx [b; i; j']) <> w) ->
           (data attn_logit [b; i; w]
            <= data attn_logit [b; i; Z.to_nat (data r_idx [b; i; j])])%R) /\
        (forall j, j < k ->
           data r_weight [b; i; j] =
             (exp (data attn_logit [b; i; Z.to_nat (data r_idx [b; i; j])]) /
              Rsum k (fun j' => exp (data attn_logit [b; i; Z.to_nat (data r_idx [b; i; j'])])))%R) /\
        Forall (fun w => (0 <= w)%R) (row r_weight [b; i] k) /\
        sumR (row r_weight [b; i] k) = 1%R.
Proof.
  intros qk_dim k qk_scale pr dr th self query key n p Hinit Hq Hk Hk1 Hkp.
  apply router_init_inv in Hinit. destruct Hinit as [Htopk Hemb].
  destruct (router_logits_Ok self query key Hemb Hq Hk) as [L [HL HsL]].
  rewrite <- Htopk in Hkp.
  destruct (router_forward_from_logits self query key HL HsL Hkp)
    as [W [I [Hfw [HsW [_ Hdata]]]]].
  destruct (router_forward_largest self query key HL HsL Hkp)
    as [W' [I' [Hfw' Htop]]].
  assert (E : (W', I') = (W, I)) by congruence.
  inversion E; subst W' I'; clear E Hfw'.
  rewrite Htopk in *.
  exists L, W, I. split; [exact HL|]. split; [exact Hfw|]. split; [exact HsW|].
  intros b i _ _.
  destruct (Htop b i) as [Hnodup [Hrange [Hsorted Hdom]]].
  split; [exact Hnodup|]. split; [exact Hrange|].
  split; [exact Hsorted|]. split; [exact Hdom|].
  set (T := topk_list Rgtb k (row L [b; i] p)) in *.
  assert (Hpos : (0 < Rsum k (fun l => exp (snd (nth l (topk_list Rgtb k (row L [b; i] p)) no_entry))))%R)
    by (apply Rsum_exp_pos; lia).
  assert (Hrow : row W [b; i] k =
                 map (fun j => (exp (snd (nth j (topk_list Rgtb k (row L [b; i] p)) no_entry)) /
                                Rsum k (fun l => exp (snd (nth l (topk_list Rgtb k (row L [b; i] p)) no_entry))))%R)
                     (seq 0 k)).
  { unfold row. apply map_ext. intros j. cbn [app]. apply (proj2 (Hdata b i j)). }
  split; [|split].
  - intros j Hj.
    rewrite (proj2 (Hdata b i j)). f_equal.
    + rewrite (proj1 (Hdata b i j)), Nat2Z.id.
      rewrite (proj2 (selected_index_lt L [b; i] Hkp Hj)). reflexivity.
    + apply Rsum_ext. intros j' Hj'.
      rewrite (proj1 (Hdata b i j')), Nat2Z.id.
      rewrite (proj2 (selected_index_lt L [b; i] Hkp Hj')). reflexivity.
  - rewrite Hrow. apply Forall_forall. intros w Hw.
    apply in_map_iff in Hw. destruct Hw as [j [Hw _]]. subst w.
    apply Rlt_le. apply Rdiv_lt_0_compat; [apply exp_pos | exact Hpos].
  - rewrite Hrow.
    rewrite (sumR_map_div (fun j => exp (snd (nth j (topk_list Rgtb k (row L [b; i] p)) no_entry)))).
    fold (Rsum k (fun j => exp (snd (nth j (topk_list Rgtb k (row L [b; i] p)) no_entry)))).
    field. lra.
Qed.

Lemma C4_routing_indices_distinct_in_range_witness :
  exists r_weight r_idx,
    TopkRouting.forward example_router example_summaries example_summaries
      = Ok (r_weight, r_idx) /\
    size r_idx = [1; 3; 2] /\
    forall b i, b < 1 -> i < 3 ->
      NoDup (row r_idx [b; i] 2) /\
      Forall (fun z => (0 <= z < Z.of_nat 3)%Z) (row r_idx [b; i] 2).
Proof.
  apply (@C4_routing_indices_distinct_in_range 2 2 None false false zero_linear
           example_router example_summaries example_summaries 1 3);
    solve [reflexivity | lia].
Defined.

Lemma C3_routing_weights_softmax_of_topk_witness :
  exists attn_logit r_weight r_idx,
    TopkRouting.logits example_router example_summaries example_summaries = Ok attn_logit /\
    TopkRouting.forward example_router example_summaries example_summaries
      = Ok (r_weight, r_idx) /\
    size r_weight = [1; 3; 2] /\
    forall b i, b < 1 -> i < 3 ->
      NoDup (row r_idx [b; i] 2) /\
      (forall j, j < 2 -> (0 <= data r_idx [b; i; j] < Z.of_nat 3)%Z) /\
      (forall j j', j < j' -> j' < 2 ->
         (data attn_logit [b; i; Z.to_nat (data r_idx [b; i; j'])]
          <= data attn_logit [b; i; Z.to_nat (data r_idx [b; i; j])])%R) /\
      (forall j w, j < 2 -> w < 3 ->
         (forall j', j' < 2 -> Z.to_nat (data r_idx [b; i; j']) <> w) ->
         (data attn_logit [b; i; w]
          <= data attn_logit [b; i; Z.to_nat (data r_idx [b; i; j])])%R) /\
      (forall j, j < 2 ->
         data r_weight [b; i; j] =
           (exp (data attn_logit [b; i; Z.to_nat (data r_idx [b; i; j])]) /
            Rsum 2 (fun j' => exp (data attn_logit [b; i; Z.to_nat (data r_idx [b; i; j'])])))%R) /\
      Forall (fun w => (0 <= w)%R) (row r_weight [b; i] 2) /\
      sumR (row r_weight [b; i] 2) = 1%R.
Proof.
  apply (@C3_routing_weights_softmax_of_topk 2 2 None false false zero_linear
           example_router example_summaries example_summaries 1 3);
    solve [reflexivity | lia].
Defined.

(** ** The gatherer *)

Lemma bcast_coord (i d : nat) : i < d -> (if d =? 1 then 0 else i) = i.
Proof.
  intros Hi. destruct (d =? 1) eqn:E; [|reflexivity].
  apply Nat.eqb_eq in E. lia.
Qed.

Lemma ravel_lt (sh idx : list nat) : InRange idx sh -> ravel sh idx < numel sh.
Proof.
  intros H. induction H as [|i d idx sh Hi H IH]; cbn [ravel numel fold_right].
  - lia.
  - fold (numel sh).
    assert ((i + 1) * numel sh <= d * numel sh) by (apply Nat.mul_le_mono_r; lia).
    lia.
Qed.

Lemma unravel_ravel (sh idx : list nat) :
  InRange idx sh -> unravel sh (ravel sh idx) = idx.
Proof.
  intros H. induction H as [|i d idx sh Hi H IH]; cbn [ravel unravel]; [reflexivity|].
  pose proof (ravel_lt H) as Hlt.
  rewrite div_mul_add, mod_mul_add by exact Hlt.
  rewrite IH. reflexivity.
Qed.

Lemma In_all_indices (sh idx : list nat) :
  In idx (all_indices sh) -> InRange idx sh.
Proof.
  revert idx. induction sh as [|d sh IH]; intros idx; cbn [all_indices].
  - intros [E|[]]. subst. constructor.
  - intros Hin. apply in_flat_map in Hin. destruct Hin as [i [Hi Hin]].
    apply in_map_iff in Hin. destruct Hin as [idx' [E Hin]]. subst idx.
    apply in_seq in Hi. constructor; [lia | apply IH; exact Hin].
Qed.

Lemma view_Ok {A} (sh : list nat) (t : Tensor A) :
  numel sh = numel (size t) ->
  view sh t = Ok (mkTensor sh (fun idx => data t (unravel (size t) (ravel sh idx)))).
Proof.
  intros H. unfold view. rewrite H, Nat.eqb_refl. reflexivity.
Qed.

Lemma gather_Ok {A} (input : Tensor A) (dim : nat) (index : Tensor Z) :
  le_except dim (size index) (size input) = true ->
  (forall idx, InRange idx (size index) ->
     (0 <= data index idx < Z.of_nat (nth dim (size input) 0%nat))%Z) ->
  gather input dim index =
  Ok (mkTensor (size index)
        (fun idx => data input (set_nth dim (Z.to_nat (data index idx)) idx))).
Proof.
  intros Hle Hin. unfold gather. rewrite Hle. cbn [require bind].
  replace (forallb _ _) with true; [reflexivity|].
  symmetry. apply forallb_forall. intros idx Hidx.
  apply In_all_indices in Hidx. specialize (Hin idx Hidx).
  apply andb_true_intro. split; [apply Z.leb_le | apply Z.ltb_lt]; lia.
Qed.

(** The gathered tensor before any weighting: entry [(b, i, j)] is the
    pixel block of window [r_idx[b, i, j]]. *)
Lemma kv_gather_select (r_idx : Tensor Z) (kv : Tensor R) (n p2 k w2 c : nat) :
  size kv = [n; p2; w2; c] ->
  size r_idx = [n; p2; k] ->
  (forall b i j, b < n -> i < p2 -> j < k ->
     (0 <= data r_idx [b; i; j] < Z.of_nat p2)%Z) ->
  exists kv_v kv_e idx_v idx_e topk_kv,
    view [n; 1; p2; w2; c] kv = Ok kv_v /\
    expand [None; Some p2; None; None; None] kv_v = Ok kv_e /\
    view [n; p2; k; 1; 1] r_idx = Ok idx_v /\
    expand [None; None; None; Some w2; Some c] idx_v = Ok idx_e /\
    gather kv_e 2 idx_e = Ok topk_kv /\
    size topk_kv = [n; p2; k; w2; c] /\
    forall b i j w ch, b < n -> i < p2 -> j < k -> w < w2 -> ch < c ->
      data topk_kv [b; i; j; w; ch] = data kv [b; Z.to_nat (data r_idx [b; i; j]); w; ch].
Proof.
  intros Hkv Hidx Hrange.
  assert (Hidx_data : forall b i j w ch, b < n -> i < p2 -> j < k -> w < w2 -> ch < c ->
            unravel [n; p2; k] (ravel [n; p2; k; 1; 1]
              (bcast_index [n; p2; k; 1; 1] [b; i; j; w; ch])) = [b; i; j]).
  { intros b i j w ch Hb Hi Hj Hw Hch.
    cbn [bcast_index Nat.eqb]. rewrite !bcast_coord by assumption.
    replace (ravel [n; p2; k; 1; 1] [b; i; j; 0; 0]) with (ravel [n; p2; k] [b; i; j])
      by (cbn [ravel numel fold_right]; lia).
    apply unravel_ravel. repeat constructor; assumption. }
  rewrite (@view_Ok R [n; 1; p2; w2; c] kv)
    by (rewrite Hkv; cbn [numel fold_right]; lia).
  eexists. eexists. eexists. eexists. eexists.
  split; [reflexivity|].
  split.
  { unfold expand. cbn [size expand_shape Nat.eqb orb option_map]. reflexivity. }
  split.
  { apply view_Ok. rewrite Hidx. cbn [numel fold_right]. lia. }
  split.
  { unfold expand. cbn [size expand_shape Nat.eqb orb option_map]. reflexivity. }
  split.
  { apply gather_Ok.
    - cbn [size le_except le_all]. rewrite !Nat.leb_refl. reflexivity.
    - cbn [size nth]. intros idx Hin. inrange_inv Hin.
      cbn [data]. rewrite Hidx. rewrite Hidx_data by assumption.
      apply Hrange; assumption. }
  split; [reflexivity|].
  intros b i j w ch Hb Hi Hj Hw Hch.
  cbn [data size]. rewrite Hidx, Hkv.
  rewrite Hidx_data by assumption.
  cbn [set_nth].
  pose proof (Hrange b i j Hb Hi Hj) as Hr.
  set (r := Z.to_nat (data r_idx [b; i; j])).
  assert (Hrlt : r < p2) by (unfold r; lia).
  cbn [bcast_index Nat.eqb]. rewrite !bcast_coord by assumption.
  replace (ravel [n; 1; p2; w2; c] [b; 0; r; w; ch]) with (ravel [n; p2; w2; c] [b; r; w; ch])
    by (cbn [ravel numel fold_right]; lia).
  rewrite unravel_ravel by (repeat constructor; assumption).
  reflexivity.
Qed.

Lemma broadcast_rev_unit_l (y : nat) (a b : list nat) :
  broadcast_rev (1 :: a) (y :: b) = option_map (cons y) (broadcast_rev a b).
Proof.
  cbn [broadcast_rev]. destruct (1 =? y) eqn:E; [|reflexivity].
  apply Nat.eqb_eq in E. subst y. reflexivity.
Qed.

Lemma broadcast_rev_same (x : nat) (a b : list nat) :
  broadcast_rev (x :: a) (x :: b) = option_map (cons x) (broadcast_rev a b).
Proof. cbn [broadcast_rev]. rewrite Nat.eqb_refl. reflexivity. Qed.

(** The constructor accepts exactly the three modes. *)
Lemma kv_gather_init_modes :
  KVGather.init "none" = Ok (KVGather.mk "none") /\
  KVGather.init "soft" = Ok (KVGather.mk "soft") /\
  KVGather.init "hard" = Ok (KVGather.mk "hard") /\
  KVGather.init "mean" = Raise AssertionError.
Proof. repeat split; reflexivity. Qed.

(** What [KVGather.forward] computes in each of its three modes. *)
Lemma kv_gather_forward_spec :
  forall (r_idx : Tensor Z) (r_weight kv : Tensor R) (n p2 k w2 c : nat),
    size kv = [n; p2; w2; c] ->
    size r_idx = [n; p2; k] ->
    size r_weight = [n; p2; k] ->
    (forall b i j, b < n -> i < p2 -> j < k ->
       (0 <= data r_idx [b; i; j] < Z.of_nat p2)%Z) ->
    (exists out,
       KVGather.forward (KVGather.mk "none") r_idx r_weight kv = Ok out /\
       size out = [n; p2; k; w2; c] /\
       forall b i j w ch, b < n -> i < p2 -> j < k -> w < w2 -> ch < c ->
         data out [b; i; j; w; ch] =
           data kv [b; Z.to_nat (data r_idx [b; i; j]); w; ch]) /\
    (exists out,
       KVGather.forward (KVGather.mk "soft") r_idx r_weight kv = Ok out /\
       size out = [n; p2; k; w2; c] /\
       forall b i j w ch, b < n -> i < p2 -> j < k -> w < w2 -> ch < c ->
         data out [b; i; j; w; ch] =
           (data r_weight [b; i; j] *
            data kv [b; Z.to_nat (data r_idx [b; i; j]); w; ch])%R) /\
    KVGather.forward (KVGather.mk "hard") r_idx r_weight kv = Raise NotImplementedError.
Proof.
  intros r_idx r_weight kv n p2 k w2 c Hkv Hidx Hw Hrange.
  destruct (kv_gather_select r_idx kv Hkv Hidx Hrange)
    as [kv_v [kv_e [idx_v [idx_e [topk_kv [H1 [H2 [H3 [H4 [H5 [Hsz Hdata]]]]]]]]]]].
  assert (Hfw : forall mode,
            KVGather.forward (KVGather.mk mode) r_idx r_weight kv =
            if String.eqb mode "soft"
            then w_v <- view [n; p2; k; 1; 1] r_weight ;; mul w_v topk_kv
            else if String.eqb mode "hard" then Raise NotImplementedError
            else Ok topk_kv).
  { intros mode. unfold KVGather.forward. rewrite Hkv, Hidx.
    cbn [rev app bind KVGather.mul_weight].
    rewrite H1. cbn [bind]. rewrite H2. cbn [bind]. rewrite H3. cbn [bind].
    rewrite H4. cbn [bind]. rewrite H5. cbn [bind]. reflexivity. }
  split; [|split].
  - exists topk_kv. rewrite Hfw. split; [reflexivity|]. split; assumption.
  - rewrite Hfw. cbn [String.eqb Ascii.eqb Bool.eqb].
    rewrite (@view_Ok R [n; p2; k; 1; 1] r_weight)
      by (rewrite Hw; cbn [numel fold_right]; lia).
    cbn [bind]. unfold mul. cbn [size]. rewrite Hsz. cbn [rev app].
    rewrite !broadcast_rev_unit_l, !broadcast_rev_same.
    cbn [broadcast_rev option_map rev app].
    eexists. split; [reflexivity|]. split; [reflexivity|].
    intros b i j w ch Hb Hi Hj Hw' Hch.
    cbn [data]. unfold bcast_index_r. cbn [rev app bcast_index Nat.eqb].
    rewrite !bcast_coord by assumption. cbn [rev app].
    rewrite Hw.
    replace (ravel [n; p2; k; 1; 1] [b; i; j; 0; 0]) with (ravel [n; p2; k] [b; i; j])
      by (cbn [ravel numel fold_right]; lia).
    rewrite unravel_ravel by (repeat constructor; assumption).
    rewrite Hdata by assumption. reflexivity.
  - rewrite Hfw. reflexivity.
Qed.

(** C5: for a per-window key/value tensor [kv] of shape
    [(n, p2, w2, c)] and routing indices and weights of shape
    [(n, p2, k)] with every index in [0, p2), [KVGather.forward] returns
    a tensor of shape [(n, p2, k, w2, c)] whose block at [(b, i, j)] is
    the whole pixel block of window [r_idx[b, i, j]] of [kv] when
    [mul_weight] is ['none'], that block multiplied by the scalar
    [r_weight[b, i, j]] when it is ['soft'], and raises
    [NotImplementedError] when it is ['hard']. *)
Theorem C5_kv_gather_modes :
  forall (r_idx : Tensor Z) (r_weight kv : Tensor R) (n p2 k w2 c : nat),
    size kv = [n; p2; w2; c] ->
    size r_idx = [n; p2; k] ->
    size r_weight = [n; p2; k] ->
    (forall b i j, b < n -> i < p2 -> j < k ->
       (0 <= data r_idx [b; i; j] < Z.of_nat p2)%Z) ->
    (exists out,
       KVGather.forward (KVGather.mk "none") r_idx r_weight kv = Ok out /\
       size out = [n; p2; k; w2; c] /\
       forall b i j w ch, b < n -> i < p2 -> j < k -> w < w2 -> ch < c ->
         data out [b; i; j; w; ch] =
           data kv [b; Z.to_nat (data r_idx [b; i; j]); w; ch]) /\
    (exists out,
       KVGather.forward (KVGather.mk "soft") r_idx r_weight kv = Ok out /\
       size out = [n; p2; k; w2; c] /\
       forall b i j w ch, b < n -> i < p2 -> j < k -> w < w2 -> ch < c ->
         data out [b; i; j; w; ch] =
           (data r_weight [b; i; j] *
            data kv [b; Z.to_nat (data r_idx [b; i; j]); w; ch])%R) /\
    KVGather.forward (KVGather.mk "hard") r_idx r_weight kv = Raise NotImplementedError.
Proof.
  intros r_idx r_weight kv n p2 k w2 c Hkv Hidx Hw Hrange.
  exact (kv_gather_forward_spec r_idx r_weight kv Hkv Hidx Hw Hrange).
Qed.

Lemma C5_kv_gather_modes_witness :
  (exists out,
     KVGather.forward (KVGather.mk "none") example_r_idx example_r_weight example_kv = Ok out /\
     size out = [1; 2; 1; 2; 3] /\
     forall b i j w ch, b < 1 -> i < 2 -> j < 1 -> w < 2 -> ch < 3 ->
       data out [b; i; j; w; ch] =
         data example_kv [b; Z.to_nat (data example_r_idx [b; i; j]); w; ch]) /\
  (exists out,
     KVGather.forward (KVGather.mk "soft") example_r_idx example_r_weight example_kv = Ok out /\
     size out = [1; 2; 1; 2; 3] /\
     forall b i j w ch, b < 1 -> i < 2 -> j < 1 -> w < 2 -> ch < 3 ->
       data out [b; i; j; w; ch] =
         (data example_r_weight [b; i; j] *
          data example_kv [b; Z.to_nat (data example_r_idx [b; i; j]); w; ch])%R) /\
  KVGather.forward (KVGather.mk "hard") example_r_idx example_r_weight example_kv
    = Raise NotImplementedError.
Proof.
  apply (@C5_kv_gather_modes example_r_idx example_r_weight example_kv 1 2 1 2 3);
    try reflexivity.
  intros b i j _ _ _. simpl. lia.
Defined.

(** ** The attention of a window over its selected keys and values *)

Lemma matmul_4d (a b : Tensor R) (B m X c L : nat) :
  size a = [B; m; X; c] -> size b = [B; m; c; L] ->
  exists t, matmul a b = Ok t /\ size t = [B; m; X; L] /\
    forall i h x l, data t [i; h; x; l] =
                    Rsum c (fun y => (data a [i; h; x; y] * data b [i; h; y; l])%R).
Proof.
  intros Ha Hb. unfold matmul. rewrite Ha, Hb.
  cbn [length Nat.leb Nat.eqb Nat.sub firstn nth andb require bind].
  rewrite list_eqb_refl, Nat.eqb_refl.
  eexists. split; [reflexivity|]. split; reflexivity.
Qed.

Lemma softmax_4d (t : Tensor R) (B m X L : nat) :
  size t = [B; m; X; L] ->
  exists s, softmax t = Ok s /\ size s = [B; m; X; L] /\
    forall i h x l, data s [i; h; x; l] =
      (exp (data t [i; h; x; l]) / Rsum L (fun l' => exp (data t [i; h; x; l'])))%R.
Proof.
  intros Ht. unfold softmax. rewrite Ht. cbn [length Nat.leb require bind last].
  eexists. split; [reflexivity|]. split; reflexivity.
Qed.

(** Scaled dot-product attention on the layouts [(B, m, X, c)] for the
    queries, [(B, m, c, L)] for the keys and [(B, m, L, cv)] for the
    values. *)
Lemma attention_core (Q K V : Tensor R) (s : R) (B m X c L cv : nat) :
  size Q = [B; m; X; c] -> size K = [B; m; c; L] -> size V = [B; m; L; cv] ->
  exists attn_logit attn_weight out,
    matmul (mul_scalar Q s) K = Ok attn_logit /\
    softmax attn_logit = Ok attn_weight /\
    matmul attn_weight V = Ok out /\
    size attn_weight = [B; m; X; L] /\
    size out = [B; m; X; cv] /\
    forall i h x y,
      data out [i; h; x; y] =
        Rsum L (fun l =>
          (exp (Rsum c (fun z => data Q [i; h; x; z] * s * data K [i; h; z; l])) /
           Rsum L (fun l' => exp (Rsum c (fun z => data Q [i; h; x; z] * s * data K [i; h; z; l'])))
           * data V [i; h; l; y])%R).
Proof.
  intros HQ HK HV.
  destruct (matmul_4d (mul_scalar Q s) K HQ HK) as [A [HA [HsA HdA]]].
  destruct (softmax_4d A HsA) as [S [HS [HsS HdS]]].
  destruct (matmul_4d S V HsS HV) as [O [HO [HsO HdO]]].
  exists A, S, O. repeat (split; [assumption|]).
  intros i h x y. rewrite HdO. apply Rsum_ext. intros l _.
  rewrite HdS. rewrite HdA.
  f_equal. f_equal. apply Rsum_ext. intros l' _. rewrite HdA. reflexivity.
Qed.

Lemma split2_5d (t : Tensor R) (n p k w a b : nat) :
  size t = [n; p; k; w; a + b] ->
  split [a; b] t = Ok [narrow_last 0 a t; narrow_last a b t].
Proof.
  intros Ht. unfold split. rewrite Ht.
  cbn [length Nat.leb last fold_right andb].
  rewrite Nat.add_0_r, Nat.eqb_refl. reflexivity.
Qed.

Lemma router_forward_spec (self : TopkRouting.t) (query key : Tensor R) (n p c : nat) :
  (TopkRouting.emb self = Identity \/ exists th, TopkRouting.emb self = Linear c c th) ->
  size query = [n; p; c] -> size key = [n; p; c] ->
  TopkRouting.topk self <= p ->
  exists L W I,
    TopkRouting.logits self query key = Ok L /\
    size L = [n; p; p] /\
    TopkRouting.forward self query key = Ok (W, I) /\
    size W = [n; p; TopkRouting.topk self] /\
    size I = [n; p; TopkRouting.topk self] /\
    (forall b i j,
       data I [b; i; j] =
         Z.of_nat (fst (nth j (topk_list Rgtb (TopkRouting.topk self) (row L [b; i] p)) no_entry))) /\
    (forall b i j, j < TopkRouting.topk self ->
       (0 <= data I [b; i; j] < Z.of_nat p)%Z).
Proof.
  intros Hemb Hq Hk Hkp.
  destruct (router_logits_Ok self query key Hemb Hq Hk) as [L [HL HsL]].
  destruct (router_forward_from_logits self query key HL HsL Hkp)
    as [W [I [Hfw [HsW [HsI Hdata]]]]].
  exists L, W, I. repeat (split; [assumption|]).
  split.
  - intros b i j. apply (proj1 (Hdata b i j)).
  - intros b i j Hj. rewrite (proj1 (Hdata b i j)).
    pose proof (proj1 (selected_index_lt L [b; i] Hkp Hj)). lia.
Qed.

Section RoutedAttention.
Variable self : BiLevelRoutingAttention.t.
Variables q_win k_win q_pix kv_pix : Tensor R.
Variables n p w3q w3 : nat.

Let m := BiLevelRoutingAttention.num_heads self.
Let qk := BiLevelRoutingAttention.qk_dim self.
Let dm := BiLevelRoutingAttention.dim self.
Let k := TopkRouting.topk (BiLevelRoutingAttention.router self).
Let s := BiLevelRoutingAttention.scale self.

Hypothesis Hemb :
  TopkRouting.emb (BiLevelRoutingAttention.router self) = Identity \/
  exists th, TopkRouting.emb (BiLevelRoutingAttention.router self) = Linear qk qk th.
Hypothesis Hkp : k <= p.
Hypothesis Hm : 0 < m.
Hypothesis Hqk : qk mod m = 0.
Hypothesis Hdm : dm mod m = 0.
Hypothesis Hq_win : size q_win = [n; p; qk].
Hypothesis Hk_win : size k_win = [n; p; qk].
Hypothesis Hq_pix : size q_pix = [n; p; w3q; qk].
Hypothesis Hkv_pix : size kv_pix = [n; p; w3; qk + dm].
Hypothesis Hmode :
  KVGather.mul_weight (BiLevelRoutingAttention.kv_gather self) = "none"%string \/
  KVGather.mul_weight (BiLevelRoutingAttention.kv_gather self) = "soft"%string.

Lemma routed_attention_spec :
  exists L out r_weight r_idx attn_weight G,
    TopkRouting.logits (BiLevelRoutingAttention.router self) q_win k_win = Ok L /\
    size L = [n; p; p] /\
    TopkRouting.forward (BiLevelRoutingAttention.router self) q_win k_win
      = Ok (r_weight, r_idx) /\
    KVGather.forward (BiLevelRoutingAttention.kv_gather self) r_idx r_weight kv_pix = Ok G /\
    BiLevelRoutingAttention.routed_attention self q_win k_win q_pix kv_pix
      = Ok (out, r_weight, r_idx, attn_weight) /\
    size out = [n * p; m; w3q; dm / m] /\
    size r_weight = [n; p; k] /\
    size r_idx = [n; p; k] /\
    size attn_weight = [n * p; m; w3q; k * w3] /\
    (forall b i j,
       data r_idx [b; i; j] =
         Z.of_nat (fst (nth j (topk_list Rgtb k (row L [b; i] p)) no_entry))) /\
    (forall b i j, b < n -> i < p -> j < k ->
       (0 <= data r_idx [b; i; j] < Z.of_nat p)%Z) /\
    (forall b h x c,
       data out [b; h; x; c] = gathered_attention s m qk dm q_pix (data G) p k w3 b h x c).
Proof.
  destruct (router_forward_spec (BiLevelRoutingAttention.router self) q_win k_win
              Hemb Hq_win Hk_win Hkp)
    as [L [W [I [HL [HsL [Hfw [HsW [HsI [HdI HrI]]]]]]]]].
  fold k in HsW, HsI, HdI, HrI.
  assert (HrI' : forall b i j, b < n -> i < p -> j < k ->
                   (0 <= data I [b; i; j] < Z.of_nat p)%Z)
    by (intros; apply HrI; assumption).
  destruct (kv_gather_forward_spec I W kv_pix Hkv_pix HsI HsW HrI')
    as [[Gn [HGn [HsGn _]]] [[Gs [HGs [HsGs _]]] _]].
  assert (HG : exists G,
             KVGather.forward (BiLevelRoutingAttention.kv_gather self) I W kv_pix = Ok G /\
             size G = [n; p; k; w3; qk + dm]).
  { destruct (BiLevelRoutingAttention.kv_gather self) as [mode]. cbn in Hmode |- *.
    destruct Hmode as [E|E]; subst mode; eauto. }
  destruct HG as [G [HG HsG]].
  assert (Hmb : (0 <? m) = true) by (apply Nat.ltb_lt; exact Hm).
  set (Kt := mkTensor [n * p; m; qk / m; k * w3]
               (fun idx => match idx with
                           | [b; m_; c_; l] =>
                               data (narrow_last 0 qk G)
                                 [b / p; b mod p; l / w3; l mod w3; m_ * (qk / m) + c_]
                           | _ => data (narrow_last 0 qk G) []
                           end)).
  set (Vt := mkTensor [n * p; m; k * w3; dm / m]
               (fun idx => match idx with
                           | [b; m_; l; c_] =>
                               data (narrow_last qk dm G)
                                 [b / p; b mod p; l / w3; l mod w3; m_ * (dm / m) + c_]
                           | _ => data (narrow_last qk dm G) []
                           end)).
  set (Qt := mkTensor [n * p; m; w3q; qk / m]
               (fun idx => match idx with
                           | [b; m_; l; c_] => data q_pix [b / p; b mod p; l; m_ * (qk / m) + c_]
                           | _ => data q_pix []
                           end)).
  assert (HK : rearrange_keys m (narrow_last 0 qk G) = Ok Kt).
  { unfold rearrange_keys. cbn [size narrow_last]. rewrite HsG. cbn [removelast app].
    fold m. rewrite Hmb, Hqk. reflexivity. }
  assert (HV : rearrange_values m (narrow_last qk dm G) = Ok Vt).
  { unfold rearrange_values. cbn [size narrow_last]. rewrite HsG. cbn [removelast app].
    rewrite Hmb, Hdm. reflexivity. }
  assert (HQ : rearrange_heads m q_pix = Ok Qt).
  { unfold rearrange_heads. rewrite Hq_pix. rewrite Hmb, Hqk. reflexivity. }
  destruct (@attention_core Qt Kt Vt s (n * p) m w3q (qk / m) (k * w3) (dm / m)
              eq_refl eq_refl eq_refl)
    as [A [S [O [HA [HS [HO [HsS [HsO HdO]]]]]]]].
  exists L, O, W, I, S, G.
  split; [exact HL|]. split; [exact HsL|]. split; [exact Hfw|]. split; [exact HG|].
  split.
  { unfold BiLevelRoutingAttention.routed_attention.
    rewrite Hfw. cbn [bind]. rewrite HG. cbn [bind].
    fold qk dm m s.
    rewrite (@split2_5d G n p k w3 qk dm HsG). cbn [bind].
    rewrite HK. cbn [bind]. rewrite HV. cbn [bind]. rewrite HQ. cbn [bind].
    rewrite HA. cbn [bind]. rewrite HS. cbn [bind]. rewrite HO. reflexivity. }
  repeat (split; [assumption|]).
  intros b h x c. rewrite HdO. reflexivity.
Qed.

End RoutedAttention.

(** ** Sums over a merged axis and over a permutation *)

Lemma sumR_perm (l l' : list R) : Permutation l l' -> sumR l = sumR l'.
Proof.
  intros H. induction H; simpl; lra.
Qed.

Lemma Rsum_S (n : nat) (f : nat -> R) : Rsum (S n) f = (Rsum n f + f n)%R.
Proof.
  unfold Rsum. rewrite seq_S, map_app, sumR_app. simpl. lra.
Qed.

Lemma map_add_seq (a s b : nat) : map (fun i => a + i) (seq s b) = seq (a + s) b.
Proof.
  revert s. induction b as [|b IH]; intros s; cbn [seq map]; [reflexivity|].
  f_equal. rewrite IH. rewrite Nat.add_succ_r. reflexivity.
Qed.

Lemma Rsum_add (a b : nat) (f : nat -> R) :
  Rsum (a + b) f = (Rsum a f + Rsum b (fun i => f (a + i)%nat))%R.
Proof.
  unfold Rsum. rewrite seq_app, map_app, sumR_app. f_equal.
  cbn [Nat.add]. rewrite <- (Nat.add_0_r a) at 1.
  rewrite <- map_add_seq. rewrite map_map. reflexivity.
Qed.

Lemma Rsum_div_mod (a w : nat) (F : nat -> nat -> R) :
  Rsum (a * w) (fun l => F (l / w) (l mod w)) = Rsum a (fun j => Rsum w (fun t => F j t)).
Proof.
  induction a as [|a IH].
  - reflexivity.
  - rewrite Rsum_S. rewrite <- IH.
    replace (S a * w) with (a * w + w) by lia.
    rewrite Rsum_add. f_equal.
    apply Rsum_ext. intros i Hi.
    rewrite (Nat.add_comm (a * w) i), Nat.add_comm.
    rewrite div_mul_add, mod_mul_add by exact Hi. reflexivity.
Qed.

Lemma Rsum_perm (a : nat) (r : nat -> nat) (H : nat -> R) :
  Permutation (map r (seq 0 a)) (seq 0 a) ->
  Rsum a (fun j => H (r j)) = Rsum a H.
Proof.
  intros Hp. unfold Rsum.
  rewrite <- (map_map r H). apply sumR_perm. apply Permutation_map. exact Hp.
Qed.

(** Attention over all windows does not depend on the order in which
    the windows are gathered. *)
Lemma Rsum_windows_perm (p w : nat) (r : nat -> nat) (F : nat -> nat -> R) :
  Permutation (map r (seq 0 p)) (seq 0 p) ->
  Rsum (p * w) (fun l => F (r (l / w)) (l mod w)) =
  Rsum (p * w) (fun l => F (l / w) (l mod w)).
Proof.
  intros Hp.
  rewrite (Rsum_div_mod p w (fun j t => F (r j) t)).
  rewrite (Rsum_div_mod p w F).
  apply (@Rsum_perm p r (fun j => Rsum w (fun t => F j t)) Hp).
Qed.

Lemma attention_windows_perm (p w : nat) (r : nat -> nat) (lg val : nat -> nat -> R) :
  Permutation (map r (seq 0 p)) (seq 0 p) ->
  Rsum (p * w) (fun l =>
    (exp (lg (r (l / w)%nat) (l mod w)) /
     Rsum (p * w) (fun l' => exp (lg (r (l' / w)%nat) (l' mod w))) *
     val (r (l / w)%nat) (l mod w))%R) =
  Rsum (p * w) (fun l =>
    (exp (lg (l / w)%nat (l mod w)) /
     Rsum (p * w) (fun l' => exp (lg (l' / w)%nat (l' mod w))) *
     val (l / w)%nat (l mod w))%R).
Proof.
  intros Hp.
  rewrite (@Rsum_windows_perm p w r (fun j t => exp (lg j t)) Hp).
  apply (@Rsum_windows_perm p w r
           (fun j t => (exp (lg j t) /
                        Rsum (p * w) (fun l' => exp (lg (l' / w)%nat (l' mod w))) *
                        val j t)%R) Hp).
Qed.

Lemma full_selection_perm (L : Tensor R) (I : Tensor Z) (p b i : nat) :
  (forall j, data I [b; i; j] =
             Z.of_nat (fst (nth j (topk_list Rgtb p (row L [b; i] p)) no_entry))) ->
  Permutation (map (fun j => Z.to_nat (data I [b; i; j])) (seq 0 p)) (seq 0 p).
Proof.
  intros HdI.
  pose proof (topk_list_all Rgtb (row L [b; i] p)) as Hall.
  rewrite length_row in Hall.
  assert (Hlen : length (topk_list Rgtb p (row L [b; i] p)) = p).
  { apply topk_list_length. rewrite length_row. lia. }
  replace (map (fun j => Z.to_nat (data I [b; i; j])) (seq 0 p))
    with (map fst (topk_list Rgtb p (row L [b; i] p))); [exact Hall|].
  rewrite <- (map_nth_seq (topk_list Rgtb p (row L [b; i] p)) no_entry) at 1.
  rewrite map_map, Hlen. apply map_ext. intros j.
  rewrite HdI, Nat2Z.id. reflexivity.
Qed.

(** C9, as amended: when [topk] equals the number [p] of windows and
    the gatherer copies without weighting ([mul_weight = 'none'], that
    is [soft_routing=False] and [diff_routing=False]), the routing
    indices of every query window are a permutation of all [p] windows,
    and the routed attention returns the same tensor as unrestricted
    windowed attention over the whole pooled key/value set (scalars are
    real numbers, so the order of summation does not matter). *)
Theorem C9_full_topk_is_unrestricted_attention :
  forall (self : BiLevelRoutingAttention.t) (q_win k_win q_pix kv_pix : Tensor R)
         (n p w3q w3 : nat),
    let m := BiLevelRoutingAttention.num_heads self in
    let qk := BiLevelRoutingAttention.qk_dim self in
    let dm := BiLevelRoutingAttention.dim self in
    (TopkRouting.emb (BiLevelRoutingAttention.router self) = Identity \/
     exists th, TopkRouting.emb (BiLevelRoutingAttention.router self) = Linear qk qk th) ->
    KVGather.mul_weight (BiLevelRoutingAttention.kv_gather self) = "none"%string ->
    TopkRouting.topk (BiLevelRoutingAttention.router self) = p ->
    0 < m -> qk mod m = 0 -> dm mod m = 0 ->
    size q_win = [n; p; qk] ->
    size k_win = [n; p; qk] ->
    size q_pix = [n; p; w3q; qk] ->
    size kv_pix = [n; p; w3; qk + dm] ->
    exists out r_weight r_idx attn_weight,
      BiLevelRoutingAttention.routed_attention self q_win k_win q_pix kv_pix
        = Ok (out, r_weight, r_idx, attn_weight) /\
      (forall b i, b < n -> i < p ->
         Permutation (map Z.to_nat (row r_idx [b; i] p)) (seq 0 p)) /\
      teq out (full_attention (BiLevelRoutingAttention.scale self) m qk dm q_pix kv_pix).
Proof.
  intros self q_win k_win q_pix kv_pix n p w3q w3 m qk dm
         Hemb Hnone Hk Hm Hqk Hdm Hq_win Hk_win Hq_pix Hkv_pix.
  subst m qk dm.
  assert (Hkp : TopkRouting.topk (BiLevelRoutingAttention.router self) <= p) by lia.
  destruct (@routed_attention_spec self q_win k_win q_pix kv_pix n p w3q w3
              Hemb Hkp Hm Hqk Hdm Hq_win Hk_win Hq_pix Hkv_pix (or_introl Hnone))
    as [L [O [W [I [S [G [HL [HsL [Hfw [HG [Hra [HsO [HsW [HsI [HsS [HdI [HrI HdO]]]]]]]]]]]]]]]]].
  rewrite Hk in *.
  set (m := BiLevelRoutingAttention.num_heads self) in *.
  set (qk := BiLevelRoutingAttention.qk_dim self) in *.
  set (dm := BiLevelRoutingAttention.dim self) in *.
  destruct (kv_gather_forward_spec I W kv_pix Hkv_pix HsI HsW HrI)
    as [[Gn [HGn [_ HdGn]]] _].
  assert (HGeq : G = Gn).
  { destruct (BiLevelRoutingAttention.kv_gather self) as [mode]. cbn in Hnone. subst mode.
    congruence. }
  subst Gn.
  exists O, W, I, S. split; [exact Hra|]. split.
  { intros b i _ _. unfold row. rewrite map_map. cbn [app].
    apply (full_selection_perm L I). intros j. apply HdI. }
  unfold teq, full_attention. rewrite Hq_pix, Hkv_pix, HsO.
  cbn [size data]. split; [reflexivity|].
  intros idx Hidx. inrange_inv Hidx.
  rename i into b, i0 into h, i1 into x, i2 into c.
  rewrite HdO. unfold gathered_attention. cbv zeta.
  assert (Hp0 : p <> 0) by (intros E; rewrite E in Hi; lia).
  assert (Hbn : b / p < n) by (apply Nat.Div0.div_lt_upper_bound; lia).
  assert (Hbp : b mod p < p) by (apply Nat.mod_upper_bound; exact Hp0).
  assert (Hqk' : m * (qk / m) = qk) by (apply divisible_mul_div; [lia | exact Hqk]).
  assert (Hdm' : m * (dm / m) = dm) by (apply divisible_mul_div; [lia | exact Hdm]).
  assert (Hsel : forall l ch, l < p * w3 -> ch < qk + dm ->
            data G [b / p; b mod p; l / w3; l mod w3; ch] =
            data kv_pix [b / p; Z.to_nat (data I [b / p; b mod p; l / w3]); l mod w3; ch]).
  { intros l ch Hl Hch.
    assert (Hw0 : w3 <> 0) by (intros E; rewrite E in Hl; lia).
    apply HdGn; try assumption.
    - apply Nat.Div0.div_lt_upper_bound. lia.
    - apply Nat.mod_upper_bound. exact Hw0. }
  set (r := fun j => Z.to_nat (data I [b / p; b mod p; j])).
  set (lg := fun j t =>
         Rsum (qk / m) (fun z =>
           (data q_pix [b / p; b mod p; x; h * (qk / m) + z]%nat *
            BiLevelRoutingAttention.scale self *
            data kv_pix [b / p; j; t; h * (qk / m) + z]%nat)%R)).
  set (val := fun j t => data kv_pix [b / p; j; t; qk + (h * (dm / m) + c)]).
  assert (Hlogit : forall l, l < p * w3 ->
            Rsum (qk / m) (fun z =>
              (data q_pix [b / p; b mod p; x; h * (qk / m) + z]%nat *
               BiLevelRoutingAttention.scale self *
               data G [b / p; b mod p; l / w3; l mod w3; h * (qk / m) + z]%nat)%R) =
            lg (r (l / w3)) (l mod w3)).
  { intros l Hl. unfold lg, r. apply Rsum_ext. intros z Hz.
    rewrite Hsel; [reflexivity | exact Hl |].
    assert ((h + 1) * (qk / m) <= m * (qk / m)) by (apply Nat.mul_le_mono_r; lia).
    lia. }
  transitivity
    (Rsum (p * w3) (fun l =>
       (exp (lg (r (l / w3)%nat) (l mod w3)) /
        Rsum (p * w3) (fun l' => exp (lg (r (l' / w3)%nat) (l' mod w3))) *
        val (r (l / w3)%nat) (l mod w3))%R)).
  { apply Rsum_ext. intros l Hl. rewrite (Hlogit l Hl).
    f_equal; [f_equal|].
    - apply Rsum_ext. intros l' Hl'. rewrite (Hlogit l' Hl'). reflexivity.
    - unfold val, r. apply Hsel; [exact Hl|].
      assert ((h + 1) * (dm / m) <= m * (dm / m)) by (apply Nat.mul_le_mono_r; lia).
      lia. }
  rewrite (@attention_windows_perm p w3 r lg val).
  - reflexivity.
  - unfold r. apply (full_selection_perm L I). intros j. apply HdI.
Qed.

(** ** Soft routing with every window selected *)

Lemma Rsum_scal (n : nat) (c : R) (f : nat -> R) :
  Rsum n (fun l => (c * f l)%R) = (c * Rsum n f)%R.
Proof.
  induction n as [|n IH]; [unfold Rsum; simpl; lra|].
  rewrite !Rsum_S, IH. lra.
Qed.

Lemma Rsum_const (n : nat) (c : R) : Rsum n (fun _ => c) = (INR n * c)%R.
Proof.
  induction n as [|n IH]; [unfold Rsum; simpl; lra|].
  rewrite Rsum_S, IH, S_INR. lra.
Qed.

Lemma softmax_weights_sum (k : nat) (f : nat -> R) :
  0 < k ->
  Rsum k (fun j => (exp (f j) / Rsum k (fun l => exp (f l)))%R) = 1%R.
Proof.
  intros Hk. pose proof (Rsum_exp_pos f Hk) as Hpos.
  unfold Rsum at 1.
  rewrite (sumR_map_div (fun j => exp (f j))).
  fold (Rsum k (fun j => exp (f j))). field. lra.
Qed.

Lemma all_windows_module_constructed (soft_routing : bool) :
  BiLevelRoutingAttention.init pool_rejects (all_windows_args soft_routing) zero_weights
  = Ok (all_windows_module soft_routing).
Proof. destruct soft_routing; eval_init. Qed.

(** C9, where it fails: with [soft_routing=True] and all eight windows
    selected, every gathered block is multiplied by its routing weight,
    and the output differs from unrestricted attention.  Here every
    key is 0 and every value is 1: soft routing returns [1/8] where
    unrestricted attention returns [1].  (These are the tensors
    [forward] computes from any input when the projection has zero
    weights and bias [(0, 0, 1)].) *)
Lemma C9_soft_routing_differs :
  TopkRouting.topk (BiLevelRoutingAttention.router (all_windows_module true)) = 8 /\
  exists out r_weight r_idx attn_weight,
    BiLevelRoutingAttention.routed_attention (all_windows_module true)
      zero_summaries zero_summaries zero_queries unit_values
      = Ok (out, r_weight, r_idx, attn_weight) /\
    ~ teq out (full_attention unit_scale 1 1 1 zero_queries unit_values).
Proof.
  split; [reflexivity|].
  assert (Hemb : TopkRouting.emb (BiLevelRoutingAttention.router (all_windows_module true)) = Identity \/
                 exists th, TopkRouting.emb (BiLevelRoutingAttention.router (all_windows_module true))
                            = Linear (BiLevelRoutingAttention.qk_dim (all_windows_module true))
                                     (BiLevelRoutingAttention.qk_dim (all_windows_module true)) th)
    by (left; reflexivity).
  destruct (@routed_attention_spec (all_windows_module true)
              zero_summaries zero_summaries zero_queries unit_values
              1 8 1 1 Hemb (le_n 8) (le_n 1) eq_refl eq_refl eq_refl eq_refl eq_refl eq_refl
              (or_intror eq_refl))
    as [L [O [W [I [S [G [HL [HsL [Hfw [HG [Hra [HsO [HsW [HsI [HsS [HdI [HrI HdO]]]]]]]]]]]]]]]]].
  cbn [BiLevelRoutingAttention.num_heads BiLevelRoutingAttention.qk_dim
       BiLevelRoutingAttention.dim BiLevelRoutingAttention.router
       BiLevelRoutingAttention.kv_gather BiLevelRoutingAttention.scale
       all_windows_module TopkRouting.topk] in *.
  destruct (@kv_gather_forward_spec I W unit_values 1 8 8 1 2 eq_refl HsI HsW HrI)
    as [_ [[Gs [HGs [_ HdGs]]] _]].
  assert (HGeq : G = Gs) by congruence. subst Gs.
  destruct (@router_forward_from_logits _ _ _ L 1 8 8 HL HsL (le_n 8))
    as [W' [I' [Hfw' [_ [_ HdW]]]]].
  assert (HWeq : W' = W) by congruence. subst W'.
  cbn [TopkRouting.topk] in HdW.
  assert (Hsum : Rsum 8 (fun j => data W [0; 0; j]) = 1%R).
  { rewrite <- (@softmax_weights_sum 8
                   (fun j => snd (nth j (topk_list Rgtb 8 (row L [0; 0] 8)) no_entry)))
      by lia.
    apply Rsum_ext. intros j _. apply (proj2 (HdW 0 0 j)). }
  exists O, W, I, S. split; [exact Hra|].
  intros [_ Hteq].
  specialize (Hteq [0; 0; 0; 0]).
  rewrite HsO in Hteq.
  assert (Hin : InRange [0; 0; 0; 0] [1 * 8; 1; 1; 1 / 1])
    by (repeat constructor; cbn; lia).
  specialize (Hteq Hin). clear Hin.
  rewrite HdO in Hteq.
  assert (Hg : forall l ch, l < 8 -> ch < 2 ->
            data G [0; 0; l; 0; ch] =
            (data W [0; 0; l]%nat * (if (ch =? 0)%nat then 0 else 1))%R).
  { intros l ch Hl Hch. rewrite HdGs by lia. reflexivity. }
  assert (Hlhs : gathered_attention unit_scale 1 1 1 zero_queries (data G) 8 8 1 0 0 0 0
                 = (/ 8)%R).
  { unfold gathered_attention. cbv zeta.
    change (8 * 1) with 8. change (1 / 1) with 1.
    change (0 / 8) with 0. change (0 mod 8) with 0.
    cbn [Nat.mul Nat.add].
    transitivity (Rsum 8 (fun l => (/ 8 * data W [0; 0; l]%nat)%R)).
    - apply Rsum_ext. intros l Hl.
      assert (Hlog : forall l', l' < 8 ->
                exp (Rsum 1 (fun z => (data zero_queries [0; 0; 0; z]%nat * unit_scale *
                                       data G [0; 0; l' / 1; l' mod 1; z]%nat)%R)) = 1%R).
      { intros l' Hl'. unfold Rsum. cbn [seq map sumR fold_right zero_queries zeros data].
        replace (0 * unit_scale * data G [0; 0; l' / 1; l' mod 1; 0]%nat + 0)%R with 0%R by ring.
        apply exp_0. }
      rewrite (Hlog l Hl).
      rewrite (@Rsum_ext 8 _ (fun _ => 1%R)) by (intros l' Hl'; apply (Hlog l' Hl')).
      rewrite Rsum_const. rewrite Nat.div_1_r, Nat.mod_1_r. rewrite Hg by lia. cbn [Nat.eqb].
      replace (INR 8) with 8%R by (simpl; lra). field.
    - rewrite Rsum_scal, Hsum. lra. }
  assert (Hrhs : data (full_attention unit_scale 1 1 1 zero_queries unit_values) [0; 0; 0; 0]
                 = 1%R).
  { unfold full_attention. cbn [size zero_queries zeros unit_values data].
    change (8 * 1) with 8. change (1 / 1) with 1.
    cbn [Nat.mul Nat.add Nat.eqb].
    assert (Hlog :
              exp (Rsum 1 (fun z => (0 * unit_scale * (if (z =? 0)%nat then 0 else 1))%R)) = 1%R).
    { unfold Rsum. cbn [seq map sumR fold_right Nat.eqb].
      replace (0 * unit_scale * 0 + 0)%R with 0%R by ring. apply exp_0. }
    rewrite (@Rsum_ext 8 _ (fun _ => (/ 8)%R)).
    - rewrite Rsum_const. replace (INR 8) with 8%R by (simpl; lra). field.
    - intros l Hl. rewrite Hlog.
      rewrite Rsum_const. replace (INR 8) with 8%R by (simpl; lra). field. }
  rewrite Hlhs, Hrhs in Hteq. lra.
Qed.

Lemma C9_full_topk_is_unrestricted_attention_witness :
  exists out r_weight r_idx attn_weight,
    BiLevelRoutingAttention.routed_attention (all_windows_module false)
      zero_summaries zero_summaries zero_queries unit_values
      = Ok (out, r_weight, r_idx, attn_weight) /\
    (forall b i, b < 1 -> i < 8 ->
       Permutation (map Z.to_nat (row r_idx [b; i] 8)) (seq 0 8)) /\
    teq out (full_attention unit_scale 1 1 1 zero_queries unit_values).
Proof.
  apply (@C9_full_topk_is_unrestricted_attention (all_windows_module false)
           zero_summaries zero_summaries zero_queries unit_values 1 8 1 1);
    solve [reflexivity | lia | left; reflexivity].
Defined.

(** ** The forward pass *)

Lemma qkv_forward_6d (self : QKVLinear.t) (x : Tensor R) (a b c d e : nat) :
  size x = [a; b; c; d; e; QKVLinear.dim self] ->
  exists q kv k v,
    QKVLinear.forward self x = Ok (q, kv, k, v) /\
    size q = [a; b; c; d; e; QKVLinear.qk_dim self] /\
    size kv = [a; b; c; d; e; QKVLinear.qk_dim self + QKVLinear.dim self] /\
    size k = [a; b; c; d; e; QKVLinear.qk_dim self] /\
    size v = [a; b; c; d; e; QKVLinear.dim self].
Proof.
  intros Hx. unfold QKVLinear.forward, linear. rewrite Hx.
  cbn [length Nat.leb last andb]. rewrite Nat.eqb_refl.
  cbn [require bind removelast app].
  unfold split. cbn [size length Nat.leb last andb fold_right].
  set (qk := QKVLinear.qk_dim self). set (dm := QKVLinear.dim self).
  replace (qk + (qk + (dm + 0)) =? qk + qk + dm) with true
    by (symmetry; apply Nat.eqb_eq; lia).
  cbn [require bind split_from].
  unfold cat. cbn [size narrow_last removelast app length Nat.leb last andb].
  rewrite list_eqb_refl. cbn [require bind andb].
  do 4 eexists. split; [reflexivity|].
  repeat split; reflexivity.
Qed.

Lemma mean_234_6d (t : Tensor R) (a b d h w c : nat) :
  size t = [a; b; d; h; w; c] ->
  exists y, mean_234 t = Ok y /\ size y = [a; b; c].
Proof.
  intros Ht. unfold mean_234. rewrite Ht. eexists. split; reflexivity.
Qed.

Lemma call_same_width (l : Layer) (x : Tensor R) (pre : list nat) (c : nat) :
  (l = Identity \/ exists th, l = Linear c c th) ->
  size x = pre ++ [c] ->
  exists y, call l x = Ok y /\ size y = pre ++ [c].
Proof.
  intros [E | [th E]] Hx; subst l; cbn [call].
  - eauto.
  - unfold linear. rewrite Hx, length_app, last_last, removelast_last.
    cbn [length]. replace (1 <=? length pre + 1) with true
      by (symmetry; apply Nat.leb_le; lia).
    rewrite Nat.eqb_refl. cbn [andb require bind].
    eexists. split; reflexivity.
Qed.

Section Forward.
Variable self : BiLevelRoutingAttention.t.
Variable x : Tensor R.
Variable ret_attn_mask : bool.
Variable pd : BiLevelRoutingAttention.Padded.
Variables N D H W : nat.

Hypothesis Hwf : well_formed self.
Hypothesis Hdown : BiLevelRoutingAttention.kv_down self = Identity.
Hypothesis Hmode :
  KVGather.mul_weight (BiLevelRoutingAttention.kv_gather self) = "none"%string \/
  KVGather.mul_weight (BiLevelRoutingAttention.kv_gather self) = "soft"%string.
Hypothesis Htopk : BiLevelRoutingAttention.topk self <= (BiLevelRoutingAttention.n_win self) * (BiLevelRoutingAttention.n_win self) * (BiLevelRoutingAttention.n_win self).
Hypothesis Hpad : BiLevelRoutingAttention.pad_input self x = Ok pd.
Hypothesis Hsize : size (BiLevelRoutingAttention.padded_x pd) = [N; D; H; W; (BiLevelRoutingAttention.dim self)].
Hypothesis HextD : BiLevelRoutingAttention.ext_D pd = D.
Hypothesis HextH : BiLevelRoutingAttention.ext_H pd = H.
Hypothesis HextW : BiLevelRoutingAttention.ext_W pd = W.
Hypothesis Hnw : 0 < (BiLevelRoutingAttention.n_win self).
Hypothesis HD : D mod (BiLevelRoutingAttention.n_win self) = 0.
Hypothesis HH : H mod (BiLevelRoutingAttention.n_win self) = 0.
Hypothesis HW : W mod (BiLevelRoutingAttention.n_win self) = 0.

Lemma forward_Ok :
  exists out r_weight r_idx attn_weight q k v,
    BiLevelRoutingAttention.forward self x ret_attn_mask =
      Ok (if ret_attn_mask
          then [FloatTensor out; FloatTensor r_weight; LongTensor r_idx;
                FloatTensor attn_weight; FloatTensor q; FloatTensor k; FloatTensor v]
          else [FloatTensor out; FloatTensor q; FloatTensor k; FloatTensor v]) /\
    size out = cropped_size (BiLevelRoutingAttention.crop pd) N D H W (BiLevelRoutingAttention.dim self).
Proof.
  destruct Hwf as [Hm [Hqk [Hdm [Hqd [Hqq [Hrk [Hemb Hwo]]]]]]].
  set (m := BiLevelRoutingAttention.num_heads self) in *.
  set (qk := BiLevelRoutingAttention.qk_dim self) in *.
  set (p3 := (BiLevelRoutingAttention.n_win self) * (BiLevelRoutingAttention.n_win self) * (BiLevelRoutingAttention.n_win self)) in *.
  set (d := D / (BiLevelRoutingAttention.n_win self)). set (h := H / (BiLevelRoutingAttention.n_win self)). set (w := W / (BiLevelRoutingAttention.n_win self)).
  assert (Hnwb : (0 <? (BiLevelRoutingAttention.n_win self)) = true) by (apply Nat.ltb_lt; exact Hnw).
  assert (Hp3 : p3 <> 0) by (unfold p3; nia).
  (* partition *)
  assert (Hpart : exists xw, rearrange_partition (BiLevelRoutingAttention.n_win self) (BiLevelRoutingAttention.padded_x pd) = Ok xw /\
                             size xw = [N; p3; d; h; w; (BiLevelRoutingAttention.dim self)]).
  { unfold rearrange_partition. rewrite Hsize, Hnwb, HD, HH, HW.
    eexists. split; reflexivity. }
  destruct Hpart as [xw [Hxw Hsxw]].
  (* projection *)
  rewrite <- Hqd in Hsxw.
  destruct (qkv_forward_6d (BiLevelRoutingAttention.qkv self) xw Hsxw)
    as [q [kv [k [v [Hqkv [Hsq [Hskv [Hsk Hsv]]]]]]]].
  rewrite Hqd, Hqq in *. clear Hsxw.
  (* pixel layouts *)
  assert (Hqpix : exists q_pix, rearrange_flatten_pixels q = Ok q_pix /\
                                size q_pix = [N; p3; d * h * w; qk]).
  { unfold rearrange_flatten_pixels. rewrite Hsq. eexists. split; reflexivity. }
  destruct Hqpix as [q_pix [Hq_pix Hsq_pix]].
  assert (Hkvpix : exists kv_cf kv_pix,
            rearrange_channel_first kv = Ok kv_cf /\
            rearrange_kv_pixels (BiLevelRoutingAttention.n_win self) kv_cf = Ok kv_pix /\
            size kv_pix = [N; p3; d * h * w; qk + (BiLevelRoutingAttention.dim self)]).
  { unfold rearrange_channel_first. rewrite Hskv.
    eexists. eexists. split; [reflexivity|].
    unfold rearrange_kv_pixels. cbn [size]. fold p3.
    rewrite Hnwb, Nat.Div0.mod_mul, Nat.eqb_refl. cbn [andb require bind].
    split; [reflexivity|]. cbn [size]. rewrite Nat.div_mul by exact Hp3. reflexivity. }
  destruct Hkvpix as [kv_cf [kv_pix [Hkv_cf [Hkv_pix Hskv_pix]]]].
  (* window summaries *)
  destruct (mean_234_6d q Hsq) as [q_win [Hq_win Hsq_win]].
  assert (Hkwin : exists k_part k_win,
            slice_last qk kv = Ok k_part /\ mean_234 k_part = Ok k_win /\
            size k_win = [N; p3; qk]).
  { unfold slice_last. rewrite Hskv. cbn [length Nat.leb require bind last].
    rewrite Nat.min_l by lia.
    assert (Hs : size (narrow_last 0 qk kv) = [N; p3; d; h; w; qk])
      by (cbn [size narrow_last]; rewrite Hskv; reflexivity).
    destruct (mean_234_6d _ Hs) as [k_win [Hk_win Hsk_win]].
    eauto. }
  destruct Hkwin as [k_part [k_win [Hk_part [Hk_win Hsk_win]]]].
  (* routing, gathering, attention *)
  assert (Hkp : TopkRouting.topk (BiLevelRoutingAttention.router self) <= p3)
    by (rewrite Hrk; exact Htopk).
  destruct (@routed_attention_spec self q_win k_win q_pix kv_pix N p3 (d * h * w) (d * h * w)
              Hemb Hkp Hm Hqk Hdm Hsq_win Hsk_win Hsq_pix Hskv_pix Hmode)
    as [L [O [Wt [I [S [G [_ [_ [_ [_ [Hra [HsO _]]]]]]]]]]]].
  (* reassembly *)
  assert (Hre : exists out1,
            rearrange_reassemble (BiLevelRoutingAttention.n_win self) d h w O = Ok out1 /\ size out1 = [N; D; H; W] ++ [(BiLevelRoutingAttention.dim self)]).
  { unfold rearrange_reassemble. rewrite HsO. fold p3.
    rewrite Hnwb, Nat.Div0.mod_mul, !Nat.eqb_refl. cbn [andb require bind].
    eexists. split; [reflexivity|]. cbn [size app].
    rewrite Nat.div_mul by exact Hp3.
    unfold d, h, w.
    rewrite !divisible_mul_div by (assumption || lia). reflexivity. }
  destruct Hre as [out1 [Hout1 Hsout1]].
  destruct (@call_same_width (BiLevelRoutingAttention.wo self) out1 [N; D; H; W] _ Hwo Hsout1)
    as [out2 [Hout2 Hsout2]].
  cbn [app] in Hsout2.
  assert (Hcrop : exists out,
            BiLevelRoutingAttention.crop_output (BiLevelRoutingAttention.crop pd) out2 = Ok out /\
            size out = cropped_size (BiLevelRoutingAttention.crop pd) N D H W (BiLevelRoutingAttention.dim self)).
  { unfold BiLevelRoutingAttention.crop_output, cropped_size.
    destruct (BiLevelRoutingAttention.crop pd) as [[[[pad_r pad_b] H_in] W_in]|]; [|eauto].
    destruct ((0 <? pad_r) || (0 <? pad_b)); [|eauto].
    unfold getitem_slices. rewrite Hsout2. cbn [slice_shape option_map].
    eexists. split; reflexivity. }
  destruct Hcrop as [out [Hout Hsout]].
  exists out, Wt, I, S, q, k, v. split; [|exact Hsout].
  unfold BiLevelRoutingAttention.forward.
  rewrite Hpad. cbn [bind]. rewrite Hxw. cbn [bind].
  rewrite Hqkv. cbn [bind]. rewrite Hq_pix. cbn [bind]. rewrite Hkv_cf. cbn [bind].
  rewrite Hdown. cbn [call bind]. rewrite Hkv_pix. cbn [bind].
  rewrite Hq_win. cbn [bind]. fold qk. rewrite Hk_part. cbn [bind].
  rewrite Hk_win. cbn [bind]. rewrite Hra. cbn [bind].
  rewrite HextD, HextH, HextW. fold d h w. rewrite Hout1. cbn [bind].
  rewrite Hout2. cbn [bind]. rewrite Hout. cbn [bind].
  destruct ret_attn_mask; reflexivity.
Qed.

End Forward.

Lemma pad_amount_divisible (n_win extent : nat) :
  0 < n_win -> extent mod n_win = 0 ->
  BiLevelRoutingAttention.pad_amount n_win extent = Ok 0.
Proof.
  intros Hn He. unfold BiLevelRoutingAttention.pad_amount, py_mod.
  replace (n_win =? 0) with false by (symmetry; apply Nat.eqb_neq; lia).
  cbn [bind]. rewrite He, Nat.sub_0_r, Nat.Div0.mod_same. reflexivity.
Qed.

(** When every spatial extent is divisible by [n_win] no padding is
    needed and [forward] returns an output of the shape of its input,
    with or without [auto_pad]. *)
Lemma forward_preserves_shape_when_divisible
    (self : BiLevelRoutingAttention.t) (x : Tensor R) (ret_attn_mask : bool)
    (N D H W : nat) :
  well_formed self ->
  BiLevelRoutingAttention.kv_down self = Identity ->
  (KVGather.mul_weight (BiLevelRoutingAttention.kv_gather self) = "none"%string \/
   KVGather.mul_weight (BiLevelRoutingAttention.kv_gather self) = "soft"%string) ->
  BiLevelRoutingAttention.topk self <=
    BiLevelRoutingAttention.n_win self * BiLevelRoutingAttention.n_win self
    * BiLevelRoutingAttention.n_win self ->
  size x = [N; D; H; W; BiLevelRoutingAttention.dim self] ->
  0 < BiLevelRoutingAttention.n_win self ->
  D mod BiLevelRoutingAttention.n_win self = 0 ->
  H mod BiLevelRoutingAttention.n_win self = 0 ->
  W mod BiLevelRoutingAttention.n_win self = 0 ->
  exists out r_weight r_idx attn_weight q k v,
    BiLevelRoutingAttention.forward self x ret_attn_mask =
      Ok (if ret_attn_mask
          then [FloatTensor out; FloatTensor r_weight; LongTensor r_idx;
                FloatTensor attn_weight; FloatTensor q; FloatTensor k; FloatTensor v]
          else [FloatTensor out; FloatTensor q; FloatTensor k; FloatTensor v]) /\
    size out = size x.
Proof.
  intros Hwf Hdown Hmode Htopk Hx Hnw HD HH HW.
  assert (Hpad : exists pd,
            BiLevelRoutingAttention.pad_input self x = Ok pd /\
            size (BiLevelRoutingAttention.padded_x pd)
              = [N; D; H; W; BiLevelRoutingAttention.dim self] /\
            BiLevelRoutingAttention.ext_D pd = D /\
            BiLevelRoutingAttention.ext_H pd = H /\
            BiLevelRoutingAttention.ext_W pd = W /\
            cropped_size (BiLevelRoutingAttention.crop pd) N D H W
              (BiLevelRoutingAttention.dim self)
              = [N; D; H; W; BiLevelRoutingAttention.dim self]).
  { unfold BiLevelRoutingAttention.pad_input. rewrite Hx.
    destruct (BiLevelRoutingAttention.auto_pad self).
    - rewrite !pad_amount_divisible by assumption. cbn [bind].
      unfold F_pad. rewrite Hx.
      cbn [rev app pad_shape_rev option_map Nat.add size].
      rewrite !Nat.add_0_r.
      eexists. split; [reflexivity|].
      cbn [BiLevelRoutingAttention.padded_x BiLevelRoutingAttention.ext_D
           BiLevelRoutingAttention.ext_H BiLevelRoutingAttention.ext_W
           BiLevelRoutingAttention.crop size cropped_size Nat.ltb Nat.leb orb].
      repeat split; reflexivity.
    - unfold py_mod.
      replace (BiLevelRoutingAttention.n_win self =? 0) with false
        by (symmetry; apply Nat.eqb_neq; lia).
      cbn [bind]. rewrite HD, HH, HW. cbn [Nat.eqb andb assert bind].
      eexists. split; [reflexivity|]. repeat split; exact Hx || reflexivity. }
  destruct Hpad as [pd [Hpd [Hs [HeD [HeH [HeW Hc]]]]]].
  destruct (@forward_Ok self x ret_attn_mask pd N D H W
              Hwf Hdown Hmode Htopk Hpd Hs HeD HeH HeW Hnw HD HH HW)
    as [out [rw [ri [aw [q [k [v [Hf Hsz]]]]]]]].
  exists out, rw, ri, aw, q, k, v. split; [exact Hf|].
  rewrite Hsz, Hc, Hx. reflexivity.
Qed.

(** ** Modules returned by the constructor *)

Lemma init_inv (nn : Pooling) (a : BiLevelRoutingAttention.Args.t)
    (wts : BiLevelRoutingAttention.Weights) (self : BiLevelRoutingAttention.t) :
  BiLevelRoutingAttention.init nn a wts = Ok self ->
  well_formed self /\
  BiLevelRoutingAttention.kv_gather self =
    KVGather.mk (if BiLevelRoutingAttention.Args.soft_routing a then "soft"
                 else if BiLevelRoutingAttention.Args.diff_routing a then "hard"
                 else "none") /\
  BiLevelRoutingAttention.n_win self = BiLevelRoutingAttention.Args.n_win a /\
  BiLevelRoutingAttention.topk self = BiLevelRoutingAttention.Args.topk a /\
  BiLevelRoutingAttention.dim self = BiLevelRoutingAttention.Args.dim a /\
  BiLevelRoutingAttention.auto_pad self = BiLevelRoutingAttention.Args.auto_pad a /\
  BiLevelRoutingAttention.init_kv_down nn (BiLevelRoutingAttention.Args.kv_downsample_mode a)
    (BiLevelRoutingAttention.Args.kv_per_win a)
    (BiLevelRoutingAttention.Args.kv_downsample_ratio a)
    = Ok (BiLevelRoutingAttention.kv_down self).
Proof.
  unfold BiLevelRoutingAttention.init. intros H.
  apply bind_Ok in H. destruct H as [r1 [Hr1 H]].
  apply bind_Ok in H. destruct H as [r2 [Hr2 H]].
  apply bind_Ok in H. destruct H as [u1 [Ha1 H]].
  apply bind_Ok in H. destruct H as [s [Hs H]].
  apply bind_Ok in H. destruct H as [u2 [Ha2 H]].
  apply bind_Ok in H. destruct H as [router [Hrouter H]].
  apply bind_Ok in H. destruct H as [g [Hg H]].
  apply bind_Ok in H. destruct H as [[qkv wo] [Hpa H]].
  apply bind_Ok in H. destruct H as [kv_down [Hdown H]].
  inversion H; subst self; clear H.
  cbn [BiLevelRoutingAttention.kv_gather BiLevelRoutingAttention.n_win
       BiLevelRoutingAttention.topk BiLevelRoutingAttention.dim
       BiLevelRoutingAttention.auto_pad BiLevelRoutingAttention.kv_down].
  unfold py_mod in Hr1, Hr2.
  destruct (BiLevelRoutingAttention.Args.num_heads a =? 0) eqn:Hnh; [discriminate|].
  apply Nat.eqb_neq in Hnh.
  inversion Hr1; subst r1. inversion Hr2; subst r2.
  apply assert_Ok in Ha1. apply andb_prop in Ha1. destruct Ha1 as [Hm1 Hm2].
  apply Nat.eqb_eq in Hm1. apply Nat.eqb_eq in Hm2.
  rewrite (@router_init_Ok _ _ _ _ _ _ _ Hs) in Hrouter. inversion Hrouter; subst router.
  assert (Hg' : g = KVGather.mk
                      (if BiLevelRoutingAttention.Args.soft_routing a then "soft"
                       else if BiLevelRoutingAttention.Args.diff_routing a then "hard"
                       else "none")).
  { unfold KVGather.init in Hg. apply bind_Ok in Hg. destruct Hg as [u [_ Hg]].
    congruence. }
  assert (Hqkvwo : qkv = QKVLinear.init (BiLevelRoutingAttention.Args.dim a)
                          (or_default (BiLevelRoutingAttention.Args.qk_dim a)
                                      (BiLevelRoutingAttention.Args.dim a))
                          (BiLevelRoutingAttention.qkv_weights wts) /\
                   (wo = Identity \/
                    exists th, wo = Linear (BiLevelRoutingAttention.Args.dim a)
                                           (BiLevelRoutingAttention.Args.dim a) th)).
  { destruct (String.eqb (BiLevelRoutingAttention.Args.param_attention a) "qkvo").
    - inversion Hpa. split; [reflexivity|]. right. eauto.
    - destruct (String.eqb (BiLevelRoutingAttention.Args.param_attention a) "qkv");
        [|discriminate].
      inversion Hpa. split; [reflexivity|]. left. reflexivity. }
  destruct Hqkvwo as [Hqkv Hwo]. subst qkv.
  split.
  { unfold well_formed. cbn.
    repeat split; try assumption; try reflexivity; try lia.
    destruct (BiLevelRoutingAttention.Args.param_routing a); eauto. }
  repeat split; assumption || reflexivity.
Qed.

(** ** Hard differentiable routing *)

(** One step of a chain of binds: case analysis on its first action. *)
Ltac bind_step :=
  match goal with
  | |- context [bind ?m _] =>
      let E := fresh "E" in
      destruct m eqn:E; cbn [bind]
  end.

Lemma kv_gather_hard (r_idx : Tensor Z) (r_weight kv : Tensor R) :
  (exists e, KVGather.forward (KVGather.mk "hard") r_idx r_weight kv = Raise e) /\
  (forall out, KVGather.forward (KVGather.mk "none") r_idx r_weight kv = Ok out ->
               KVGather.forward (KVGather.mk "hard") r_idx r_weight kv
               = Raise NotImplementedError).
Proof.
  unfold KVGather.forward. cbn [KVGather.mul_weight String.eqb Ascii.eqb Bool.eqb].
  destruct (size kv) as [|n [|p2 [|w2 [|c [|? ?]]]]];
    try (split; [eauto | intros; discriminate]).
  repeat (bind_step; [|split; [eauto | intros; discriminate]]).
  split; [eauto | reflexivity].
Qed.

Lemma routed_attention_hard (self : BiLevelRoutingAttention.t)
    (q_win k_win q_pix kv_pix : Tensor R) :
  KVGather.mul_weight (BiLevelRoutingAttention.kv_gather self) = "hard"%string ->
  (exists e, BiLevelRoutingAttention.routed_attention self q_win k_win q_pix kv_pix
             = Raise e) /\
  (forall r, BiLevelRoutingAttention.routed_attention (with_mul_weight "none" self)
               q_win k_win q_pix kv_pix = Ok r ->
             BiLevelRoutingAttention.routed_attention self q_win k_win q_pix kv_pix
             = Raise NotImplementedError).
Proof.
  intros Hhard. unfold BiLevelRoutingAttention.routed_attention.
  cbn [with_mul_weight BiLevelRoutingAttention.router BiLevelRoutingAttention.kv_gather
       BiLevelRoutingAttention.qk_dim BiLevelRoutingAttention.dim
       BiLevelRoutingAttention.num_heads BiLevelRoutingAttention.scale].
  destruct (BiLevelRoutingAttention.kv_gather self) as [mode]. cbn in Hhard. subst mode.
  destruct (TopkRouting.forward (BiLevelRoutingAttention.router self) q_win k_win)
    as [[r_weight r_idx]|e]; cbn [bind]; [|split; [eauto | intros; discriminate]].
  destruct (kv_gather_hard r_idx r_weight kv_pix) as [[e He] Hnone].
  rewrite He. cbn [bind]. split; [eauto|].
  intros r Hr.
  destruct (KVGather.forward (KVGather.mk "none") r_idx r_weight kv_pix) as [G|e'] eqn:EG;
    cbn [bind] in Hr; [|discriminate].
  specialize (Hnone G eq_refl). congruence.
Qed.

(** With the gatherer in ['hard'] mode no call of [forward] returns, and
    a call that would return with the gatherer in ['none'] mode raises
    [NotImplementedError]. *)
Lemma forward_hard (self : BiLevelRoutingAttention.t) (x : Tensor R) (ret_attn_mask : bool) :
  KVGather.mul_weight (BiLevelRoutingAttention.kv_gather self) = "hard"%string ->
  (exists e, BiLevelRoutingAttention.forward self x ret_attn_mask = Raise e) /\
  (forall outs,
     BiLevelRoutingAttention.forward (with_mul_weight "none" self) x ret_attn_mask = Ok outs ->
     BiLevelRoutingAttention.forward self x ret_attn_mask = Raise NotImplementedError).
Proof.
  intros Hhard. unfold BiLevelRoutingAttention.forward.
  change (BiLevelRoutingAttention.pad_input (with_mul_weight "none" self) x)
    with (BiLevelRoutingAttention.pad_input self x).
  cbn [with_mul_weight BiLevelRoutingAttention.n_win BiLevelRoutingAttention.qkv
       BiLevelRoutingAttention.kv_down BiLevelRoutingAttention.qk_dim
       BiLevelRoutingAttention.wo].
  do 3 (bind_step; [|split; [eauto | intros; discriminate]]).
  match goal with
  | t : (Tensor R * Tensor R * Tensor R * Tensor R)%type |- _ =>
      destruct t as [[[q kv] k] v]
  end.
  do 7 (bind_step; [|split; [eauto | intros; discriminate]]).
  match goal with
  | |- context [BiLevelRoutingAttention.routed_attention self ?qw ?kw ?qp ?kp] =>
      destruct (routed_attention_hard self qw kw qp kp Hhard) as [[e He] Hnone];
      rewrite He; cbn [bind]; split; [eauto|];
      intros outs Houts;
      destruct (BiLevelRoutingAttention.routed_attention (with_mul_weight "none" self)
                  qw kw qp kp) as [r|e'] eqn:Er; cbn [bind] in Houts; [|discriminate];
      specialize (Hnone r eq_refl); congruence
  end.
Qed.

(** ** The end-to-end scenario *)

Lemma scenario_module_constructed (diff_routing auto_pad : bool) :
  BiLevelRoutingAttention.init pool_rejects
    (with_auto_pad auto_pad (with_routing false diff_routing false scenario_args))
    zero_weights
  = Ok (scenario_module diff_routing auto_pad).
Proof. destruct diff_routing, auto_pad; eval_init. Qed.

Lemma scenario_module_well_formed (auto_pad : bool) :
  well_formed (scenario_module false auto_pad).
Proof.
  unfold well_formed. cbn.
  repeat split; try reflexivity; try lia.
  - left. reflexivity.
  - right. eexists. reflexivity.
Qed.

Lemma scenario_forward (ret_attn_mask : bool) :
  exists out r_weight r_idx attn_weight q k v,
    BiLevelRoutingAttention.forward (scenario_module false false) scenario_input ret_attn_mask =
      Ok (if ret_attn_mask
          then [FloatTensor out; FloatTensor r_weight; LongTensor r_idx;
                FloatTensor attn_weight; FloatTensor q; FloatTensor k; FloatTensor v]
          else [FloatTensor out; FloatTensor q; FloatTensor k; FloatTensor v]) /\
    size out = [1; 16; 16; 16; 32].
Proof.
  apply (@forward_Ok (scenario_module false false) scenario_input ret_attn_mask
           (BiLevelRoutingAttention.mkPadded scenario_input 16 16 16 None) 1 16 16 16).
  - apply scenario_module_well_formed.
  - reflexivity.
  - left. reflexivity.
  - cbn. lia.
  - reflexivity.
  - reflexivity.
  - reflexivity.
  - reflexivity.
  - reflexivity.
  - cbn. lia.
  - reflexivity.
  - reflexivity.
  - reflexivity.
Qed.

(** C2 at its failing input: on the scenario's module and input, with
    [ret_attn_mask=False], [forward] returns a tuple of four values
    ([out, q, k, v]), not the single output tensor its docstring
    announces. *)
Theorem C2_forward_returns_four_values :
  exists out q k v,
    BiLevelRoutingAttention.forward (scenario_module false false) scenario_input false =
    Ok [FloatTensor out; FloatTensor q; FloatTensor k; FloatTensor v].
Proof.
  destruct (scenario_forward false) as [out [_ [_ [_ [q [k [v [H _]]]]]]]].
  exists out, q, k, v. exact H.
Qed.

Lemma odd_cube_padding :
  exists pd,
    BiLevelRoutingAttention.pad_input (scenario_module false true) odd_cube_input = Ok pd /\
    size (BiLevelRoutingAttention.padded_x pd) = [1; 16; 16; 16; 32] /\
    BiLevelRoutingAttention.ext_D pd = 16 /\
    BiLevelRoutingAttention.ext_H pd = 16 /\
    BiLevelRoutingAttention.ext_W pd = 16 /\
    BiLevelRoutingAttention.crop pd = Some (1, 1, 15, 15).
Proof. eexists. repeat split; reflexivity. Qed.

(** C1 at its failing input: with [auto_pad=True], [n_win = 2] and an
    input of shape [(1, 15, 15, 15, 32)], [forward] pads every spatial
    extent to 16, but its crop [out[:, :H_in, :W_in, :]] only cuts the
    first two spatial axes, so the returned output has shape
    [(1, 15, 15, 16, 32)], which is not the shape of the input. *)
Theorem C1_auto_pad_output_not_cropped :
  exists out q k v,
    BiLevelRoutingAttention.forward (scenario_module false true) odd_cube_input false =
      Ok [FloatTensor out; FloatTensor q; FloatTensor k; FloatTensor v] /\
    size odd_cube_input = [1; 15; 15; 15; 32] /\
    size out = [1; 15; 15; 16; 32].
Proof.
  destruct odd_cube_padding as [pd [Hpd [Hs [HD [HH [HW Hc]]]]]].
  destruct (@forward_Ok (scenario_module false true) odd_cube_input false pd 1 16 16 16)
    as [out [_ [_ [_ [q [k [v [H Hsz]]]]]]]];
    try assumption; try reflexivity.
  - apply scenario_module_well_formed.
  - left. reflexivity.
  - cbn. lia.
  - cbn. lia.
  - exists out, q, k, v. split; [exact H|]. split; [reflexivity|].
    rewrite Hsz, Hc. reflexivity.
Qed.

(** The second half of the end-to-end scenario: depth 15 with
    [auto_pad].  The pad computed from the depth is applied to the
    width, the depth stays 15 and the window partition raises. *)
Lemma scenario_odd_depth_raises :
  BiLevelRoutingAttention.forward (scenario_module false true) odd_depth_input false
  = Raise EinopsError.
Proof. reflexivity. Qed.

(** C8 as stated fails: with [diff_routing=True], [soft_routing=False]
    the constructor accepts the scenario's arguments, and a call whose
    depth 3 is not divisible by [n_win = 2] raises the [AssertionError]
    of the divisibility check, not [NotImplementedError]. *)
Lemma C8_indivisible_input_raises_assertion :
  BiLevelRoutingAttention.init pool_rejects
    (with_auto_pad false (with_routing false true false scenario_args)) zero_weights
    = Ok (scenario_module true false) /\
  BiLevelRoutingAttention.forward (scenario_module true false)
    (zeros [1; 3; 2; 2; 32]) false = Raise AssertionError.
Proof.
  split; [apply scenario_module_constructed | reflexivity].
Qed.

(** C8, as amended: a module constructed with [diff_routing=True] and
    [soft_routing=False] has its gatherer in ['hard'] mode; no call of
    its [forward] returns, and every call that gets as far as the
    gatherer (every call that would return if the gatherer were in
    ['none'] mode) raises [NotImplementedError]; the other calls raise
    the error of the earlier step that rejects them. *)
Theorem C8_hard_routing_forward_fails :
  forall (nn : Pooling) (a : BiLevelRoutingAttention.Args.t)
         (wts : BiLevelRoutingAttention.Weights) (self : BiLevelRoutingAttention.t),
    BiLevelRoutingAttention.init nn a wts = Ok self ->
    BiLevelRoutingAttention.Args.diff_routing a = true ->
    BiLevelRoutingAttention.Args.soft_routing a = false ->
    KVGather.mul_weight (BiLevelRoutingAttention.kv_gather self) = "hard"%string /\
    forall (x : Tensor R) (ret_attn_mask : bool),
      (exists e, BiLevelRoutingAttention.forward self x ret_attn_mask = Raise e) /\
      (forall outs,
         BiLevelRoutingAttention.forward (with_mul_weight "none" self) x ret_attn_mask
           = Ok outs ->
         BiLevelRoutingAttention.forward self x ret_attn_mask = Raise NotImplementedError).
Proof.
  intros nn a wts self Hinit Hdiff Hsoft.
  apply init_inv in Hinit. destruct Hinit as [_ [Hg _]].
  rewrite Hsoft, Hdiff in Hg.
  assert (Hhard : KVGather.mul_weight (BiLevelRoutingAttention.kv_gather self) = "hard"%string)
    by (rewrite Hg; reflexivity).
  split; [exact Hhard|].
  intros x flag. apply forward_hard. exact Hhard.
Qed.

Lemma C8_hard_routing_forward_fails_witness :
  KVGather.mul_weight (BiLevelRoutingAttention.kv_gather (scenario_module true false))
    = "hard"%string /\
  forall (x : Tensor R) (ret_attn_mask : bool),
    (exists e, BiLevelRoutingAttention.forward (scenario_module true false) x ret_attn_mask
               = Raise e) /\
    (forall outs,
       BiLevelRoutingAttention.forward (with_mul_weight "none" (scenario_module true false))
         x ret_attn_mask = Ok outs ->
       BiLevelRoutingAttention.forward (scenario_module true false) x ret_attn_mask
       = Raise NotImplementedError).
Proof.
  apply (@C8_hard_routing_forward_fails pool_rejects
           (with_auto_pad false (with_routing false true false scenario_args))
           zero_weights (scenario_module true false)).
  - apply scenario_module_constructed.
  - reflexivity.
  - reflexivity.
Defined.

(** On the scenario's input the error is [NotImplementedError]. *)
Lemma scenario_hard_routing_not_implemented :
  BiLevelRoutingAttention.forward (scenario_module true false) scenario_input false
  = Raise NotImplementedError.
Proof.
  destruct (scenario_forward false) as [out [_ [_ [_ [q [k [v [H _]]]]]]]].
  apply (proj2 (@forward_hard (scenario_module true false) scenario_input false eq_refl)
           _ H).
Qed.

(** * Further properties of the code *)

(** ** The projection *)

Lemma last_snoc (pre : list nat) (c d : nat) : last (pre ++ [c]) d = c.
Proof. apply last_last. Qed.

(** The four tensors returned by [QKVLinear.forward], entry by entry. *)
Lemma qkv_forward_layout :
  forall (self : QKVLinear.t) (x : Tensor R) (pre : list nat),
    size x = pre ++ [QKVLinear.dim self] ->
    exists q kv k v,
      QKVLinear.forward self x = Ok (q, kv, k, v) /\
      size q = pre ++ [QKVLinear.qk_dim self] /\
      size k = pre ++ [QKVLinear.qk_dim self] /\
      size v = pre ++ [QKVLinear.dim self] /\
      size kv = pre ++ [QKVLinear.qk_dim self + QKVLinear.dim self] /\
      forall (i : list nat) (c : nat),
        let affine := fun o =>
          (Rsum (QKVLinear.dim self)
             (fun z => data x (i ++ [z]) * weight (QKVLinear.qkv self) o z)
           + bias (QKVLinear.qkv self) o)%R in
        data q (i ++ [c]) = affine c /\
        data k (i ++ [c]) = affine (QKVLinear.qk_dim self + c) /\
        data v (i ++ [c]) = affine (QKVLinear.qk_dim self + QKVLinear.qk_dim self + c) /\
        (c < QKVLinear.qk_dim self -> data kv (i ++ [c]) = data k (i ++ [c])) /\
        data kv (i ++ [QKVLinear.qk_dim self + c]) = data v (i ++ [c]).
Proof.
  intros self x pre Hx.
  set (qk := QKVLinear.qk_dim self). set (dm := QKVLinear.dim self).
  unfold QKVLinear.forward, linear. rewrite Hx.
  rewrite length_app, last_snoc, removelast_last. fold dm qk.
  replace (1 <=? length pre + length [dm]) with true
    by (symmetry; apply Nat.leb_le; cbn; lia).
  rewrite Nat.eqb_refl. cbn [andb require bind].
  unfold split. cbn [size fold_right].
  rewrite length_app, last_snoc.
  replace (1 <=? length pre + length [qk + qk + dm]) with true
    by (symmetry; apply Nat.leb_le; cbn; lia).
  replace (qk + (qk + (dm + 0)) =? qk + qk + dm) with true
    by (symmetry; apply Nat.eqb_eq; lia).
  cbn [andb require bind split_from Nat.add].
  unfold cat. cbn [size narrow_last].
  rewrite !removelast_last, !length_app, !last_snoc, list_eqb_refl.
  replace (1 <=? length pre + length [qk]) with true
    by (symmetry; apply Nat.leb_le; cbn; lia).
  replace (1 <=? length pre + length [dm]) with true
    by (symmetry; apply Nat.leb_le; cbn; lia).
  cbn [andb require bind].
  do 4 eexists. split; [reflexivity|].
  cbn [size data narrow_last]. rewrite !removelast_last.
  repeat (split; [reflexivity|]).
  intros i c. cbv zeta. cbn beta.
  rewrite !removelast_last, !last_snoc.
  split; [reflexivity|]. split; [reflexivity|]. split; [reflexivity|].
  split.
  - intros Hc. apply Nat.ltb_lt in Hc. rewrite Hc. reflexivity.
  - replace (qk + c <? qk) with false by (symmetry; apply Nat.ltb_ge; lia).
    rewrite ?removelast_last, ?last_snoc.
    replace (qk + c - qk) with c by lia. reflexivity.
Qed.

(** X1: for an input whose last extent is [dim], [QKVLinear.forward]
    returns [q], [kv], [k], [v] of widths [qk_dim], [qk_dim + dim],
    [qk_dim] and [dim]; [q], [k] and [v] are the consecutive channel
    ranges of one affine map of the input, and [kv] is [k] followed by
    [v], so that cutting [kv] at [qk_dim] gives [k] and [v] back. *)
Theorem X1_qkv_forward_layout :
  forall (self : QKVLinear.t) (x : Tensor R) (pre : list nat),
    size x = pre ++ [QKVLinear.dim self] ->
    exists q kv k v,
      QKVLinear.forward self x = Ok (q, kv, k, v) /\
      size q = pre ++ [QKVLinear.qk_dim self] /\
      size k = pre ++ [QKVLinear.qk_dim self] /\
      size v = pre ++ [QKVLinear.dim self] /\
      size kv = pre ++ [QKVLinear.qk_dim self + QKVLinear.dim self] /\
      forall (i : list nat) (c : nat),
        let affine := fun o =>
          (Rsum (QKVLinear.dim self)
             (fun z => data x (i ++ [z]) * weight (QKVLinear.qkv self) o z)
           + bias (QKVLinear.qkv self) o)%R in
        data q (i ++ [c]) = affine c /\
        data k (i ++ [c]) = affine (QKVLinear.qk_dim self + c) /\
        data v (i ++ [c]) = affine (QKVLinear.qk_dim self + QKVLinear.qk_dim self + c) /\
        (c < QKVLinear.qk_dim self -> data kv (i ++ [c]) = data k (i ++ [c])) /\
        data kv (i ++ [QKVLinear.qk_dim self + c]) = data v (i ++ [c]).
Proof.
  exact qkv_forward_layout.
Qed.

Lemma X1_qkv_forward_layout_witness :
  exists q kv k v,
    QKVLinear.forward example_projection example_activation = Ok (q, kv, k, v) /\
    size q = [2] ++ [2] /\
    size k = [2] ++ [2] /\
    size v = [2] ++ [3] /\
    size kv = [2] ++ [2 + 3] /\
    forall (i : list nat) (c : nat),
      let affine := fun o =>
        (Rsum 3 (fun z => data example_activation (i ++ [z]) * weight zero_linear o z)
         + bias zero_linear o)%R in
      data q (i ++ [c]) = affine c /\
      data k (i ++ [c]) = affine (2 + c) /\
      data v (i ++ [c]) = affine (2 + 2 + c) /\
      (c < 2 -> data kv (i ++ [c]) = data k (i ++ [c])) /\
      data kv (i ++ [2 + c]) = data v (i ++ [c]).
Proof.
  apply (@X1_qkv_forward_layout example_projection example_activation [2]).
  reflexivity.
Defined.

(** A width other than [dim] is rejected by the linear layer. *)
Lemma qkv_forward_width_mismatch (self : QKVLinear.t) (x : Tensor R) :
  last (size x) 0 <> QKVLinear.dim self ->
  QKVLinear.forward self x = Raise RuntimeError.
Proof.
  intros H. unfold QKVLinear.forward, linear.
  replace (last (size x) 0 =? QKVLinear.dim self) with false
    by (symmetry; apply Nat.eqb_neq; exact H).
  rewrite andb_false_r. reflexivity.
Qed.

(** ** The constructor *)

Lemma scale_or_default_Ok_iff (q : option R) (d : nat) :
  (exists s, scale_or_default q d = Ok s) <->
  ((exists s, q = Some s /\ s <> 0%R) \/ d <> 0).
Proof.
  unfold scale_or_default. split.
  - intros [s H]. destruct q as [s'|].
    + destruct (Req_dec_T s' 0) as [Hz|Hz].
      * right. destruct (d =? 0) eqn:E; [discriminate|]. apply Nat.eqb_neq. exact E.
      * left. eauto.
    + right. destruct (d =? 0) eqn:E; [discriminate|]. apply Nat.eqb_neq. exact E.
  - intros [[s [Hq Hs]] | Hd].
    + subst q. destruct (Req_dec_T s 0); [contradiction|]. eauto.
    + apply Nat.eqb_neq in Hd. rewrite Hd.
      destruct q as [s'|]; [destruct (Req_dec_T s' 0)|]; eauto.
Qed.

Lemma init_kv_down_Ok_iff (nn : Pooling) (mode : string) (kpw kdr : option nat) :
  (exists l, BiLevelRoutingAttention.init_kv_down nn mode kpw kdr = Ok l) <->
  (((mode = "ada_avgpool"%string \/ mode = "ada_maxpool"%string) /\ kpw <> None) \/
   ((mode = "maxpool"%string \/ mode = "avgpool"%string) /\ kdr <> None) \/
   mode = "identity"%string).
Proof.
  unfold BiLevelRoutingAttention.init_kv_down. split.
  - intros [l H].
    repeat match type of H with
    | (if String.eqb ?m ?s then _ else _) = _ =>
        let E := fresh "E" in
        destruct (String.eqb m s) eqn:E; [apply String.eqb_eq in E|]
    end;
    try discriminate;
    try (destruct kpw; [|discriminate]);
    try (destruct kdr; [|discriminate]);
    try (left; split; [tauto | discriminate]);
    try (right; left; split; [tauto | discriminate]);
    right; right; assumption.
  - intros [[[E|E] Hk] | [[[E|E] Hk] | E]]; subst mode; cbn;
      try (destruct kpw; [eauto | contradiction]);
      try (destruct kdr; [eauto | contradiction]);
      eauto.
Qed.

Lemma init_Ok_accepted (nn : Pooling) (a : BiLevelRoutingAttention.Args.t)
    (wts : BiLevelRoutingAttention.Weights) :
  (exists self, BiLevelRoutingAttention.init nn a wts = Ok self) -> accepted_args a.
Proof.
  unfold accepted_args. cbv zeta.
  intros [self H]. unfold BiLevelRoutingAttention.init in H.
  apply bind_Ok in H. destruct H as [r1 [Hr1 H]].
  apply bind_Ok in H. destruct H as [r2 [Hr2 H]].
  apply bind_Ok in H. destruct H as [u1 [Ha1 H]].
  apply bind_Ok in H. destruct H as [s [Hs H]].
  apply bind_Ok in H. destruct H as [u2 [Ha2 H]].
  apply bind_Ok in H. destruct H as [router [Hrouter H]].
  apply bind_Ok in H. destruct H as [g [Hg H]].
  apply bind_Ok in H. destruct H as [[qkv wo] [Hpa H]].
  apply bind_Ok in H. destruct H as [kv_down [Hdown H]].
  unfold py_mod in Hr1, Hr2.
  destruct (BiLevelRoutingAttention.Args.num_heads a =? 0) eqn:Hnh; [discriminate|].
  apply Nat.eqb_neq in Hnh.
  inversion Hr1; subst r1. inversion Hr2; subst r2.
  apply assert_Ok in Ha1. apply andb_prop in Ha1. destruct Ha1 as [Hm1 Hm2].
  apply Nat.eqb_eq in Hm1. apply Nat.eqb_eq in Hm2.
  apply assert_Ok in Ha2.
  split; [exact Hnh|]. split; [exact Hm1|]. split; [exact Hm2|].
  split; [apply scale_or_default_Ok_iff; eauto|].
  split.
  { intros Hp. rewrite Hp in Ha2.
    destruct (BiLevelRoutingAttention.Args.diff_routing a); [reflexivity | discriminate]. }
  split.
  { destruct (String.eqb (BiLevelRoutingAttention.Args.param_attention a) "qkvo") eqn:E1.
    - left. apply String.eqb_eq. exact E1.
    - destruct (String.eqb (BiLevelRoutingAttention.Args.param_attention a) "qkv") eqn:E2;
        [|discriminate].
      right. apply String.eqb_eq. exact E2. }
  apply (init_kv_down_Ok_iff nn). eauto.
Qed.

Lemma accepted_init_Ok (nn : Pooling) (a : BiLevelRoutingAttention.Args.t)
    (wts : BiLevelRoutingAttention.Weights) :
  accepted_args a -> exists self, BiLevelRoutingAttention.init nn a wts = Ok self.
Proof.
  unfold accepted_args. cbv zeta.
  intros [Hnh [Hm1 [Hm2 [Hs [Hr [Hpa Hmode]]]]]].
  apply scale_or_default_Ok_iff in Hs. destruct Hs as [s Hs].
  apply (init_kv_down_Ok_iff nn) in Hmode. destruct Hmode as [l Hl].
  unfold BiLevelRoutingAttention.init, py_mod.
  apply Nat.eqb_neq in Hnh. rewrite Hnh. cbn [bind].
  rewrite Hm1, Hm2. cbn [Nat.eqb andb assert bind].
  rewrite Hs. cbn [bind].
  replace (negb (BiLevelRoutingAttention.Args.param_routing a &&
                 negb (BiLevelRoutingAttention.Args.diff_routing a))) with true.
  2:{ destruct (BiLevelRoutingAttention.Args.param_routing a); [|reflexivity].
      rewrite (Hr eq_refl). reflexivity. }
  cbn [assert bind].
  rewrite (@router_init_Ok _ _ _ _ _ _ _ Hs). cbn [bind].
  replace (KVGather.init _) with
    (Ok (KVGather.mk (if BiLevelRoutingAttention.Args.soft_routing a then "soft"
                      else if BiLevelRoutingAttention.Args.diff_routing a then "hard"
                      else "none")))
    by (destruct (BiLevelRoutingAttention.Args.soft_routing a),
                 (BiLevelRoutingAttention.Args.diff_routing a); reflexivity).
  cbn [bind]. rewrite Hl.
  destruct Hpa as [E|E]; rewrite E; cbn; eauto.
Qed.

(** X2: [BiLevelRoutingAttention.__init__] returns a module exactly for
    the arguments with a non-zero head count dividing both widths, a
    usable scale (a non-zero [qk_scale], or a non-zero query/key width
    for the default), no [param_routing] without [diff_routing],
    [param_attention] among ['qkvo'] and ['qkv'], and a down-sampling
    mode among the five implemented ones with its parameter present;
    every other argument list raises. *)
Theorem X2_init_accepts_iff :
  forall (nn : Pooling) (a : BiLevelRoutingAttention.Args.t)
         (wts : BiLevelRoutingAttention.Weights),
    (exists self, BiLevelRoutingAttention.init nn a wts = Ok self) <-> accepted_args a.
Proof.
  intros nn a wts. split.
  - apply init_Ok_accepted.
  - apply accepted_init_Ok.
Qed.

(** The module returned by the constructor, field by field. *)
Lemma init_record (nn : Pooling) (a : BiLevelRoutingAttention.Args.t)
    (wts : BiLevelRoutingAttention.Weights) (self : BiLevelRoutingAttention.t) :
  BiLevelRoutingAttention.init nn a wts = Ok self ->
  exists s wo kv_down,
    scale_or_default (BiLevelRoutingAttention.Args.qk_scale a)
      (or_default (BiLevelRoutingAttention.Args.qk_dim a)
                  (BiLevelRoutingAttention.Args.dim a)) = Ok s /\
    BiLevelRoutingAttention.init_kv_down nn
      (BiLevelRoutingAttention.Args.kv_downsample_mode a)
      (BiLevelRoutingAttention.Args.kv_per_win a)
      (BiLevelRoutingAttention.Args.kv_downsample_ratio a) = Ok kv_down /\
    wo = (if String.eqb (BiLevelRoutingAttention.Args.param_attention a) "qkvo"
          then Linear (BiLevelRoutingAttention.Args.dim a)
                      (BiLevelRoutingAttention.Args.dim a)
                      (BiLevelRoutingAttention.wo_weights wts)
          else Identity) /\
    self =
    BiLevelRoutingAttention.mk
      (BiLevelRoutingAttention.Args.dim a) (BiLevelRoutingAttention.Args.n_win a)
      (BiLevelRoutingAttention.Args.num_heads a)
      (or_default (BiLevelRoutingAttention.Args.qk_dim a) (BiLevelRoutingAttention.Args.dim a))
      s (BiLevelRoutingAttention.Args.topk a)
      (BiLevelRoutingAttention.Args.param_routing a)
      (BiLevelRoutingAttention.Args.diff_routing a)
      (BiLevelRoutingAttention.Args.soft_routing a)
      (TopkRouting.mk (BiLevelRoutingAttention.Args.topk a)
         (or_default (BiLevelRoutingAttention.Args.qk_dim a)
                     (BiLevelRoutingAttention.Args.dim a))
         s (BiLevelRoutingAttention.Args.diff_routing a)
         (if BiLevelRoutingAttention.Args.param_routing a
          then Linear (or_default (BiLevelRoutingAttention.Args.qk_dim a)
                                  (BiLevelRoutingAttention.Args.dim a))
                      (or_default (BiLevelRoutingAttention.Args.qk_dim a)
                                  (BiLevelRoutingAttention.Args.dim a))
                      (BiLevelRoutingAttention.emb_weights wts)
          else Identity))
      (KVGather.mk (if BiLevelRoutingAttention.Args.soft_routing a then "soft"
                    else if BiLevelRoutingAttention.Args.diff_routing a then "hard"
                    else "none"))
      (BiLevelRoutingAttention.Args.param_attention a)
      (QKVLinear.init (BiLevelRoutingAttention.Args.dim a)
         (or_default (BiLevelRoutingAttention.Args.qk_dim a)
                     (BiLevelRoutingAttention.Args.dim a))
         (BiLevelRoutingAttention.qkv_weights wts))
      wo
      (BiLevelRoutingAttention.Args.kv_downsample_mode a)
      (BiLevelRoutingAttention.Args.kv_per_win a)
      (BiLevelRoutingAttention.Args.kv_downsample_ratio a)
      (BiLevelRoutingAttention.Args.kv_downsample_kernel a)
      kv_down
      (BiLevelRoutingAttention.Args.auto_pad a).
Proof.
  unfold BiLevelRoutingAttention.init. intros H.
  apply bind_Ok in H. destruct H as [r1 [Hr1 H]].
  apply bind_Ok in H. destruct H as [r2 [Hr2 H]].
  apply bind_Ok in H. destruct H as [u1 [Ha1 H]].
  apply bind_Ok in H. destruct H as [s [Hs H]].
  apply bind_Ok in H. destruct H as [u2 [Ha2 H]].
  apply bind_Ok in H. destruct H as [router [Hrouter H]].
  apply bind_Ok in H. destruct H as [g [Hg H]].
  apply bind_Ok in H. destruct H as [[qkv wo] [Hpa H]].
  apply bind_Ok in H. destruct H as [kv_down [Hdown H]].
  inversion H; subst self; clear H.
  rewrite (@router_init_Ok _ _ _ _ _ _ _ Hs) in Hrouter. inversion Hrouter; subst router.
  assert (Hg' : g = KVGather.mk
                      (if BiLevelRoutingAttention.Args.soft_routing a then "soft"
                       else if BiLevelRoutingAttention.Args.diff_routing a then "hard"
                       else "none")).
  { unfold KVGather.init in Hg. apply bind_Ok in Hg. destruct Hg as [u [_ Hg]].
    congruence. }
  subst g.
  exists s, wo, kv_down. split; [exact Hs|]. split; [exact Hdown|].
  destruct (String.eqb (BiLevelRoutingAttention.Args.param_attention a) "qkvo") eqn:E1.
  - inversion Hpa; subst qkv wo. split; reflexivity.
  - destruct (String.eqb (BiLevelRoutingAttention.Args.param_attention a) "qkv") eqn:E2;
      [|discriminate].
    inversion Hpa; subst qkv wo. split; reflexivity.
Qed.

Lemma scale_or_default_nonzero (q : option R) (d : nat) (s : R) :
  scale_or_default q d = Ok s -> s <> 0%R.
Proof.
  unfold scale_or_default. intros H.
  assert (Hdef : (if d =? 0 then Raise ZeroDivisionError else Ok (/ sqrt (INR d))%R) = Ok s ->
                 s <> 0%R).
  { destruct (d =? 0) eqn:E; [discriminate|]. intros E'. inversion E'; subst s.
    apply Nat.eqb_neq in E.
    apply Rinv_neq_0_compat. apply Rgt_not_eq. apply sqrt_lt_R0.
    apply lt_0_INR. lia. }
  destruct q as [s'|]; [destruct (Req_dec_T s' 0)|]; auto.
  congruence.
Qed.

(** X3: in a constructed module the router works with the very scale
    of the attention, that scale is never zero, and when no [qk_scale]
    is given it is [1 / sqrt qk_dim] for the (non-zero) query/key
    width, which defaults to [dim]. *)
Theorem X3_init_scale :
  forall (nn : Pooling) (a : BiLevelRoutingAttention.Args.t)
         (wts : BiLevelRoutingAttention.Weights) (self : BiLevelRoutingAttention.t),
    BiLevelRoutingAttention.init nn a wts = Ok self ->
    TopkRouting.scale (BiLevelRoutingAttention.router self)
      = BiLevelRoutingAttention.scale self /\
    BiLevelRoutingAttention.scale self <> 0%R /\
    BiLevelRoutingAttention.qk_dim self
      = or_default (BiLevelRoutingAttention.Args.qk_dim a) (BiLevelRoutingAttention.Args.dim a) /\
    (BiLevelRoutingAttention.Args.qk_scale a = None ->
     BiLevelRoutingAttention.qk_dim self <> 0 /\
     BiLevelRoutingAttention.scale self
       = (/ sqrt (INR (BiLevelRoutingAttention.qk_dim self)))%R).
Proof.
  intros nn a wts self H.
  apply init_record in H. destruct H as [s [wo [kv_down [Hs [_ [_ Hself]]]]]].
  subst self. cbn.
  split; [reflexivity|]. split; [exact (scale_or_default_nonzero _ _ Hs)|].
  split; [reflexivity|].
  intros Hq. rewrite Hq in Hs. cbn in Hs.
  destruct (or_default _ _ =? 0) eqn:E; [discriminate|].
  apply Nat.eqb_neq in E. split; [exact E|]. congruence.
Qed.

Lemma X3_init_scale_witness :
  TopkRouting.scale (BiLevelRoutingAttention.router (scenario_module false false))
    = BiLevelRoutingAttention.scale (scenario_module false false) /\
  BiLevelRoutingAttention.scale (scenario_module false false) <> 0%R /\
  BiLevelRoutingAttention.qk_dim (scenario_module false false)
    = or_default (BiLevelRoutingAttention.Args.qk_dim
                    (with_auto_pad false (with_routing false false false scenario_args)))
                 (BiLevelRoutingAttention.Args.dim
                    (with_auto_pad false (with_routing false false false scenario_args))) /\
  (BiLevelRoutingAttention.Args.qk_scale
     (with_auto_pad false (with_routing false false false scenario_args)) = None ->
   BiLevelRoutingAttention.qk_dim (scenario_module false false) <> 0 /\
   BiLevelRoutingAttention.scale (scenario_module false false)
     = (/ sqrt (INR (BiLevelRoutingAttention.qk_dim (scenario_module false false))))%R).
Proof.
  apply (@X3_init_scale pool_rejects
           (with_auto_pad false (with_routing false false false scenario_args))
           zero_weights (scenario_module false false)).
  apply scenario_module_constructed.
Defined.

(** X4: with [kv_downsample_mode] ['avgpool'] or ['maxpool'] and a
    ratio of at most 1 the constructor installs no pooling layer:
    the module behaves in [forward] exactly like the one built with
    mode ['identity']. *)
Theorem X4_pool_ratio_one_is_identity :
  forall (nn : Pooling) (a : BiLevelRoutingAttention.Args.t)
         (wts : BiLevelRoutingAttention.Weights) (self : BiLevelRoutingAttention.t) (r : nat),
    BiLevelRoutingAttention.init nn a wts = Ok self ->
    (BiLevelRoutingAttention.Args.kv_downsample_mode a = "avgpool"%string \/
     BiLevelRoutingAttention.Args.kv_downsample_mode a = "maxpool"%string) ->
    BiLevelRoutingAttention.Args.kv_downsample_ratio a = Some r ->
    r <= 1 ->
    exists self',
      BiLevelRoutingAttention.init nn (with_kv_downsample_mode "identity" a) wts = Ok self' /\
      forall (x : Tensor R) (ret_attn_mask : bool),
        BiLevelRoutingAttention.forward self x ret_attn_mask
        = BiLevelRoutingAttention.forward self' x ret_attn_mask.
Proof.
  intros nn a wts self r Hinit Hmode Hratio Hr.
  assert (Hacc : accepted_args (with_kv_downsample_mode "identity" a)).
  { assert (Ha : accepted_args a) by (apply (@init_Ok_accepted nn a wts); eauto).
    destruct a. unfold accepted_args in *. cbn in *.
    destruct Ha as [H1 [H2 [H3 [H4 [H5 [H6 _]]]]]].
    repeat (split; [assumption|]). right. right. reflexivity. }
  apply (@accepted_init_Ok nn _ wts) in Hacc. destruct Hacc as [self' Hinit'].
  exists self'. split; [exact Hinit'|].
  apply init_record in Hinit. destruct Hinit as [s [wo [kd [Hs [Hkd [Hwo Hself]]]]]].
  apply init_record in Hinit'. destruct Hinit' as [s' [wo' [kd' [Hs' [Hkd' [Hwo' Hself']]]]]].
  assert (Hkd_id : kd = Identity).
  { rewrite Hratio in Hkd. unfold BiLevelRoutingAttention.init_kv_down in Hkd.
    assert (Hlt : (1 <? r) = false) by (apply Nat.ltb_ge; exact Hr).
    destruct Hmode as [E|E]; rewrite E in Hkd;
      cbn [String.eqb Ascii.eqb Bool.eqb] in Hkd; rewrite Hlt in Hkd; congruence. }
  destruct a. cbn in *.
  assert (Hkd'_id : kd' = Identity) by congruence.
  assert (Hss : s' = s) by congruence.
  subst. intros x flag. reflexivity.
Qed.

Lemma pool_one_module_constructed :
  BiLevelRoutingAttention.init pool_rejects pool_one_args zero_weights = Ok pool_one_module.
Proof. eval_init. Qed.

Lemma X4_pool_ratio_one_is_identity_witness :
  exists self',
    BiLevelRoutingAttention.init pool_rejects
      (with_kv_downsample_mode "identity" pool_one_args) zero_weights = Ok self' /\
    forall (x : Tensor R) (ret_attn_mask : bool),
      BiLevelRoutingAttention.forward pool_one_module x ret_attn_mask
      = BiLevelRoutingAttention.forward self' x ret_attn_mask.
Proof.
  apply (@X4_pool_ratio_one_is_identity pool_rejects pool_one_args zero_weights
           pool_one_module 1).
  - apply pool_one_module_constructed.
  - left. reflexivity.
  - reflexivity.
  - lia.
Defined.

(** ** The router, further *)

(** X5: the router is built for any [topk], and a [topk] above the
    number of windows only shows when [forward] is called: it raises
    the [RuntimeError] of [torch.topk]. *)
Theorem X5_router_topk_above_windows :
  forall (qk_dim k : nat) (qk_scale : option R) (param_routing diff_routing : bool)
         (emb_params : LinearParams) (self : TopkRouting.t)
         (query key : Tensor R) (n p : nat),
    TopkRouting.init qk_dim k qk_scale param_routing diff_routing emb_params = Ok self ->
    size query = [n; p; qk_dim] ->
    size key = [n; p; qk_dim] ->
    p < k ->
    TopkRouting.forward self query key = Raise RuntimeError.
Proof.
  intros qk_dim k qk_scale pr dr th self query key n p Hinit Hq Hk Hpk.
  apply router_init_inv in Hinit. destruct Hinit as [Htopk Hemb].
  destruct (router_logits_Ok self query key Hemb Hq Hk) as [L [HL HsL]].
  unfold TopkRouting.forward. rewrite HL. cbn [bind].
  unfold torch_topk. rewrite HsL, Htopk. cbn [length Nat.leb last andb].
  replace (k <=? p) with false by (symmetry; apply Nat.leb_gt; exact Hpk).
  reflexivity.
Qed.

Lemma X5_router_topk_above_windows_witness :
  TopkRouting.forward greedy_router example_summaries example_summaries = Raise RuntimeError.
Proof.
  apply (@X5_router_topk_above_windows 2 4 None false false zero_linear
           greedy_router example_summaries example_summaries 1 3);
    solve [reflexivity | lia].
Defined.

(** X6: with [topk = 1] every routing weight is exactly 1 (the softmax
    of a single logit), so gathering with ['soft'] weighting returns the
    same tensor as gathering with ['none']. *)
Theorem X6_single_window_weight_is_one :
  forall (qk_dim : nat) (qk_scale : option R) (param_routing diff_routing : bool)
         (emb_params : LinearParams) (self : TopkRouting.t)
         (query key kv : Tensor R) (n p w2 c : nat),
    TopkRouting.init qk_dim 1 qk_scale param_routing diff_routing emb_params = Ok self ->
    size query = [n; p; qk_dim] ->
    size key = [n; p; qk_dim] ->
    size kv = [n; p; w2; c] ->
    1 <= p ->
    exists r_weight r_idx soft none,
      TopkRouting.forward self query key = Ok (r_weight, r_idx) /\
      (forall b i, data r_weight [b; i; 0] = 1%R) /\
      KVGather.forward (KVGather.mk "soft") r_idx r_weight kv = Ok soft /\
      KVGather.forward (KVGather.mk "none") r_idx r_weight kv = Ok none /\
      teq soft none.
Proof.
  intros qk_dim qk_scale pr dr th self query key kv n p w2 c Hinit Hq Hk Hkv Hp.
  apply router_init_inv in Hinit. destruct Hinit as [Htopk Hemb].
  assert (Hkp : TopkRouting.topk self <= p) by lia.
  destruct (router_forward_spec self query key Hemb Hq Hk Hkp)
    as [L [W [I [HL [HsL [Hfw [HsW [HsI [HdI HrI]]]]]]]]].
  destruct (router_forward_from_logits self query key HL HsL Hkp)
    as [W' [I' [Hfw' [_ [_ HdW]]]]].
  assert (HW : W' = W) by congruence. subst W'.
  rewrite Htopk in *.
  assert (Hone : forall b i, data W [b; i; 0] = 1%R).
  { intros b i. rewrite (proj2 (HdW b i 0)).
    unfold Rsum. cbn [seq map sumR fold_right].
    pose proof (exp_pos (snd (nth 0 (topk_list Rgtb 1 (row L [b; i] p)) no_entry))).
    field. lra. }
  assert (HrI' : forall b i j, b < n -> i < p -> j < 1 ->
                   (0 <= data I [b; i; j] < Z.of_nat p)%Z)
    by (intros; apply HrI; assumption).
  destruct (kv_gather_forward_spec I W kv Hkv HsI HsW HrI')
    as [[Gn [HGn [HsGn HdGn]]] [[Gs [HGs [HsGs HdGs]]] _]].
  exists W, I, Gs, Gn. repeat (split; [assumption|]).
  unfold teq. rewrite HsGs, HsGn. split; [reflexivity|].
  intros idx Hidx. inrange_inv Hidx.
  assert (i1 = 0) by lia. subst i1.
  rewrite HdGs, HdGn by assumption. rewrite Hone. lra.
Qed.

Lemma X6_single_window_weight_is_one_witness :
  exists r_weight r_idx soft none,
    TopkRouting.forward single_router example_summaries example_summaries
      = Ok (r_weight, r_idx) /\
    (forall b i, data r_weight [b; i; 0] = 1%R) /\
    KVGather.forward (KVGather.mk "soft") r_idx r_weight example_window_kv = Ok soft /\
    KVGather.forward (KVGather.mk "none") r_idx r_weight example_window_kv = Ok none /\
    teq soft none.
Proof.
  apply (@X6_single_window_weight_is_one 2 None false false zero_linear single_router
           example_summaries example_summaries example_window_kv 1 3 2 3);
    solve [reflexivity | lia].
Defined.

(** X7: the router selects the windows with the largest logits.  For
    every query window the selected logits come in non-increasing
    order, and so do the routing weights; and a window that is not
    selected has a logit no larger than any selected one. *)
Theorem X7_router_selects_largest :
  forall (qk_dim k : nat) (qk_scale : option R) (param_routing diff_routing : bool)
         (emb_params : LinearParams) (self : TopkRouting.t)
         (query key : Tensor R) (n p : nat),
    TopkRouting.init qk_dim k qk_scale param_routing diff_routing emb_params = Ok self ->
    size query = [n; p; qk_dim] ->
    size key = [n; p; qk_dim] ->
    k <= p ->
    exists attn_logit r_weight r_idx,
      TopkRouting.logits self query key = Ok attn_logit /\
      TopkRouting.forward self query key = Ok (r_weight, r_idx) /\
      forall b i, b < n -> i < p ->
        (forall j j', j < j' -> j' < k ->
           (data attn_logit [b; i; Z.to_nat (data r_idx [b; i; j'])]
            <= data attn_logit [b; i; Z.to_nat (data r_idx [b; i; j])])%R /\
           (data r_weight [b; i; j'] <= data r_weight [b; i; j])%R) /\
        (forall j w, j < k -> w < p ->
           (forall j', j' < k -> Z.to_nat (data r_idx [b; i; j']) <> w) ->
           (data attn_logit [b; i; w]
            <= data attn_logit [b; i; Z.to_nat (data r_idx [b; i; j])])%R).
Proof.
  intros qk_dim k qk_scale pr dr th self query key n p Hinit Hq Hk Hkp.
  apply router_init_inv in Hinit. destruct Hinit as [Htopk Hemb].
  destruct (router_logits_Ok self query key Hemb Hq Hk) as [L [HL HsL]].
  rewrite <- Htopk in Hkp.
  destruct (router_forward_from_logits self query key HL HsL Hkp)
    as [W [I [Hfw [_ [_ Hdata]]]]].
  rewrite Htopk in *.
  exists L, W, I. split; [exact HL|]. split; [exact Hfw|].
  intros b i _ _.
  assert (Hkl : k <= length (row L [b; i] p)) by (rewrite length_row; exact Hkp).
  destruct (topk_list_largest (row L [b; i] p) Hkl) as [Hsorted Hdom].
  assert (Hval : forall j, j < k ->
            data L [b; i; Z.to_nat (data I [b; i; j])] =
            snd (nth j (topk_list Rgtb k (row L [b; i] p)) no_entry)).
  { intros j Hj. rewrite (proj1 (Hdata b i j)), Nat2Z.id.
    symmetry. apply (proj2 (selected_index_lt L [b; i] Hkp Hj)). }
  split.
  - intros j j' Hjj Hj'.
    assert (Hj : j < k) by lia.
    specialize (Hsorted j j' Hjj Hj'). unfold ge_value in Hsorted.
    split.
    + rewrite (Hval j Hj), (Hval j' Hj'). exact Hsorted.
    + rewrite (proj2 (Hdata b i j)), (proj2 (Hdata b i j')).
      assert (Hpos : (0 < Rsum k (fun l =>
                exp (snd (nth l (topk_list Rgtb k (row L [b; i] p)) no_entry))))%R)
        by (apply Rsum_exp_pos; lia).
      unfold Rdiv. apply Rmult_le_compat_r.
      * left. apply Rinv_0_lt_compat. exact Hpos.
      * apply exp_le. exact Hsorted.
  - intros j w Hj Hw Hnot.
    rewrite (Hval j Hj).
    apply (Hdom j w (data L [b; i; w]) Hj).
    + rewrite nth_error_row by exact Hw. reflexivity.
    + intros Hin. apply in_map_iff in Hin. destruct Hin as [[w' v] [Hw' Hin]].
      cbn in Hw'. subst w'.
      destruct (In_nth _ _ no_entry Hin) as [j' [Hj' Hn]].
      rewrite topk_list_length in Hj' by exact Hkl.
      apply (Hnot j' Hj').
      rewrite (proj1 (Hdata b i j')), Nat2Z.id, Hn. reflexivity.
Qed.

Lemma X7_router_selects_largest_witness :
  exists attn_logit r_weight r_idx,
    TopkRouting.logits example_router example_summaries example_summaries = Ok attn_logit /\
    TopkRouting.forward example_router example_summaries example_summaries
      = Ok (r_weight, r_idx) /\
    forall b i, b < 1 -> i < 3 ->
      (forall j j', j < j' -> j' < 2 ->
         (data attn_logit [b; i; Z.to_nat (data r_idx [b; i; j'])]
          <= data attn_logit [b; i; Z.to_nat (data r_idx [b; i; j])])%R /\
         (data r_weight [b; i; j'] <= data r_weight [b; i; j])%R) /\
      (forall j w, j < 2 -> w < 3 ->
         (forall j', j' < 2 -> Z.to_nat (data r_idx [b; i; j']) <> w) ->
         (data attn_logit [b; i; w]
          <= data attn_logit [b; i; Z.to_nat (data r_idx [b; i; j])])%R).
Proof.
  apply (@X7_router_selects_largest 2 2 None false false zero_linear
           example_router example_summaries example_summaries 1 3);
    solve [reflexivity | lia].
Defined.

(** ** The gatherer, further *)

Lemma InRange_all_indices (sh idx : list nat) :
  InRange idx sh -> In idx (all_indices sh).
Proof.
  intros H. induction H as [|i d idx sh Hi H IH]; cbn [all_indices].
  - left. reflexivity.
  - apply in_flat_map. exists i. split.
    + apply in_seq. lia.
    + apply in_map. exact IH.
Qed.

Lemma gather_out_of_range {A} (input : Tensor A) (dim : nat) (index : Tensor Z)
    (idx : list nat) :
  le_except dim (size index) (size input) = true ->
  InRange idx (size index) ->
  (data index idx < 0 \/ Z.of_nat (nth dim (size input) 0%nat) <= data index idx)%Z ->
  gather input dim index = Raise RuntimeError.
Proof.
  intros Hle Hin Hbad. unfold gather. rewrite Hle. cbn [require bind].
  match goal with |- context [forallb ?f ?l] => destruct (forallb f l) eqn:E end;
    [|reflexivity].
  exfalso. rewrite forallb_forall in E.
  specialize (E idx (InRange_all_indices Hin)).
  apply andb_prop in E. destruct E as [E1 E2].
  apply Z.leb_le in E1. apply Z.ltb_lt in E2. lia.
Qed.

(** X8: an index outside [0, p2) makes [KVGather.forward] fail with the
    [RuntimeError] of [torch.gather] in every weighting mode (when the
    pixel blocks are not empty); in ['hard'] mode too, since the gather
    comes before the mode is looked at. *)
Theorem X8_gather_index_out_of_range :
  forall (mode : string) (r_idx : Tensor Z) (r_weight kv : Tensor R)
         (n p2 k w2 c b i j : nat),
    size kv = [n; p2; w2; c] ->
    size r_idx = [n; p2; k] ->
    b < n -> i < p2 -> j < k -> 0 < w2 -> 0 < c ->
    (data r_idx [b; i; j] < 0 \/ Z.of_nat p2 <= data r_idx [b; i; j])%Z ->
    KVGather.forward (KVGather.mk mode) r_idx r_weight kv = Raise RuntimeError.
Proof.
  intros mode r_idx r_weight kv n p2 k w2 c b i j Hkv Hidx Hb Hi Hj Hw Hc Hbad.
  unfold KVGather.forward. rewrite Hkv, Hidx. cbn [rev app bind].
  rewrite (@view_Ok R [n; 1; p2; w2; c] kv)
    by (rewrite Hkv; cbn [numel fold_right]; lia).
  cbn [bind]. unfold expand at 1. cbn [size expand_shape Nat.eqb orb option_map bind].
  rewrite (@view_Ok Z [n; p2; k; 1; 1] r_idx)
    by (rewrite Hidx; cbn [numel fold_right]; lia).
  cbn [bind]. unfold expand. cbn [size expand_shape Nat.eqb orb option_map bind].
  rewrite (@gather_out_of_range R _ 2 _ [b; i; j; 0; 0]).
  - reflexivity.
  - cbn [size le_except le_all]. rewrite !Nat.leb_refl. reflexivity.
  - cbn [size]. repeat constructor; assumption.
  - cbn [size nth data]. rewrite Hidx.
    cbn [bcast_index Nat.eqb]. rewrite !bcast_coord by assumption.
    replace (ravel [n; p2; k; 1; 1] [b; i; j; 0; 0]) with (ravel [n; p2; k] [b; i; j])
      by (cbn [ravel numel fold_right]; lia).
    rewrite unravel_ravel by (repeat constructor; assumption).
    exact Hbad.
Qed.

Lemma X8_gather_index_out_of_range_witness :
  KVGather.forward (KVGather.mk "hard") stray_r_idx example_r_weight example_kv
  = Raise RuntimeError.
Proof.
  apply (@X8_gather_index_out_of_range "hard" stray_r_idx example_r_weight example_kv
           1 2 1 2 3 0 0 0); try reflexivity; try lia.
  right. simpl. lia.
Defined.

(** The key/value tensor has to be 4-D. *)
Lemma kv_gather_rank_error (self : KVGather.t) (r_idx : Tensor Z) (r_weight kv : Tensor R) :
  length (size kv) <> 4 ->
  KVGather.forward self r_idx r_weight kv = Raise ValueError.
Proof.
  intros H. unfold KVGather.forward.
  destruct (size kv) as [|n [|p2 [|w2 [|c [|? ?]]]]]; try reflexivity.
  cbn in H. lia.
Qed.

(** ** Inputs that [forward] rejects *)

(** X9: an input that is not 5-D makes [forward] fail with the
    [ValueError] of unpacking [x.size()], whatever the module and
    whether [auto_pad] is set or not. *)
Theorem X9_forward_rank_error :
  forall (self : BiLevelRoutingAttention.t) (x : Tensor R) (ret_attn_mask : bool),
    length (size x) <> 5 ->
    BiLevelRoutingAttention.forward self x ret_attn_mask = Raise ValueError.
Proof.
  intros self x flag H.
  unfold BiLevelRoutingAttention.forward, BiLevelRoutingAttention.pad_input.
  destruct (size x) as [|N [|D [|Hh [|W [|C [|? ?]]]]]];
    destruct (BiLevelRoutingAttention.auto_pad self); try reflexivity;
    cbn in H; lia.
Qed.

Lemma X9_forward_rank_error_witness :
  BiLevelRoutingAttention.forward (scenario_module false true) example_activation false
  = Raise ValueError.
Proof.
  apply X9_forward_rank_error. simpl. lia.
Defined.

(** X10: on a 5-D input, a window-grid size [n_win = 0] makes [forward]
    fail with [ZeroDivisionError]; and without [auto_pad] a spatial
    extent that is not a multiple of [n_win] makes it fail with the
    [AssertionError] of the divisibility check. *)
Theorem X10_forward_divisibility_errors :
  forall (self : BiLevelRoutingAttention.t) (x : Tensor R) (ret_attn_mask : bool)
         (N D H W C : nat),
    size x = [N; D; H; W; C] ->
    (BiLevelRoutingAttention.n_win self = 0 ->
     BiLevelRoutingAttention.forward self x ret_attn_mask = Raise ZeroDivisionError) /\
    (BiLevelRoutingAttention.n_win self <> 0 ->
     BiLevelRoutingAttention.auto_pad self = false ->
     D mod BiLevelRoutingAttention.n_win self <> 0 \/
     H mod BiLevelRoutingAttention.n_win self <> 0 \/
     W mod BiLevelRoutingAttention.n_win self <> 0 ->
     BiLevelRoutingAttention.forward self x ret_attn_mask = Raise AssertionError).
Proof.
  intros self x flag N D H W C Hx.
  unfold BiLevelRoutingAttention.forward, BiLevelRoutingAttention.pad_input,
    BiLevelRoutingAttention.pad_amount, py_mod.
  rewrite Hx. split.
  - intros Hz. rewrite Hz.
    destruct (BiLevelRoutingAttention.auto_pad self); reflexivity.
  - intros Hnz Hap Hnd. rewrite Hap.
    apply Nat.eqb_neq in Hnz. rewrite Hnz. cbn [bind].
    replace ((D mod BiLevelRoutingAttention.n_win self =? 0) &&
             (H mod BiLevelRoutingAttention.n_win self =? 0) &&
             (W mod BiLevelRoutingAttention.n_win self =? 0)) with false; [reflexivity|].
    symmetry. apply andb_false_iff. rewrite andb_false_iff, !Nat.eqb_neq. tauto.
Qed.

Lemma X10_forward_divisibility_errors_witness :
  BiLevelRoutingAttention.forward windowless_module odd_depth_input false
    = Raise ZeroDivisionError /\
  BiLevelRoutingAttention.forward (scenario_module false false) odd_depth_input false
    = Raise AssertionError.
Proof.
  split.
  - apply (proj1 (@X10_forward_divisibility_errors windowless_module odd_depth_input
                    false 1 15 16 16 32 eq_refl)).
    reflexivity.
  - apply (proj2 (@X10_forward_divisibility_errors (scenario_module false false)
                    odd_depth_input false 1 15 16 16 32 eq_refl)).
    + simpl. lia.
    + reflexivity.
    + left. simpl. lia.
Defined.

(** ** Padding *)

(** X11: under [auto_pad] the input is padded with zeros at the far end
    of its spatial axes and keeps its entries; the depth grows by the
    amount computed from the height, the height by the amount computed
    from the width, and the width by the amount computed from the
    depth (each amount is [(n_win - extent % n_win) % n_win]). *)
Theorem X11_auto_pad_layout :
  forall (self : BiLevelRoutingAttention.t) (x : Tensor R) (N D H W C : nat),
    BiLevelRoutingAttention.auto_pad self = true ->
    BiLevelRoutingAttention.n_win self <> 0 ->
    size x = [N; D; H; W; C] ->
    let nw := BiLevelRoutingAttention.n_win self in
    let pad_d := (nw - D mod nw) mod nw in
    let pad_r := (nw - W mod nw) mod nw in
    let pad_b := (nw - H mod nw) mod nw in
    exists pd,
      BiLevelRoutingAttention.pad_input self x = Ok pd /\
      size (BiLevelRoutingAttention.padded_x pd) = [N; D + pad_b; H + pad_r; W + pad_d; C] /\
      BiLevelRoutingAttention.crop pd = Some (pad_r, pad_b, H, W) /\
      forall n_ d h w c,
        (d < D -> h < H -> w < W -> c < C ->
         data (BiLevelRoutingAttention.padded_x pd) [n_; d; h; w; c] = data x [n_; d; h; w; c]) /\
        (D <= d \/ H <= h \/ W <= w ->
         data (BiLevelRoutingAttention.padded_x pd) [n_; d; h; w; c] = 0%R).
Proof.
  intros self x N D H W C Hap Hnz Hx nw pad_d pad_r pad_b.
  unfold BiLevelRoutingAttention.pad_input, BiLevelRoutingAttention.pad_amount, py_mod.
  rewrite Hap, Hx. fold nw.
  apply Nat.eqb_neq in Hnz. fold nw in Hnz. rewrite Hnz. cbn [bind].
  fold pad_d pad_r pad_b.
  unfold F_pad. rewrite Hx. cbn [rev app pad_shape_rev option_map Nat.add size].
  eexists. split; [reflexivity|].
  cbn [BiLevelRoutingAttention.padded_x BiLevelRoutingAttention.crop size data].
  split; [rewrite Nat.add_0_r; reflexivity|]. split; [reflexivity|].
  intros n_ d h w c.
  cbn [rev app pad_source_rev Nat.leb Nat.add andb option_map].
  split.
  - intros Hd Hh Hw Hc.
    apply Nat.ltb_lt in Hd. apply Nat.ltb_lt in Hh. apply Nat.ltb_lt in Hw.
    apply Nat.ltb_lt in Hc.
    rewrite Hc, Hw, Hh, Hd. cbn [option_map rev app]. rewrite !Nat.sub_0_r. reflexivity.
  - intros Hout.
    destruct (c <? C); [|reflexivity].
    destruct (w <? W) eqn:Ew; [|reflexivity].
    destruct (h <? H) eqn:Eh; [|reflexivity].
    destruct (d <? D) eqn:Ed; [|reflexivity].
    apply Nat.ltb_lt in Ew. apply Nat.ltb_lt in Eh. apply Nat.ltb_lt in Ed. lia.
Qed.

Lemma X11_auto_pad_layout_witness :
  let nw := BiLevelRoutingAttention.n_win (scenario_module false true) in
  let pad_d := (nw - 15 mod nw) mod nw in
  let pad_r := (nw - 16 mod nw) mod nw in
  let pad_b := (nw - 16 mod nw) mod nw in
  exists pd,
    BiLevelRoutingAttention.pad_input (scenario_module false true) odd_depth_input = Ok pd /\
    size (BiLevelRoutingAttention.padded_x pd) = [1; 15 + pad_b; 16 + pad_r; 16 + pad_d; 32] /\
    BiLevelRoutingAttention.crop pd = Some (pad_r, pad_b, 16, 16) /\
    forall n_ d h w c,
      (d < 15 -> h < 16 -> w < 16 -> c < 32 ->
       data (BiLevelRoutingAttention.padded_x pd) [n_; d; h; w; c]
       = data odd_depth_input [n_; d; h; w; c]) /\
      (15 <= d \/ 16 <= h \/ 16 <= w ->
       data (BiLevelRoutingAttention.padded_x pd) [n_; d; h; w; c] = 0%R).
Proof.
  apply (@X11_auto_pad_layout (scenario_module false true) odd_depth_input 1 15 16 16 32).
  - reflexivity.
  - simpl. lia.
  - reflexivity.
Defined.

(** ** The forward pass, step by step *)

(** The statements of [forward] before the router: on a (padded) input
    of shape [(N, D, H, W, dim)] with divisible extents and no
    down-sampling they all succeed, and [forward] continues with the
    routed attention on tensors of the shapes given here. *)
Lemma forward_reaches_routing (self : BiLevelRoutingAttention.t) (x : Tensor R)
    (pd : BiLevelRoutingAttention.Padded) (N D H W : nat) :
  QKVLinear.dim (BiLevelRoutingAttention.qkv self) = BiLevelRoutingAttention.dim self ->
  QKVLinear.qk_dim (BiLevelRoutingAttention.qkv self) = BiLevelRoutingAttention.qk_dim self ->
  BiLevelRoutingAttention.kv_down self = Identity ->
  BiLevelRoutingAttention.pad_input self x = Ok pd ->
  size (BiLevelRoutingAttention.padded_x pd) = [N; D; H; W; BiLevelRoutingAttention.dim self] ->
  BiLevelRoutingAttention.ext_D pd = D ->
  BiLevelRoutingAttention.ext_H pd = H ->
  BiLevelRoutingAttention.ext_W pd = W ->
  0 < BiLevelRoutingAttention.n_win self ->
  D mod BiLevelRoutingAttention.n_win self = 0 ->
  H mod BiLevelRoutingAttention.n_win self = 0 ->
  W mod BiLevelRoutingAttention.n_win self = 0 ->
  exists q k v q_pix kv_pix q_win k_win,
    let nw := BiLevelRoutingAttention.n_win self in
    let p3 := nw * nw * nw in
    let qk := BiLevelRoutingAttention.qk_dim self in
    let dm := BiLevelRoutingAttention.dim self in
    size q = [N; p3; D / nw; H / nw; W / nw; qk] /\
    size k = [N; p3; D / nw; H / nw; W / nw; qk] /\
    size v = [N; p3; D / nw; H / nw; W / nw; dm] /\
    size q_pix = [N; p3; D / nw * (H / nw) * (W / nw); qk] /\
    size kv_pix = [N; p3; D / nw * (H / nw) * (W / nw); qk + dm] /\
    size q_win = [N; p3; qk] /\
    size k_win = [N; p3; qk] /\
    (forall b i l c, i < p3 ->
       data kv_pix [b; i; l; qk + c] =
       data v [b; i; l / (H / nw * (W / nw)); (l / (W / nw)) mod (H / nw); l mod (W / nw); c]) /\
    forall ret_attn_mask : bool,
    BiLevelRoutingAttention.forward self x ret_attn_mask =
      (' (out, r_weight, r_idx, attn_weight) <-
         BiLevelRoutingAttention.routed_attention self q_win k_win q_pix kv_pix ;;
       out <- rearrange_reassemble nw (D / nw) (H / nw) (W / nw) out ;;
       out <- call (BiLevelRoutingAttention.wo self) out ;;
       out <- BiLevelRoutingAttention.crop_output (BiLevelRoutingAttention.crop pd) out ;;
       if ret_attn_mask then
         Ok [FloatTensor out; FloatTensor r_weight; LongTensor r_idx; FloatTensor attn_weight;
             FloatTensor q; FloatTensor k; FloatTensor v]
       else
         Ok [FloatTensor out; FloatTensor q; FloatTensor k; FloatTensor v]).
Proof.
  intros Hqd Hqq Hdown Hpad Hsize HextD HextH HextW Hnw HD HH HW.
  set (nw := BiLevelRoutingAttention.n_win self) in *.
  set (qk := BiLevelRoutingAttention.qk_dim self) in *.
  set (dm := BiLevelRoutingAttention.dim self) in *.
  set (p3 := nw * nw * nw).
  set (d := D / nw). set (h := H / nw). set (w := W / nw).
  assert (Hnwb : (0 <? nw) = true) by (apply Nat.ltb_lt; exact Hnw).
  assert (Hp3 : p3 <> 0) by (unfold p3; nia).
  assert (Hpart : exists xw, rearrange_partition nw (BiLevelRoutingAttention.padded_x pd) = Ok xw /\
                             size xw = [N; p3; d; h; w; dm]).
  { unfold rearrange_partition. rewrite Hsize, Hnwb, HD, HH, HW.
    eexists. split; reflexivity. }
  destruct Hpart as [xw [Hxw Hsxw]].
  rewrite <- Hqd in Hsxw.
  destruct (@qkv_forward_layout (BiLevelRoutingAttention.qkv self) xw [N; p3; d; h; w] Hsxw)
    as [q [kv [k [v [Hqkv [Hsq [Hsk [Hsv [Hskv Hdata]]]]]]]]].
  cbn [app] in Hsq, Hsk, Hsv, Hskv.
  rewrite Hqd, Hqq in *. clear Hsxw.
  assert (Hqpix : exists q_pix, rearrange_flatten_pixels q = Ok q_pix /\
                                size q_pix = [N; p3; d * h * w; qk]).
  { unfold rearrange_flatten_pixels. rewrite Hsq. eexists. split; reflexivity. }
  destruct Hqpix as [q_pix [Hq_pix Hsq_pix]].
  assert (Hkvpix : exists kv_cf kv_pix,
            rearrange_channel_first kv = Ok kv_cf /\
            rearrange_kv_pixels nw kv_cf = Ok kv_pix /\
            size kv_pix = [N; p3; d * h * w; qk + dm]).
  { unfold rearrange_channel_first. rewrite Hskv.
    eexists. eexists. split; [reflexivity|].
    unfold rearrange_kv_pixels. cbn [size]. fold p3.
    rewrite Hnwb, Nat.Div0.mod_mul, Nat.eqb_refl. cbn [andb require bind].
    split; [reflexivity|]. cbn [size]. rewrite Nat.div_mul by exact Hp3. reflexivity. }
  destruct Hkvpix as [kv_cf [kv_pix [Hkv_cf [Hkv_pix Hskv_pix]]]].
  destruct (mean_234_6d q Hsq) as [q_win [Hq_win Hsq_win]].
  assert (Hkwin : exists k_part k_win,
            slice_last qk kv = Ok k_part /\ mean_234 k_part = Ok k_win /\
            size k_win = [N; p3; qk]).
  { unfold slice_last. rewrite Hskv. cbn [length Nat.leb require bind last].
    rewrite Nat.min_l by lia.
    assert (Hs : size (narrow_last 0 qk kv) = [N; p3; d; h; w; qk])
      by (cbn [size narrow_last]; rewrite Hskv; reflexivity).
    destruct (mean_234_6d _ Hs) as [k_win [Hk_win Hsk_win]].
    eauto. }
  destruct Hkwin as [k_part [k_win [Hk_part [Hk_win Hsk_win]]]].
  exists q, k, v, q_pix, kv_pix, q_win, k_win. cbv zeta.
  fold nw qk dm p3 d h w.
  repeat (split; [assumption|]).
  split.
  { intros b i l c Hi.
    unfold rearrange_kv_pixels in Hkv_pix. unfold rearrange_channel_first in Hkv_cf.
    rewrite Hskv in Hkv_cf. inversion Hkv_cf; subst kv_cf; clear Hkv_cf.
    cbn [size] in Hkv_pix. fold p3 in Hkv_pix.
    rewrite Hnwb, Nat.Div0.mod_mul, Nat.eqb_refl in Hkv_pix.
    cbn [andb require bind] in Hkv_pix.
    inversion Hkv_pix; subst kv_pix; clear Hkv_pix.
    cbn [data].
    rewrite div_mul_add, mod_mul_add by exact Hi.
    exact (proj2 (proj2 (proj2 (proj2
             (Hdata [b; i; l / (h * w); (l / w) mod h; l mod w] c))))). }
  intros ret_attn_mask.
  unfold BiLevelRoutingAttention.forward.
  rewrite Hpad. cbn [bind]. fold nw. rewrite Hxw. cbn [bind].
  rewrite Hqkv. cbn [bind]. rewrite Hq_pix. cbn [bind]. rewrite Hkv_cf. cbn [bind].
  rewrite Hdown. cbn [call bind]. rewrite Hkv_pix. cbn [bind].
  rewrite Hq_win. cbn [bind]. fold qk. rewrite Hk_part. cbn [bind].
  rewrite Hk_win. cbn [bind].
  rewrite HextD, HextH, HextW. reflexivity.
Qed.

(** An input whose spatial extents are multiples of [n_win] passes the
    padding step unchanged, with or without [auto_pad], and is not
    cropped afterwards. *)
Lemma pad_input_divisible (self : BiLevelRoutingAttention.t) (x : Tensor R)
    (N D H W C : nat) :
  size x = [N; D; H; W; C] ->
  0 < BiLevelRoutingAttention.n_win self ->
  D mod BiLevelRoutingAttention.n_win self = 0 ->
  H mod BiLevelRoutingAttention.n_win self = 0 ->
  W mod BiLevelRoutingAttention.n_win self = 0 ->
  exists pd,
    BiLevelRoutingAttention.pad_input self x = Ok pd /\
    size (BiLevelRoutingAttention.padded_x pd) = [N; D; H; W; C] /\
    (forall idx, InRange idx [N; D; H; W; C] ->
       data (BiLevelRoutingAttention.padded_x pd) idx = data x idx) /\
    BiLevelRoutingAttention.ext_D pd = D /\
    BiLevelRoutingAttention.ext_H pd = H /\
    BiLevelRoutingAttention.ext_W pd = W /\
    forall out, BiLevelRoutingAttention.crop_output (BiLevelRoutingAttention.crop pd) out = Ok out.
Proof.
  intros Hx Hnw HD HH HW.
  unfold BiLevelRoutingAttention.pad_input. rewrite Hx.
  destruct (BiLevelRoutingAttention.auto_pad self).
  - rewrite !pad_amount_divisible by assumption. cbn [bind].
    unfold F_pad. rewrite Hx.
    cbn [rev app pad_shape_rev option_map Nat.add size].
    rewrite !Nat.add_0_r.
    eexists. split; [reflexivity|].
    cbn [BiLevelRoutingAttention.padded_x BiLevelRoutingAttention.ext_D
         BiLevelRoutingAttention.ext_H BiLevelRoutingAttention.ext_W
         BiLevelRoutingAttention.crop size data
         BiLevelRoutingAttention.crop_output Nat.ltb Nat.leb orb].
    split; [reflexivity|]. split; [|repeat split; reflexivity].
    intros idx Hidx. inrange_inv Hidx.
    cbn [rev app pad_source_rev Nat.leb Nat.add andb option_map].
    repeat match goal with
           | Hlt : ?a < ?b |- _ => apply Nat.ltb_lt in Hlt; rewrite Hlt
           end.
    cbn [option_map rev app]. rewrite !Nat.sub_0_r. reflexivity.
  - unfold py_mod.
    replace (BiLevelRoutingAttention.n_win self =? 0) with false
      by (symmetry; apply Nat.eqb_neq; lia).
    cbn [bind]. rewrite HD, HH, HW. cbn [Nat.eqb andb assert bind].
    eexists. split; [reflexivity|].
    cbn [BiLevelRoutingAttention.padded_x BiLevelRoutingAttention.ext_D
         BiLevelRoutingAttention.ext_H BiLevelRoutingAttention.ext_W
         BiLevelRoutingAttention.crop BiLevelRoutingAttention.crop_output].
    repeat split; try exact Hx; reflexivity.
Qed.

(** ** Attention as a weighted average *)

Lemma Rsum_le (n : nat) (f g : nat -> R) :
  (forall i, i < n -> (f i <= g i)%R) -> (Rsum n f <= Rsum n g)%R.
Proof.
  induction n as [|n IH]; intros H.
  - unfold Rsum. simpl. lra.
  - rewrite !Rsum_S.
    assert (H1 : (Rsum n f <= Rsum n g)%R) by (apply IH; intros i Hi; apply H; lia).
    assert (H2 : (f n <= g n)%R) by (apply H; lia).
    lra.
Qed.

Lemma Rsum_scal_r (n : nat) (c : R) (f : nat -> R) :
  Rsum n (fun l => (f l * c)%R) = (Rsum n f * c)%R.
Proof.
  induction n as [|n IH].
  - unfold Rsum. simpl. lra.
  - rewrite !Rsum_S, IH. lra.
Qed.

(** A softmax-weighted sum of values lies between any two bounds of the
    values. *)
Lemma softmax_average_bounds (n : nat) (e v : nat -> R) (lo hi : R) :
  0 < n ->
  (forall l, l < n -> (lo <= v l <= hi)%R) ->
  (lo <= Rsum n (fun l => exp (e l) / Rsum n (fun l' => exp (e l')) * v l) <= hi)%R.
Proof.
  intros Hn Hv.
  pose proof (@softmax_weights_sum n e Hn) as Hsum.
  pose proof (@Rsum_exp_pos n e Hn) as Hpos.
  set (w := fun l => (exp (e l) / Rsum n (fun l' => exp (e l')))%R) in *.
  change (lo <= Rsum n (fun l => w l * v l) <= hi)%R.
  assert (Hw : forall l, (0 <= w l)%R).
  { intro l. unfold w. apply Rlt_le, Rdiv_lt_0_compat; [apply exp_pos | exact Hpos]. }
  split.
  - replace lo with (Rsum n (fun l => w l * lo))%R
      by (rewrite Rsum_scal_r, Hsum; lra).
    apply Rsum_le. intros l Hl.
    apply Rmult_le_compat_l; [apply Hw | apply Hv; exact Hl].
  - replace hi with (Rsum n (fun l => w l * hi))%R
      by (rewrite Rsum_scal_r, Hsum; lra).
    apply Rsum_le. intros l Hl.
    apply Rmult_le_compat_l; [apply Hw | apply Hv; exact Hl].
Qed.

Lemma gathered_attention_bounds (s : R) (m qk dm : nat) (q_pix : Tensor R)
    (g : list nat -> R) (p k w3 b h x c : nat) (lo hi : R) :
  0 < k * w3 ->
  (forall l, l < k * w3 ->
     (lo <= g [b / p; b mod p; l / w3; l mod w3; qk + (h * (dm / m) + c)]%nat <= hi)%R) ->
  (lo <= gathered_attention s m qk dm q_pix g p k w3 b h x c <= hi)%R.
Proof.
  intros Hn Hv. unfold gathered_attention. cbv zeta.
  apply (@softmax_average_bounds (k * w3)
           (fun l => Rsum (qk / m) (fun z =>
              (data q_pix [b / p; b mod p; x; h * (qk / m) + z]%nat * s *
               g [b / p; b mod p; l / w3; l mod w3; h * (qk / m) + z]%nat)%R))
           (fun l => g [b / p; b mod p; l / w3; l mod w3; qk + (h * (dm / m) + c)]%nat)
           lo hi Hn Hv).
Qed.

(** A channel of a head is a channel of the module. *)
Lemma head_channel_lt (m dm h c : nat) :
  dm mod m = 0 -> h < m -> c < dm / m -> h * (dm / m) + c < dm.
Proof.
  intros Hdm Hh Hc.
  assert (Hm : m <> 0) by lia.
  pose proof (@divisible_mul_div m dm Hm Hdm) as E.
  assert (h * (dm / m) + (dm / m) <= m * (dm / m)).
  { replace (h * (dm / m) + dm / m) with ((h + 1) * (dm / m)) by lia.
    apply Nat.mul_le_mono_r. lia. }
  lia.
Qed.

(** Without routing weights ([mul_weight = 'none']) every entry of the
    attention output is a weighted average of value entries of the
    key/value tensor, so it lies between any two bounds of these. *)
Lemma routed_attention_average (self : BiLevelRoutingAttention.t)
    (q_win k_win q_pix kv_pix : Tensor R) (n p w3q w3 : nat) :
  (TopkRouting.emb (BiLevelRoutingAttention.router self) = Identity \/
   exists th, TopkRouting.emb (BiLevelRoutingAttention.router self)
              = Linear (BiLevelRoutingAttention.qk_dim self)
                       (BiLevelRoutingAttention.qk_dim self) th) ->
  TopkRouting.topk (BiLevelRoutingAttention.router self) <= p ->
  0 < TopkRouting.topk (BiLevelRoutingAttention.router self) ->
  0 < w3 ->
  0 < BiLevelRoutingAttention.num_heads self ->
  BiLevelRoutingAttention.qk_dim self mod BiLevelRoutingAttention.num_heads self = 0 ->
  BiLevelRoutingAttention.dim self mod BiLevelRoutingAttention.num_heads self = 0 ->
  size q_win = [n; p; BiLevelRoutingAttention.qk_dim self] ->
  size k_win = [n; p; BiLevelRoutingAttention.qk_dim self] ->
  size q_pix = [n; p; w3q; BiLevelRoutingAttention.qk_dim self] ->
  size kv_pix = [n; p; w3; BiLevelRoutingAttention.qk_dim self + BiLevelRoutingAttention.dim self] ->
  KVGather.mul_weight (BiLevelRoutingAttention.kv_gather self) = "none"%string ->
  exists out r_weight r_idx attn_weight,
    BiLevelRoutingAttention.routed_attention self q_win k_win q_pix kv_pix
      = Ok (out, r_weight, r_idx, attn_weight) /\
    size out = [n * p; BiLevelRoutingAttention.num_heads self; w3q;
                BiLevelRoutingAttention.dim self / BiLevelRoutingAttention.num_heads self] /\
    forall lo hi : R,
      (forall b i w ch, b < n -> i < p -> w < w3 -> ch < BiLevelRoutingAttention.dim self ->
         (lo <= data kv_pix [b; i; w; (BiLevelRoutingAttention.qk_dim self + ch)%nat] <= hi)%R) ->
      forall b h x c,
        b < n * p -> h < BiLevelRoutingAttention.num_heads self ->
        c < BiLevelRoutingAttention.dim self / BiLevelRoutingAttention.num_heads self ->
        (lo <= data out [b; h; x; c] <= hi)%R.
Proof.
  intros Hemb Hkp Hk Hw3 Hm Hqk Hdm Hq_win Hk_win Hq_pix Hkv_pix Hnone.
  destruct (@routed_attention_spec self q_win k_win q_pix kv_pix n p w3q w3
              Hemb Hkp Hm Hqk Hdm Hq_win Hk_win Hq_pix Hkv_pix (or_introl Hnone))
    as [L [O [Wt [I [S [G [_ [_ [Hfw [HG [Hra [HsO [HsW [HsI [_ [_ [HrI HdO]]]]]]]]]]]]]]]]].
  destruct (kv_gather_forward_spec I Wt kv_pix Hkv_pix HsI HsW HrI)
    as [[Gn [HGn [_ HdG]]] _].
  assert (EG : G = Gn).
  { destruct (BiLevelRoutingAttention.kv_gather self) as [mode].
    cbn in Hnone. subst mode. congruence. }
  subst Gn.
  exists O, Wt, I, S. split; [exact Hra|]. split; [exact HsO|].
  intros lo hi Hb b h x c Hbn Hh Hc.
  rewrite HdO.
  assert (Hp : 0 < p) by nia.
  apply gathered_attention_bounds; [nia|].
  intros l Hl.
  assert (Hch : h * (BiLevelRoutingAttention.dim self / BiLevelRoutingAttention.num_heads self) + c
                < BiLevelRoutingAttention.dim self)
    by (apply head_channel_lt; assumption).
  assert (H1 : b / p < n) by (apply Nat.Div0.div_lt_upper_bound; lia).
  assert (H2 : b mod p < p) by (apply Nat.mod_upper_bound; lia).
  assert (H3 : l / w3 < TopkRouting.topk (BiLevelRoutingAttention.router self))
    by (apply Nat.Div0.div_lt_upper_bound; lia).
  assert (H4 : l mod w3 < w3) by (apply Nat.mod_upper_bound; lia).
  rewrite HdG by (assumption || lia).
  apply Hb; try assumption.
  pose proof (HrI _ _ _ H1 H2 H3). lia.
Qed.

(** ** The outputs of the forward pass *)

(** The reassembling [rearrange] on the attention output of all windows. *)
Lemma reassemble_Ok (A : Type) (O : Tensor A) (N nw m d h w c : nat) :
  size O = [N * (nw * nw * nw); m; d * h * w; c] ->
  0 < nw ->
  exists out,
    rearrange_reassemble nw d h w O = Ok out /\
    size out = [N; nw * d; nw * h; nw * w; m * c] /\
    forall n_ dd hh ww cc,
      data out [n_; dd; hh; ww; cc] =
      data O [n_ * (nw * nw * nw) + ((dd / d * nw + hh / h) * nw + ww / w);
              cc / c;
              (dd mod d * h + hh mod h) * w + ww mod w;
              cc mod c].
Proof.
  intros HsO Hnw.
  assert (Hnwb : (0 <? nw) = true) by (apply Nat.ltb_lt; exact Hnw).
  assert (Hp3 : nw * nw * nw <> 0) by nia.
  unfold rearrange_reassemble. rewrite HsO.
  rewrite Hnwb, Nat.Div0.mod_mul, !Nat.eqb_refl. cbn [andb require bind].
  eexists. split; [reflexivity|]. cbn [size data].
  rewrite Nat.div_mul by exact Hp3. split; reflexivity.
Qed.

(** [torch.topk] cannot select more entries than a row has: with
    [topk] above the number of windows the router fails. *)
Lemma router_forward_topk_too_large (self : TopkRouting.t) (query key : Tensor R)
    (n p c : nat) :
  (TopkRouting.emb self = Identity \/ exists th, TopkRouting.emb self = Linear c c th) ->
  size query = [n; p; c] -> size key = [n; p; c] ->
  p < TopkRouting.topk self ->
  TopkRouting.forward self query key = Raise RuntimeError.
Proof.
  intros Hemb Hq Hk Hpk.
  destruct (router_logits_Ok self query key Hemb Hq Hk) as [L [HL HsL]].
  unfold TopkRouting.forward. rewrite HL. cbn [bind].
  unfold torch_topk. rewrite HsL. cbn [length Nat.leb last andb].
  replace (TopkRouting.topk self <=? p) with false by (symmetry; apply Nat.leb_gt; exact Hpk).
  reflexivity.
Qed.

(** On an input of shape [(N, D, H, W, dim)] with divisible extents a
    module without down-sampling and without hard routing returns, for
    a [topk] of at most [n_win^3]: an output of the shape of the input,
    the routing weights and indices, the attention weights and the
    window-partitioned [q], [k], [v]. *)
Lemma forward_outputs (self : BiLevelRoutingAttention.t) (x : Tensor R) (N D H W : nat) :
  well_formed self ->
  BiLevelRoutingAttention.kv_down self = Identity ->
  (KVGather.mul_weight (BiLevelRoutingAttention.kv_gather self) = "none"%string \/
   KVGather.mul_weight (BiLevelRoutingAttention.kv_gather self) = "soft"%string) ->
  BiLevelRoutingAttention.topk self <=
    BiLevelRoutingAttention.n_win self * BiLevelRoutingAttention.n_win self
    * BiLevelRoutingAttention.n_win self ->
  size x = [N; D; H; W; BiLevelRoutingAttention.dim self] ->
  0 < BiLevelRoutingAttention.n_win self ->
  D mod BiLevelRoutingAttention.n_win self = 0 ->
  H mod BiLevelRoutingAttention.n_win self = 0 ->
  W mod BiLevelRoutingAttention.n_win self = 0 ->
  exists out r_weight r_idx attn_weight q k v,
    let nw := BiLevelRoutingAttention.n_win self in
    let p3 := nw * nw * nw in
    let w3 := D / nw * (H / nw) * (W / nw) in
    let tk := BiLevelRoutingAttention.topk self in
    (forall ret_attn_mask : bool,
       BiLevelRoutingAttention.forward self x ret_attn_mask =
         Ok (if ret_attn_mask
             then [FloatTensor out; FloatTensor r_weight; LongTensor r_idx;
                   FloatTensor attn_weight; FloatTensor q; FloatTensor k; FloatTensor v]
             else [FloatTensor out; FloatTensor q; FloatTensor k; FloatTensor v])) /\
    size out = size x /\
    size r_weight = [N; p3; tk] /\
    size r_idx = [N; p3; tk] /\
    size attn_weight = [N * p3; BiLevelRoutingAttention.num_heads self; w3; tk * w3] /\
    size q = [N; p3; D / nw; H / nw; W / nw; BiLevelRoutingAttention.qk_dim self] /\
    size k = [N; p3; D / nw; H / nw; W / nw; BiLevelRoutingAttention.qk_dim self] /\
    size v = [N; p3; D / nw; H / nw; W / nw; BiLevelRoutingAttention.dim self] /\
    (forall b i j, b < N -> i < p3 -> j < tk ->
       (0 <= data r_idx [b; i; j] < Z.of_nat p3)%Z).
Proof.
  intros Hwf Hdown Hmode Htopk Hx Hnw HD HH HW.
  destruct Hwf as [Hm [Hqk [Hdm [Hqd [Hqq [Hrk [Hemb Hwo]]]]]]].
  destruct (@pad_input_divisible self x N D H W _ Hx Hnw HD HH HW)
    as [pd [Hpad [Hspd [_ [HeD [HeH [HeW Hcrop]]]]]]].
  destruct (@forward_reaches_routing self x pd N D H W Hqd Hqq Hdown Hpad Hspd
              HeD HeH HeW Hnw HD HH HW)
    as [q [k [v [q_pix [kv_pix [q_win [k_win
         [Hsq [Hsk [Hsv [Hsq_pix [Hskv_pix [Hsq_win [Hsk_win [_ Hfw]]]]]]]]]]]]]]].
  cbv zeta in Hfw.
  assert (Hkp : TopkRouting.topk (BiLevelRoutingAttention.router self) <=
                BiLevelRoutingAttention.n_win self * BiLevelRoutingAttention.n_win self
                * BiLevelRoutingAttention.n_win self)
    by (rewrite Hrk; exact Htopk).
  destruct (@routed_attention_spec self q_win k_win q_pix kv_pix N _ _ _
              Hemb Hkp Hm Hqk Hdm Hsq_win Hsk_win Hsq_pix Hskv_pix Hmode)
    as [L [O [Wt [I [S [G [_ [_ [_ [_ [Hra [HsO [HsW [HsI [HsS [_ [HrI _]]]]]]]]]]]]]]]]].
  rewrite Hrk in HsW, HsI, HsS, HrI.
  destruct (@reassemble_Ok R O N _ _ _ _ _ _ HsO Hnw) as [out1 [Hout1 [Hsout1 _]]].
  assert (Hnz : BiLevelRoutingAttention.n_win self <> 0) by lia.
  assert (Hmz : BiLevelRoutingAttention.num_heads self <> 0) by lia.
  rewrite !divisible_mul_div in Hsout1 by assumption.
  destruct (@call_same_width (BiLevelRoutingAttention.wo self) out1 [N; D; H; W] _ Hwo Hsout1)
    as [out2 [Hout2 Hsout2]].
  cbn [app] in Hsout2.
  exists out2, Wt, I, S, q, k, v. cbv zeta.
  split.
  { intros flag. rewrite Hfw, Hra. cbn [bind]. rewrite Hout1. cbn [bind].
    rewrite Hout2. cbn [bind]. rewrite Hcrop. cbn [bind].
    destruct flag; reflexivity. }
  split; [congruence|].
  repeat (split; [assumption|]). exact HrI.
Qed.

Lemma greedy_module_constructed :
  BiLevelRoutingAttention.init pool_rejects greedy_args zero_weights = Ok greedy_module.
Proof. eval_init. Qed.

(** What the constructor returns for [kv_downsample_mode = 'identity']. *)
Lemma init_identity_module (nn : Pooling) (a : BiLevelRoutingAttention.Args.t)
    (wts : BiLevelRoutingAttention.Weights) (self : BiLevelRoutingAttention.t) :
  BiLevelRoutingAttention.init nn a wts = Ok self ->
  BiLevelRoutingAttention.Args.kv_downsample_mode a = "identity"%string ->
  well_formed self /\
  BiLevelRoutingAttention.kv_down self = Identity /\
  KVGather.mul_weight (BiLevelRoutingAttention.kv_gather self) =
    (if BiLevelRoutingAttention.Args.soft_routing a then "soft"
     else if BiLevelRoutingAttention.Args.diff_routing a then "hard"
     else "none")%string /\
  BiLevelRoutingAttention.n_win self = BiLevelRoutingAttention.Args.n_win a /\
  BiLevelRoutingAttention.topk self = BiLevelRoutingAttention.Args.topk a /\
  BiLevelRoutingAttention.dim self = BiLevelRoutingAttention.Args.dim a /\
  BiLevelRoutingAttention.num_heads self = BiLevelRoutingAttention.Args.num_heads a /\
  BiLevelRoutingAttention.qk_dim self =
    or_default (BiLevelRoutingAttention.Args.qk_dim a) (BiLevelRoutingAttention.Args.dim a) /\
  (BiLevelRoutingAttention.Args.param_attention a = "qkv"%string ->
   BiLevelRoutingAttention.wo self = Identity).
Proof.
  intros Hinit Hmode.
  destruct (@init_inv nn a wts self Hinit) as [Hwf [Hg [Hnw [Htk [Hdim [_ Hkd]]]]]].
  split; [exact Hwf|].
  split.
  { rewrite Hmode in Hkd. cbn in Hkd. congruence. }
  split; [rewrite Hg; reflexivity|].
  repeat (split; [assumption|]).
  apply init_record in Hinit. destruct Hinit as [s [wo [kd [_ [_ [Hwo Hself]]]]]].
  subst self. cbn.
  split; [reflexivity|]. split; [reflexivity|].
  intros Hpa. rewrite Hpa in Hwo. cbn in Hwo. exact Hwo.
Qed.

(** X12: a module built with [kv_downsample_mode = 'identity'] and
    without hard routing, applied to an input of shape
    [(N, D, H, W, dim)] whose extents are multiples of [n_win], with
    [topk <= n_win^3], returns an output of the shape of the input; with
    [ret_attn_mask] set it also returns the routing weights and indices
    of shape [(N, n_win^3, topk)], the indices being window numbers
    below [n_win^3], the attention weights of shape
    [(N * n_win^3, num_heads, w3, topk * w3)] for windows of [w3] pixels,
    and [q], [k], [v] partitioned into windows; with the flag off it
    returns the same [out], [q], [k], [v]. *)
Theorem X12_forward_output_shapes :
  forall (nn : Pooling) (a : BiLevelRoutingAttention.Args.t)
         (wts : BiLevelRoutingAttention.Weights) (self : BiLevelRoutingAttention.t)
         (x : Tensor R) (N D H W : nat),
    let nw := BiLevelRoutingAttention.Args.n_win a in
    let p3 := nw * nw * nw in
    let w3 := D / nw * (H / nw) * (W / nw) in
    let tk := BiLevelRoutingAttention.Args.topk a in
    let dm := BiLevelRoutingAttention.Args.dim a in
    let qk := or_default (BiLevelRoutingAttention.Args.qk_dim a) dm in
    BiLevelRoutingAttention.init nn a wts = Ok self ->
    BiLevelRoutingAttention.Args.kv_downsample_mode a = "identity"%string ->
    (BiLevelRoutingAttention.Args.soft_routing a = true \/
     BiLevelRoutingAttention.Args.diff_routing a = false) ->
    tk <= p3 ->
    size x = [N; D; H; W; dm] ->
    0 < nw -> D mod nw = 0 -> H mod nw = 0 -> W mod nw = 0 ->
    exists out r_weight r_idx attn_weight q k v,
      BiLevelRoutingAttention.forward self x true =
        Ok [FloatTensor out; FloatTensor r_weight; LongTensor r_idx;
            FloatTensor attn_weight; FloatTensor q; FloatTensor k; FloatTensor v] /\
      BiLevelRoutingAttention.forward self x false =
        Ok [FloatTensor out; FloatTensor q; FloatTensor k; FloatTensor v] /\
      size out = size x /\
      size r_weight = [N; p3; tk] /\
      size r_idx = [N; p3; tk] /\
      size attn_weight = [N * p3; BiLevelRoutingAttention.Args.num_heads a; w3; tk * w3] /\
      size q = [N; p3; D / nw; H / nw; W / nw; qk] /\
      size k = [N; p3; D / nw; H / nw; W / nw; qk] /\
      size v = [N; p3; D / nw; H / nw; W / nw; dm] /\
      (forall b i j, b < N -> i < p3 -> j < tk ->
         (0 <= data r_idx [b; i; j] < Z.of_nat p3)%Z).
Proof.
  intros nn a wts self x N D H W nw p3 w3 tk dm qk Hinit Hmode Hrouting Htk Hx Hnw HD HH HW.
  destruct (@init_identity_module nn a wts self Hinit Hmode)
    as [Hwf [Hkd [Hmw [En [Et [Ed [Eh [Eq _]]]]]]]].
  assert (Hmw' : KVGather.mul_weight (BiLevelRoutingAttention.kv_gather self) = "none"%string \/
                 KVGather.mul_weight (BiLevelRoutingAttention.kv_gather self) = "soft"%string).
  { rewrite Hmw. destruct Hrouting as [E|E]; rewrite E; [right; reflexivity|].
    destruct (BiLevelRoutingAttention.Args.soft_routing a); [right|left]; reflexivity. }
  subst nw p3 w3 tk dm qk.
  rewrite <- En, <- Et, <- Ed, <- Eh in *. rewrite <- Eq.
  destruct (@forward_outputs self x N D H W Hwf Hkd Hmw' Htk Hx Hnw HD HH HW)
    as [out [rw [ri [aw [q [k [v [Hfw [H1 [H2 [H3 [H4 [H5 [H6 [H7 H8]]]]]]]]]]]]]]].
  exists out, rw, ri, aw, q, k, v.
  split; [exact (Hfw true)|]. split; [exact (Hfw false)|].
  repeat (split; [assumption|]). exact H8.
Qed.

Lemma X12_forward_output_shapes_witness :
  exists out r_weight r_idx attn_weight q k v,
    BiLevelRoutingAttention.forward (scenario_module false false) scenario_input true =
      Ok [FloatTensor out; FloatTensor r_weight; LongTensor r_idx;
          FloatTensor attn_weight; FloatTensor q; FloatTensor k; FloatTensor v] /\
    BiLevelRoutingAttention.forward (scenario_module false false) scenario_input false =
      Ok [FloatTensor out; FloatTensor q; FloatTensor k; FloatTensor v] /\
    size out = [1; 16; 16; 16; 32] /\
    size r_weight = [1; 8; 4] /\
    size r_idx = [1; 8; 4] /\
    size attn_weight = [8; 4; 512; 4 * 512] /\
    size q = [1; 8; 8; 8; 8; 32] /\
    size k = [1; 8; 8; 8; 8; 32] /\
    size v = [1; 8; 8; 8; 8; 32] /\
    (forall b i j, b < 1 -> i < 8 -> j < 4 ->
       (0 <= data r_idx [b; i; j] < 8)%Z).
Proof.
  apply (@X12_forward_output_shapes pool_rejects
           (with_auto_pad false (with_routing false false false scenario_args))
           zero_weights (scenario_module false false) scenario_input 1 16 16 16).
  - apply scenario_module_constructed.
  - reflexivity.
  - right. reflexivity.
  - simpl. lia.
  - reflexivity.
  - simpl. lia.
  - reflexivity.
  - reflexivity.
  - reflexivity.
Defined.

(** ** The attention weights *)

(** The rows of a softmax along the last axis are positive and sum to
    one. *)
Lemma softmax_rows (t s : Tensor R) :
  softmax t = Ok s ->
  size s = size t /\
  (0 < last (size t) 0 ->
   forall pre,
     (forall l, (0 < data s (pre ++ [l]))%R) /\
     Rsum (last (size t) 0) (fun l => data s (pre ++ [l])) = 1%R).
Proof.
  unfold softmax. intros H.
  apply bind_Ok in H. destruct H as [u [_ H]].
  inversion H; subst s; clear H. cbn [size data].
  split; [reflexivity|]. intros Hn pre. split.
  - intros l. rewrite removelast_last.
    apply Rdiv_lt_0_compat; [apply exp_pos|].
    apply (@Rsum_exp_pos _ (fun l => data t (pre ++ [l])) Hn).
  - rewrite (@Rsum_ext _ _
               (fun l => (exp (data t (pre ++ [l])) /
                          Rsum (last (size t) 0%nat) (fun l' => exp (data t (pre ++ [l']))))%R))
      by (intros i _; rewrite removelast_last; reflexivity).
    apply (@softmax_weights_sum _ (fun l => data t (pre ++ [l])) Hn).
Qed.

(** The attention weights that [routed_attention] returns are the
    result of its softmax. *)
Lemma routed_attention_weights_softmax (self : BiLevelRoutingAttention.t)
    (q_win k_win q_pix kv_pix out r_weight : Tensor R) (r_idx : Tensor Z)
    (attn_weight : Tensor R) :
  BiLevelRoutingAttention.routed_attention self q_win k_win q_pix kv_pix
    = Ok (out, r_weight, r_idx, attn_weight) ->
  exists attn_logit, softmax attn_logit = Ok attn_weight.
Proof.
  unfold BiLevelRoutingAttention.routed_attention. intros H.
  apply bind_Ok in H. destruct H as [[rw ri] [_ H]].
  apply bind_Ok in H. destruct H as [sel [_ H]].
  apply bind_Ok in H. destruct H as [parts [_ H]].
  destruct parts as [|ks [|vs [|? ?]]]; try discriminate.
  apply bind_Ok in H. destruct H as [ks' [_ H]].
  apply bind_Ok in H. destruct H as [vs' [_ H]].
  apply bind_Ok in H. destruct H as [qh [_ H]].
  apply bind_Ok in H. destruct H as [logit [_ H]].
  apply bind_Ok in H. destruct H as [aw [Hsm H]].
  apply bind_Ok in H. destruct H as [o [_ H]].
  inversion H; subst. exists logit. exact Hsm.
Qed.

(** X13: whenever [forward] succeeds with [ret_attn_mask] set, whatever
    the module and the input, the attention weights it returns are
    positive and sum to one along their last axis (the gathered
    key pixels), provided that axis is not empty. *)
Theorem X13_attention_weights_normalised :
  forall (self : BiLevelRoutingAttention.t) (x out r_weight : Tensor R) (r_idx : Tensor Z)
         (attn_weight q k v : Tensor R),
    BiLevelRoutingAttention.forward self x true =
      Ok [FloatTensor out; FloatTensor r_weight; LongTensor r_idx;
          FloatTensor attn_weight; FloatTensor q; FloatTensor k; FloatTensor v] ->
    0 < last (size attn_weight) 0 ->
    forall pre,
      (forall l, (0 < data attn_weight (pre ++ [l]))%R) /\
      Rsum (last (size attn_weight) 0) (fun l => data attn_weight (pre ++ [l])) = 1%R.
Proof.
  intros self x out r_weight r_idx attn_weight q k v H Hn pre.
  unfold BiLevelRoutingAttention.forward in H.
  apply bind_Ok in H. destruct H as [pd [_ H]].
  apply bind_Ok in H. destruct H as [xw [_ H]].
  apply bind_Ok in H. destruct H as [[[[q' kv] k'] v'] [_ H]].
  apply bind_Ok in H. destruct H as [q_pix [_ H]].
  apply bind_Ok in H. destruct H as [kv_cf [_ H]].
  apply bind_Ok in H. destruct H as [kv_pix0 [_ H]].
  apply bind_Ok in H. destruct H as [kv_pix [_ H]].
  apply bind_Ok in H. destruct H as [q_win [_ H]].
  apply bind_Ok in H. destruct H as [k_part [_ H]].
  apply bind_Ok in H. destruct H as [k_win [_ H]].
  apply bind_Ok in H. destruct H as [[[[O rw] ri] aw] [Hra H]].
  apply bind_Ok in H. destruct H as [out1 [_ H]].
  apply bind_Ok in H. destruct H as [out2 [_ H]].
  apply bind_Ok in H. destruct H as [out3 [_ H]].
  inversion H; subst; clear H.
  apply routed_attention_weights_softmax in Hra. destruct Hra as [logit Hsm].
  apply softmax_rows in Hsm. destruct Hsm as [Hs Hrows].
  rewrite Hs in *. apply Hrows. exact Hn.
Qed.

Lemma X13_attention_weights_normalised_witness :
  exists out r_weight r_idx attn_weight q k v,
    BiLevelRoutingAttention.forward (scenario_module false false) scenario_input true =
      Ok [FloatTensor out; FloatTensor r_weight; LongTensor r_idx;
          FloatTensor attn_weight; FloatTensor q; FloatTensor k; FloatTensor v] /\
    0 < last (size attn_weight) 0 /\
    forall pre,
      (forall l, (0 < data attn_weight (pre ++ [l]))%R) /\
      Rsum (last (size attn_weight) 0) (fun l => data attn_weight (pre ++ [l])) = 1%R.
Proof.
  destruct (@forward_outputs (scenario_module false false) scenario_input 1 16 16 16
              (scenario_module_well_formed false) eq_refl (or_introl eq_refl))
    as [out [rw [ri [aw [q [k [v [Hfw [_ [_ [_ [Hs _]]]]]]]]]]]];
    try solve [reflexivity | simpl; lia].
  assert (Hn : 0 < last (size aw) 0) by (rewrite Hs; simpl; lia).
  exists out, rw, ri, aw, q, k, v.
  split; [exact (Hfw true)|]. split; [exact Hn|].
  exact (@X13_attention_weights_normalised (scenario_module false false) scenario_input
           out rw ri aw q k v (Hfw true) Hn).
Defined.

(** ** Errors that only show in the forward pass *)

(** X14: the constructor accepts any [topk], but on an input with
    divisible extents a module built with [topk > n_win^3] fails in
    [forward] with the [RuntimeError] of [torch.topk], whatever the
    routing flags. *)
Theorem X14_forward_topk_above_windows :
  forall (nn : Pooling) (a : BiLevelRoutingAttention.Args.t)
         (wts : BiLevelRoutingAttention.Weights) (self : BiLevelRoutingAttention.t)
         (x : Tensor R) (ret_attn_mask : bool) (N D H W : nat),
    let nw := BiLevelRoutingAttention.Args.n_win a in
    BiLevelRoutingAttention.init nn a wts = Ok self ->
    BiLevelRoutingAttention.Args.kv_downsample_mode a = "identity"%string ->
    size x = [N; D; H; W; BiLevelRoutingAttention.Args.dim a] ->
    0 < nw -> D mod nw = 0 -> H mod nw = 0 -> W mod nw = 0 ->
    nw * nw * nw < BiLevelRoutingAttention.Args.topk a ->
    BiLevelRoutingAttention.forward self x ret_attn_mask = Raise RuntimeError.
Proof.
  intros nn a wts self x flag N D H W nw Hinit Hmode Hx Hnw HD HH HW Htk.
  destruct (@init_identity_module nn a wts self Hinit Hmode)
    as [Hwf [Hkd [_ [En [Et [Ed _]]]]]].
  subst nw. rewrite <- En, <- Et, <- Ed in *.
  destruct Hwf as [Hm [Hqk [Hdm [Hqd [Hqq [Hrk [Hemb Hwo]]]]]]].
  destruct (@pad_input_divisible self x N D H W _ Hx Hnw HD HH HW)
    as [pd [Hpad [Hspd [_ [HeD [HeH [HeW Hcrop]]]]]]].
  destruct (@forward_reaches_routing self x pd N D H W Hqd Hqq Hkd Hpad Hspd
              HeD HeH HeW Hnw HD HH HW)
    as [q [k [v [q_pix [kv_pix [q_win [k_win
         [_ [_ [_ [_ [_ [Hsq_win [Hsk_win [_ Hfw]]]]]]]]]]]]]]].
  cbv zeta in Hfw. rewrite Hfw.
  unfold BiLevelRoutingAttention.routed_attention.
  rewrite (@router_forward_topk_too_large (BiLevelRoutingAttention.router self)
             q_win k_win N _ _ Hemb Hsq_win Hsk_win) by (rewrite Hrk; exact Htk).
  reflexivity.
Qed.

Lemma X14_forward_topk_above_windows_witness :
  BiLevelRoutingAttention.forward greedy_module scenario_input false = Raise RuntimeError.
Proof.
  apply (@X14_forward_topk_above_windows pool_rejects greedy_args zero_weights
           greedy_module scenario_input false 1 16 16 16).
  - apply greedy_module_constructed.
  - reflexivity.
  - reflexivity.
  - simpl. lia.
  - reflexivity.
  - reflexivity.
  - reflexivity.
  - simpl. lia.
Defined.

(** X15: an input whose last extent is not the [dim] the module was
    built with passes the padding step and the window partition and
    then fails in the query/key/value projection with the
    [RuntimeError] of [nn.Linear]. *)
Theorem X15_forward_channel_mismatch :
  forall (nn : Pooling) (a : BiLevelRoutingAttention.Args.t)
         (wts : BiLevelRoutingAttention.Weights) (self : BiLevelRoutingAttention.t)
         (x : Tensor R) (ret_attn_mask : bool) (N D H W C : nat),
    let nw := BiLevelRoutingAttention.Args.n_win a in
    BiLevelRoutingAttention.init nn a wts = Ok self ->
    size x = [N; D; H; W; C] ->
    C <> BiLevelRoutingAttention.Args.dim a ->
    0 < nw -> D mod nw = 0 -> H mod nw = 0 -> W mod nw = 0 ->
    BiLevelRoutingAttention.forward self x ret_attn_mask = Raise RuntimeError.
Proof.
  intros nn a wts self x flag N D H W C nw Hinit Hx HC Hnw HD HH HW.
  destruct (@init_inv nn a wts self Hinit) as [Hwf [_ [En [_ [Ed _]]]]].
  subst nw. rewrite <- En, <- Ed in *.
  destruct Hwf as [_ [_ [_ [Hqd _]]]].
  destruct (@pad_input_divisible self x N D H W C Hx Hnw HD HH HW)
    as [pd [Hpad [Hspd _]]].
  unfold BiLevelRoutingAttention.forward. rewrite Hpad. cbn [bind].
  unfold rearrange_partition. rewrite Hspd, HD, HH, HW.
  replace (0 <? BiLevelRoutingAttention.n_win self) with true
    by (symmetry; apply Nat.ltb_lt; exact Hnw).
  cbn [Nat.eqb andb require bind].
  rewrite qkv_forward_width_mismatch; [reflexivity|].
  cbn [size last]. rewrite Hqd. exact HC.
Qed.

Lemma X15_forward_channel_mismatch_witness :
  BiLevelRoutingAttention.forward (scenario_module false false) narrow_input false
  = Raise RuntimeError.
Proof.
  apply (@X15_forward_channel_mismatch pool_rejects
           (with_auto_pad false (with_routing false false false scenario_args))
           zero_weights (scenario_module false false) narrow_input false 1 16 16 16 8).
  - apply scenario_module_constructed.
  - reflexivity.
  - simpl. lia.
  - simpl. lia.
  - reflexivity.
  - reflexivity.
  - reflexivity.
Defined.

(** ** The output as an average of the values *)

(** X16: for a module built without output projection
    ([param_attention = 'qkv']), without down-sampling and with plain
    routing (neither [soft_routing] nor [diff_routing]), every entry of
    the output of [forward] is a weighted average of entries of the
    value tensor [v] that [forward] returns: it lies between any two
    bounds of [v]. *)
Theorem X16_output_within_value_range :
  forall (nn : Pooling) (a : BiLevelRoutingAttention.Args.t)
         (wts : BiLevelRoutingAttention.Weights) (self : BiLevelRoutingAttention.t)
         (x : Tensor R) (N D H W : nat),
    let nw := BiLevelRoutingAttention.Args.n_win a in
    BiLevelRoutingAttention.init nn a wts = Ok self ->
    BiLevelRoutingAttention.Args.kv_downsample_mode a = "identity"%string ->
    BiLevelRoutingAttention.Args.param_attention a = "qkv"%string ->
    BiLevelRoutingAttention.Args.soft_routing a = false ->
    BiLevelRoutingAttention.Args.diff_routing a = false ->
    0 < BiLevelRoutingAttention.Args.topk a ->
    BiLevelRoutingAttention.Args.topk a <= nw * nw * nw ->
    size x = [N; D; H; W; BiLevelRoutingAttention.Args.dim a] ->
    0 < D -> 0 < H -> 0 < W ->
    0 < nw -> D mod nw = 0 -> H mod nw = 0 -> W mod nw = 0 ->
    exists out r_weight r_idx attn_weight q k v,
      BiLevelRoutingAttention.forward self x true =
        Ok [FloatTensor out; FloatTensor r_weight; LongTensor r_idx;
            FloatTensor attn_weight; FloatTensor q; FloatTensor k; FloatTensor v] /\
      forall lo hi : R,
        (forall idx, InRange idx (size v) -> (lo <= data v idx <= hi)%R) ->
        forall idx, InRange idx (size out) -> (lo <= data out idx <= hi)%R.
Proof.
  intros nn a wts self x N D H W nw Hinit Hmode Hpa Hsoft Hdiff Htk0 Htk Hx
         HD0 HH0 HW0 Hnw HD HH HW.
  destruct (@init_identity_module nn a wts self Hinit Hmode)
    as [Hwf [Hkd [Hmw [En [Et [Ed [_ [_ Hwo]]]]]]]].
  specialize (Hwo Hpa). rewrite Hsoft, Hdiff in Hmw.
  subst nw. rewrite <- En, <- Et, <- Ed in *.
  destruct Hwf as [Hm [Hqk [Hdm [Hqd [Hqq [Hrk [Hemb _]]]]]]].
  set (nw := BiLevelRoutingAttention.n_win self) in *.
  set (m := BiLevelRoutingAttention.num_heads self) in *.
  set (qk := BiLevelRoutingAttention.qk_dim self) in *.
  set (dm := BiLevelRoutingAttention.dim self) in *.
  set (d := D / nw). set (h := H / nw). set (w := W / nw).
  assert (Hnz : nw <> 0) by lia.
  assert (Hmz : m <> 0) by lia.
  assert (ED : nw * d = D) by (apply divisible_mul_div; assumption).
  assert (EH : nw * h = H) by (apply divisible_mul_div; assumption).
  assert (EW : nw * w = W) by (apply divisible_mul_div; assumption).
  assert (Edm : m * (dm / m) = dm) by (apply divisible_mul_div; assumption).
  assert (Hd : 0 < d) by nia.
  assert (Hh : 0 < h) by nia.
  assert (Hw : 0 < w) by nia.
  assert (Hw3 : 0 < d * h * w) by nia.
  destruct (@pad_input_divisible self x N D H W _ Hx Hnw HD HH HW)
    as [pd [Hpad [Hspd [_ [HeD [HeH [HeW Hcrop]]]]]]].
  destruct (@forward_reaches_routing self x pd N D H W Hqd Hqq Hkd Hpad Hspd
              HeD HeH HeW Hnw HD HH HW)
    as [q [k [v [q_pix [kv_pix [q_win [k_win
         [Hsq [Hsk [Hsv [Hsq_pix [Hskv_pix [Hsq_win [Hsk_win [Hkvv Hfw]]]]]]]]]]]]]]].
  cbv zeta in Hkvv, Hfw. fold nw qk dm d h w in Hsq, Hsk, Hsv, Hsq_pix, Hskv_pix, Hsq_win,
                                             Hsk_win, Hkvv, Hfw.
  assert (Hkp : TopkRouting.topk (BiLevelRoutingAttention.router self) <= nw * nw * nw)
    by (rewrite Hrk; exact Htk).
  assert (Hk0 : 0 < TopkRouting.topk (BiLevelRoutingAttention.router self))
    by (rewrite Hrk; exact Htk0).
  destruct (@routed_attention_average self q_win k_win q_pix kv_pix N (nw * nw * nw)
              (d * h * w) (d * h * w)
              Hemb Hkp Hk0 Hw3 Hm Hqk Hdm Hsq_win Hsk_win Hsq_pix Hskv_pix Hmw)
    as [O [rw [ri [aw [Hra [HsO Hbound]]]]]].
  fold m dm qk in HsO, Hbound.
  destruct (@reassemble_Ok R O N nw m d h w (dm / m) HsO Hnw)
    as [out1 [Hout1 [Hsout1 Hdout1]]].
  rewrite ED, EH, EW, Edm in Hsout1.
  exists out1, rw, ri, aw, q, k, v.
  split.
  { rewrite Hfw, Hra. cbn [bind]. rewrite Hout1. cbn [bind].
    rewrite Hwo. cbn [call bind]. rewrite Hcrop. reflexivity. }
  intros lo hi Hv idx Hidx.
  rewrite Hsout1 in Hidx. inrange_inv Hidx.
  rewrite Hdout1.
  assert (Hc : 0 < dm / m) by nia.
  apply Hbound.
  - intros b p_ l ch Hb Hp Hl Hch.
    rewrite Hkvv by exact Hp.
    apply Hv. rewrite Hsv.
    assert (l / (h * w) < d)
      by (apply Nat.Div0.div_lt_upper_bound; lia).
    assert ((l / w) mod h < h) by (apply Nat.mod_upper_bound; lia).
    assert (l mod w < w) by (apply Nat.mod_upper_bound; lia).
    unfold InRange. repeat (apply Forall2_cons; [assumption|]). apply Forall2_nil.
  - assert (Hwin : (i0 / d * nw + i1 / h) * nw + i2 / w < nw * nw * nw).
    { apply merge3_lt; apply Nat.Div0.div_lt_upper_bound; lia. }
    nia.
  - apply Nat.Div0.div_lt_upper_bound. lia.
  - apply Nat.mod_upper_bound. lia.
Qed.

Lemma X16_output_within_value_range_witness :
  exists out r_weight r_idx attn_weight q k v,
    BiLevelRoutingAttention.forward (all_windows_module false) unit_cube_input true =
      Ok [FloatTensor out; FloatTensor r_weight; LongTensor r_idx;
          FloatTensor attn_weight; FloatTensor q; FloatTensor k; FloatTensor v] /\
    forall lo hi : R,
      (forall idx, InRange idx (size v) -> (lo <= data v idx <= hi)%R) ->
      forall idx, InRange idx (size out) -> (lo <= data out idx <= hi)%R.
Proof.
  apply (@X16_output_within_value_range pool_rejects (all_windows_args false) zero_weights
           (all_windows_module false) unit_cube_input 1 2 2 2);
    try reflexivity; try (simpl; lia).
  apply all_windows_module_constructed.
Defined.

(** ** The layout of the key/value pixels *)

(** X17: the two [rearrange] calls that take the key/value tensor
    through the channel-first layout of the down-sampler and back
    enumerate the pixels of a window in the same order as the
    [rearrange] of the queries: without down-sampling, [kv_pix] is [kv]
    with the three pixel axes of each window flattened. *)
Theorem X17_kv_pixels_layout :
  forall (A : Type) (kv : Tensor A) (n n_win d h w c : nat),
    size kv = [n; n_win * n_win * n_win; d; h; w; c] ->
    0 < n_win ->
    exists kv_cf kv_pix flat,
      rearrange_channel_first kv = Ok kv_cf /\
      rearrange_kv_pixels n_win kv_cf = Ok kv_pix /\
      rearrange_flatten_pixels kv = Ok flat /\
      teq kv_pix flat.
Proof.
  intros A kv n nw d h w c Hkv Hnw.
  assert (Hnwb : (0 <? nw) = true) by (apply Nat.ltb_lt; exact Hnw).
  assert (Hp3 : nw * nw * nw <> 0) by nia.
  unfold rearrange_channel_first, rearrange_flatten_pixels. rewrite Hkv.
  do 3 eexists. split; [reflexivity|].
  split.
  { unfold rearrange_kv_pixels. cbn [size].
    rewrite Hnwb, Nat.Div0.mod_mul, Nat.eqb_refl. reflexivity. }
  split; [reflexivity|].
  unfold teq. cbn [size data].
  rewrite Nat.div_mul by exact Hp3.
  split; [reflexivity|].
  intros idx Hidx. inrange_inv Hidx.
  rewrite div_mul_add, mod_mul_add by assumption.
  reflexivity.
Qed.

Lemma X17_kv_pixels_layout_witness :
  exists kv_cf kv_pix flat,
    rearrange_channel_first (iota_tensor [1; 2 * 2 * 2; 2; 1; 3; 4]) = Ok kv_cf /\
    rearrange_kv_pixels 2 kv_cf = Ok kv_pix /\
    rearrange_flatten_pixels (iota_tensor [1; 2 * 2 * 2; 2; 1; 3; 4]) = Ok flat /\
    teq kv_pix flat.
Proof.
  apply (@X17_kv_pixels_layout nat (iota_tensor [1; 2 * 2 * 2; 2; 1; 3; 4]) 1 2 2 1 3 4).
  - reflexivity.
  - lia.
Defined.

(** ** Locality of the attention *)

(** The logits of a router without learned embedding. *)
Lemma router_logits_identity (self : TopkRouting.t) (query key : Tensor R) (n p c : nat) :
  TopkRouting.emb self = Identity ->
  size query = [n; p; c] -> size key = [n; p; c] ->
  exists L,
    TopkRouting.logits self query key = Ok L /\
    size L = [n; p; p] /\
    forall b i j,
      data L [b; i; j] =
      Rsum c (fun z => (data query [b; i; z] * TopkRouting.scale self * data key [b; j; z])%R).
Proof.
  intros He Hq Hk. unfold TopkRouting.logits. rewrite He. unfold call. cbn [bind].
  unfold transpose_last2. rewrite Hk.
  cbn [length Nat.leb require bind swap_last2 rev app].
  destruct (@matmul_3d (mul_scalar query (TopkRouting.scale self))
              {| size := [n; c; p]; data := fun idx => data key (swap_last2 idx) |}
              n p c p Hq eq_refl) as [t [Ht [Hs Hd]]].
  exists t. split; [exact Ht|]. split; [exact Hs|].
  intros b i j. rewrite Hd. reflexivity.
Qed.

(** The attention of a query window reads the queries and the gathered
    tensor only at the entries of that window. *)
Lemma gathered_attention_ext (s : R) (m qk dm : nat) (q_pix q_pix' : Tensor R)
    (g g' : list nat -> R) (p k w3 b h x c : nat) :
  (forall ch, ch < qk ->
     data q_pix [b / p; b mod p; x; ch] = data q_pix' [b / p; b mod p; x; ch]) ->
  (forall l ch, l < k * w3 -> ch < qk + dm ->
     g [b / p; b mod p; l / w3; l mod w3; ch] = g' [b / p; b mod p; l / w3; l mod w3; ch]) ->
  qk mod m = 0 -> dm mod m = 0 -> h < m -> c < dm / m ->
  gathered_attention s m qk dm q_pix g p k w3 b h x c =
  gathered_attention s m qk dm q_pix' g' p k w3 b h x c.
Proof.
  intros Hq Hg Hqk Hdm Hh Hc. unfold gathered_attention. cbv zeta.
  assert (Hlogit : forall l, l < k * w3 ->
            Rsum (qk / m) (fun z =>
              (data q_pix [b / p; b mod p; x; h * (qk / m) + z]%nat * s *
               g [b / p; b mod p; l / w3; l mod w3; h * (qk / m) + z]%nat)%R) =
            Rsum (qk / m) (fun z =>
              (data q_pix' [b / p; b mod p; x; h * (qk / m) + z]%nat * s *
               g' [b / p; b mod p; l / w3; l mod w3; h * (qk / m) + z]%nat)%R)).
  { intros l Hl. apply Rsum_ext. intros z Hz.
    pose proof (@head_channel_lt m qk h z Hqk Hh Hz) as Hch.
    rewrite Hq by exact Hch.
    rewrite Hg; [reflexivity | exact Hl | lia]. }
  assert (Hden :
            Rsum (k * w3) (fun l' => exp (Rsum (qk / m) (fun z =>
              (data q_pix [b / p; b mod p; x; h * (qk / m) + z]%nat * s *
               g [b / p; b mod p; l' / w3; l' mod w3; h * (qk / m) + z]%nat)%R))) =
            Rsum (k * w3) (fun l' => exp (Rsum (qk / m) (fun z =>
              (data q_pix' [b / p; b mod p; x; h * (qk / m) + z]%nat * s *
               g' [b / p; b mod p; l' / w3; l' mod w3; h * (qk / m) + z]%nat)%R)))).
  { apply Rsum_ext. intros l Hl. rewrite Hlogit by exact Hl. reflexivity. }
  rewrite Hden.
  apply Rsum_ext. intros l Hl.
  rewrite Hlogit by exact Hl.
  rewrite Hg; [reflexivity | exact Hl |].
  pose proof (@head_channel_lt m dm h c Hdm Hh Hc). lia.
Qed.

(** X18: the attention output of a query window is determined by the
    queries of that window, its row of routing indices (and of routing
    weights, under soft routing) and the key/value pixels of the windows
    that row names.  Two runs of the routing, gathering and attention
    statements of [forward] whose routers return the same row for a
    window, and whose queries and routed key/value windows agree, give
    the same output for that window, whatever the other windows hold. *)
Theorem X18_attention_reads_only_routed_windows :
  forall (self : BiLevelRoutingAttention.t)
         (q_win k_win q_pix kv_pix q_win' k_win' q_pix' kv_pix' : Tensor R)
         (n p w3q w3 : nat),
    let m := BiLevelRoutingAttention.num_heads self in
    let qk := BiLevelRoutingAttention.qk_dim self in
    let dm := BiLevelRoutingAttention.dim self in
    let k := TopkRouting.topk (BiLevelRoutingAttention.router self) in
    let mode := KVGather.mul_weight (BiLevelRoutingAttention.kv_gather self) in
    (TopkRouting.emb (BiLevelRoutingAttention.router self) = Identity \/
     exists th, TopkRouting.emb (BiLevelRoutingAttention.router self) = Linear qk qk th) ->
    k <= p ->
    0 < m -> qk mod m = 0 -> dm mod m = 0 ->
    size q_win = [n; p; qk] -> size k_win = [n; p; qk] ->
    size q_pix = [n; p; w3q; qk] -> size kv_pix = [n; p; w3; qk + dm] ->
    size q_win' = [n; p; qk] -> size k_win' = [n; p; qk] ->
    size q_pix' = [n; p; w3q; qk] -> size kv_pix' = [n; p; w3; qk + dm] ->
    (mode = "none"%string \/ mode = "soft"%string) ->
    exists out r_weight r_idx attn_weight out' r_weight' r_idx' attn_weight',
      BiLevelRoutingAttention.routed_attention self q_win k_win q_pix kv_pix
        = Ok (out, r_weight, r_idx, attn_weight) /\
      BiLevelRoutingAttention.routed_attention self q_win' k_win' q_pix' kv_pix'
        = Ok (out', r_weight', r_idx', attn_weight') /\
      forall b i, b < n -> i < p ->
        (forall j, j < k -> data r_idx [b; i; j] = data r_idx' [b; i; j]) ->
        (mode = "soft"%string ->
         forall j, j < k -> data r_weight [b; i; j] = data r_weight' [b; i; j]) ->
        (forall x ch, x < w3q -> ch < qk ->
           data q_pix [b; i; x; ch] = data q_pix' [b; i; x; ch]) ->
        (forall j w ch, j < k -> w < w3 -> ch < qk + dm ->
           data kv_pix [b; Z.to_nat (data r_idx [b; i; j]); w; ch] =
           data kv_pix' [b; Z.to_nat (data r_idx [b; i; j]); w; ch]) ->
        forall h x c, h < m -> x < w3q -> c < dm / m ->
          data out [b * p + i; h; x; c] = data out' [b * p + i; h; x; c].
Proof.
  intros self q_win k_win q_pix kv_pix q_win' k_win' q_pix' kv_pix' n p w3q w3 m qk dm k mode
         Hemb Hkp Hm Hqk Hdm Hq_win Hk_win Hq_pix Hkv Hq_win' Hk_win' Hq_pix' Hkv' Hmode.
  destruct (@routed_attention_spec self q_win k_win q_pix kv_pix n p w3q w3
              Hemb Hkp Hm Hqk Hdm Hq_win Hk_win Hq_pix Hkv Hmode)
    as [L [O [Wt [I [S [G [_ [_ [_ [HG [Hra [_ [HsW [HsI [_ [_ [HrI HdO]]]]]]]]]]]]]]]]].
  destruct (@routed_attention_spec self q_win' k_win' q_pix' kv_pix' n p w3q w3
              Hemb Hkp Hm Hqk Hdm Hq_win' Hk_win' Hq_pix' Hkv' Hmode)
    as [L' [O' [Wt' [I' [S' [G' [_ [_ [_ [HG' [Hra' [_ [HsW' [HsI' [_ [_ [HrI' HdO']]]]]]]]]]]]]]]]].
  fold m qk dm k in HsW, HsI, HrI, HdO, HsW', HsI', HrI', HdO'.
  destruct (kv_gather_forward_spec I Wt kv_pix Hkv HsI HsW HrI)
    as [[Gn [HGn [_ HdGn]]] [[Gs [HGs [_ HdGs]]] _]].
  destruct (kv_gather_forward_spec I' Wt' kv_pix' Hkv' HsI' HsW' HrI')
    as [[Gn' [HGn' [_ HdGn']]] [[Gs' [HGs' [_ HdGs']]] _]].
  exists O, Wt, I, S, O', Wt', I', S'.
  split; [exact Hra|]. split; [exact Hra'|].
  intros b i Hb Hi Hidx Hwt Hq Hagree h x c Hh Hx Hc.
  rewrite HdO, HdO'.
  apply gathered_attention_ext; try assumption.
  - intros ch Hch. rewrite div_mul_add, mod_mul_add by exact Hi.
    apply Hq; assumption.
  - intros l ch Hl Hch.
    rewrite div_mul_add, mod_mul_add by exact Hi.
    assert (Hj : l / w3 < k) by (apply Nat.Div0.div_lt_upper_bound; lia).
    assert (Hw : l mod w3 < w3) by (apply Nat.mod_upper_bound; nia).
    subst mode.
    destruct (BiLevelRoutingAttention.kv_gather self) as [md].
    cbn [KVGather.mul_weight] in Hmode, Hwt. destruct Hmode as [Emode|Emode]; subst md.
    + assert (EG : G = Gn) by congruence. assert (EG' : G' = Gn') by congruence.
      subst G G'.
      rewrite HdGn, HdGn' by assumption.
      rewrite <- (Hidx _ Hj). apply Hagree; assumption.
    + assert (EG : G = Gs) by congruence. assert (EG' : G' = Gs') by congruence.
      subst G G'.
      rewrite HdGs, HdGs' by assumption.
      rewrite <- (Hidx _ Hj), <- (Hwt eq_refl _ Hj), (Hagree _ _ _ Hj Hw Hch). reflexivity.
Qed.

Lemma unit_scale_pos : (0 < unit_scale)%R.
Proof.
  unfold unit_scale. apply Rinv_0_lt_compat, sqrt_lt_R0. simpl. lra.
Qed.

(** The routing that [routed_attention] returns is the router's. *)
Lemma routed_attention_router (self : BiLevelRoutingAttention.t)
    (q_win k_win q_pix kv_pix out r_weight : Tensor R) (r_idx : Tensor Z)
    (attn_weight : Tensor R) :
  BiLevelRoutingAttention.routed_attention self q_win k_win q_pix kv_pix
    = Ok (out, r_weight, r_idx, attn_weight) ->
  TopkRouting.forward (BiLevelRoutingAttention.router self) q_win k_win = Ok (r_weight, r_idx).
Proof.
  unfold BiLevelRoutingAttention.routed_attention. intros H.
  apply bind_Ok in H. destruct H as [[rw ri] [Hfw H]].
  apply bind_Ok in H. destruct H as [sel [_ H]].
  apply bind_Ok in H. destruct H as [parts [_ H]].
  destruct parts as [|ks [|vs [|? ?]]]; try discriminate.
  apply bind_Ok in H. destruct H as [ks' [_ H]].
  apply bind_Ok in H. destruct H as [vs' [_ H]].
  apply bind_Ok in H. destruct H as [qh [_ H]].
  apply bind_Ok in H. destruct H as [logit [_ H]].
  apply bind_Ok in H. destruct H as [aw [_ H]].
  apply bind_Ok in H. destruct H as [o [_ H]].
  inversion H; subst. exact Hfw.
Qed.

(** With the summaries of the example every query window is routed to
    window 0, the only window with a positive logit. *)
Lemma single_window_routes_to_first (r_weight : Tensor R) (r_idx : Tensor Z) :
  TopkRouting.forward (BiLevelRoutingAttention.router single_window_module)
    unit_summaries first_window_keys = Ok (r_weight, r_idx) ->
  forall b i, Z.to_nat (data r_idx [b; i; 0]) = 0.
Proof.
  intros Hfw b i.
  destruct (@router_logits_identity (BiLevelRoutingAttention.router single_window_module)
              unit_summaries first_window_keys 1 2 1 eq_refl eq_refl eq_refl)
    as [L [HL [HsL HdL]]].
  assert (Hkp : TopkRouting.topk (BiLevelRoutingAttention.router single_window_module) <= 2)
    by (simpl; lia).
  destruct (router_forward_largest _ _ _ HL HsL Hkp) as [W [I [Hfw' Htop]]].
  assert (E : (W, I) = (r_weight, r_idx)) by congruence.
  inversion E; subst W I; clear E Hfw'.
  destruct (Htop b i) as [_ [Hrange [_ Hdom]]].
  cbn [single_window_module BiLevelRoutingAttention.router TopkRouting.topk] in Hrange, Hdom.
  assert (H01 : 0 < 1) by lia. assert (H02 : 0 < 2) by lia.
  specialize (Hrange 0 H01).
  destruct (Nat.eq_dec (Z.to_nat (data r_idx [b; i; 0])) 0) as [E|E]; [exact E|].
  exfalso.
  assert (E1 : Z.to_nat (data r_idx [b; i; 0]) = 1) by lia.
  assert (Hnot : forall j', j' < 1 -> Z.to_nat (data r_idx [b; i; j']) <> 0).
  { intros j' Hj'. replace j' with 0 by lia. exact E. }
  specialize (Hdom 0 0 H01 H02 Hnot).
  rewrite E1, !HdL in Hdom.
  unfold Rsum in Hdom. cbn in Hdom.
  pose proof unit_scale_pos. lra.
Qed.

Lemma X18_attention_reads_only_routed_windows_witness :
  exists out r_weight r_idx attn_weight out' r_weight' r_idx' attn_weight',
    BiLevelRoutingAttention.routed_attention single_window_module
      unit_summaries first_window_keys two_window_queries two_window_kv
      = Ok (out, r_weight, r_idx, attn_weight) /\
    BiLevelRoutingAttention.routed_attention single_window_module
      unit_summaries first_window_keys two_window_queries two_window_kv_changed
      = Ok (out', r_weight', r_idx', attn_weight') /\
    data two_window_kv [0; 1; 0; 1] <> data two_window_kv_changed [0; 1; 0; 1] /\
    forall i h x c, i < 2 -> h < 1 -> x < 1 -> c < 1 ->
      data out [i; h; x; c] = data out' [i; h; x; c].
Proof.
  destruct (@X18_attention_reads_only_routed_windows single_window_module
              unit_summaries first_window_keys two_window_queries two_window_kv
              unit_summaries first_window_keys two_window_queries two_window_kv_changed
              1 2 1 1)
    as [out [rw [ri [aw [out' [rw' [ri' [aw' [Hra [Hra' Hloc]]]]]]]]]];
    try solve [reflexivity | simpl; lia | left; reflexivity].
  exists out, rw, ri, aw, out', rw', ri', aw'.
  split; [exact Hra|]. split; [exact Hra'|].
  split; [cbn; lra|].
  pose proof (@routed_attention_router _ _ _ _ _ _ _ _ _ Hra) as Hfw.
  pose proof (@routed_attention_router _ _ _ _ _ _ _ _ _ Hra') as Hfw'.
  assert (E : (rw', ri') = (rw, ri)) by congruence.
  inversion E; subst rw' ri'; clear E Hfw'.
  intros i h x c Hi Hh Hx Hc.
  apply (Hloc 0 i).
  - lia.
  - exact Hi.
  - intros j Hj. reflexivity.
  - intros Hsoft. cbn in Hsoft. discriminate Hsoft.
  - intros x' ch Hx' Hch. reflexivity.
  - intros j w ch Hj Hw Hch.
    replace j with 0 by (simpl in Hj; lia).
    rewrite (@single_window_routes_to_first _ _ Hfw 0 i). reflexivity.
  - exact Hh.
  - exact Hx.
  - exact Hc.
Defined.
